(** * SpotSave: scheduled form submissions

    A shallow embedding of the parts of the repository that carry the
    scheduling behaviour:

    - the two tables of the first migration ([profiles],
      [form_submissions]) with their constraints, row-level-security
      policies and triggers;
    - the [check-pending-forms] edge function, both as one call
      ([serve]) and as two store requests that other calls may interleave
      with ([phase_read], [phase_write], [run]);
    - the signup trigger [handle_new_user];
    - the handlers of the pages (Auth, Onboarding, Dashboard, Index) with
      the dates they compute, and one round of the worker of the
      integration guide.

    Tables are lists of rows in scan order.  Time is an integer count of
    microseconds, as in a [timestamptz]. *)

From stdpp Require Import base strings list gmap sorting.
From Stdlib Require Import ZArith Lia Ascii.

Local Open Scope string_scope.
Local Open Scope list_scope.
Local Open Scope Z_scope.

(** ** Column types *)

Definition uuid := string.
Definition timestamptz := Z.

(** Errors a statement can raise. *)
Inductive pg_error :=
| not_null_violation
| check_violation
| unique_violation
| foreign_key_violation
| rls_violation.

Inductive sql_result (A : Type) :=
| sql_ok (a : A)
| sql_error (e : pg_error).
Arguments sql_ok {A} a.
Arguments sql_error {A} e.

(** ** Credentials

    [auth.uid()] is the user of an end-user token and NULL otherwise; the
    service role bypasses row-level security altogether. *)
Inductive credential :=
| service_role
| authenticated (uid : uuid)
| anon.

Definition auth_uid (c : credential) : option uuid :=
  match c with
  | authenticated u => Some u
  | service_role | anon => None
  end.

(** ** auth.users, as far as the signup trigger reads it

    [raw_user_meta_data] is a jsonb object, or NULL.  Of a field only its
    [->>] text matters: a JSON string gives its contents, JSON null gives
    NULL, anything else its JSON text. *)
Inductive jsonb_field :=
| json_null
| json_string (s : string)
| json_other (text : string).

Module auth_users.

Record row := mk {
  id : uuid;
  email : option string;
  raw_user_meta_data : option (gmap string jsonb_field)
}.

End auth_users.

(** ** public.profiles *)
Module profiles.

Record row := mk {
  id : uuid;
  email : string;
  full_name : string;
  college : string;
  year : string;
  created_at : option timestamptz;
  updated_at : option timestamptz
}.

(** [CHECK (college IN (...))] *)
Definition colleges : list string :=
  [ "Baker College"; "Will Rice College"; "Hanszen College";
    "Wiess College"; "Jones College"; "Brown College"; "Lovett College";
    "Sid Richardson College"; "Martel College"; "McMurtry College";
    "Duncan College" ].

(** [CHECK (year IN ('Freshman', 'Sophomore', 'Junior', 'Senior'))] *)
Definition years : list string :=
  [ "Freshman"; "Sophomore"; "Junior"; "Senior" ].

Definition college_check (r : row) : Prop := college r ∈ colleges.
Definition year_check (r : row) : Prop := year r ∈ years.

End profiles.

(** ** public.form_submissions *)
Module form_submissions.

(** [status TEXT NOT NULL DEFAULT 'pending' CHECK (status IN ('pending',
    'processing', 'completed', 'failed'))]: the four values the CHECK
    admits. *)
Inductive status_t := pending | processing | completed | failed.

Record row := mk {
  id : uuid;
  user_id : uuid;
  form_url : string;
  scheduled_time : timestamptz;
  status : status_t;
  error_message : option string;
  created_at : option timestamptz;
  updated_at : option timestamptz
}.

(** A PostgREST body: the columns a request names, each with a constant. *)
Record payload := mk_payload {
  p_id : option uuid;
  p_user_id : option uuid;
  p_form_url : option string;
  p_scheduled_time : option timestamptz;
  p_status : option status_t;
  p_error_message : option (option string);
  p_created_at : option (option timestamptz);
  p_updated_at : option (option timestamptz)
}.

End form_submissions.

Import form_submissions (status_t, pending, processing, completed, failed).

#[global] Instance status_eq_dec : EqDecision status_t.
Proof. solve_decision. Defined.

#[global] Instance form_submission_eq_dec : EqDecision form_submissions.row.
Proof. solve_decision. Defined.

Definition ids (tbl : list form_submissions.row) : list uuid :=
  form_submissions.id <$> tbl.

(** SET list of an UPDATE: named columns take the payload's constant. *)
Definition apply_payload (p : form_submissions.payload)
    (r : form_submissions.row) : form_submissions.row :=
  form_submissions.mk
    (default (form_submissions.id r) (form_submissions.p_id p))
    (default (form_submissions.user_id r) (form_submissions.p_user_id p))
    (default (form_submissions.form_url r) (form_submissions.p_form_url p))
    (default (form_submissions.scheduled_time r)
       (form_submissions.p_scheduled_time p))
    (default (form_submissions.status r) (form_submissions.p_status p))
    (default (form_submissions.error_message r)
       (form_submissions.p_error_message p))
    (default (form_submissions.created_at r)
       (form_submissions.p_created_at p))
    (default (form_submissions.updated_at r)
       (form_submissions.p_updated_at p)).

(** [handle_updated_at], BEFORE UPDATE FOR EACH ROW:
    [NEW.updated_at = now(); RETURN NEW]. *)
Definition handle_updated_at (now : timestamptz)
    (NEW : form_submissions.row) : form_submissions.row :=
  form_submissions.mk
    (form_submissions.id NEW) (form_submissions.user_id NEW)
    (form_submissions.form_url NEW) (form_submissions.scheduled_time NEW)
    (form_submissions.status NEW) (form_submissions.error_message NEW)
    (form_submissions.created_at NEW) (Some now).

(** The four policies on form_submissions share one expression,
    [auth.uid() = user_id]; a NULL [auth.uid()] makes it fail. *)
Definition own_submission (c : credential) (r : form_submissions.row) : Prop :=
  auth_uid c = Some (form_submissions.user_id r).

(** Row-level security as one credential meets it. *)
Definition rls_allows (c : credential) (r : form_submissions.row) : Prop :=
  c = service_role ∨ own_submission c r.

#[global] Instance credential_eq_dec : EqDecision credential.
Proof. solve_decision. Defined.

#[global] Instance rls_allows_dec c r : Decision (rls_allows c r).
Proof. unfold rls_allows, own_submission. apply _. Defined.

(** [user_id UUID NOT NULL REFERENCES public.profiles(id)], for a payload
    that names user_id. *)
Definition references_profile (profile_ids : list uuid)
    (p : form_submissions.payload) : Prop :=
  match form_submissions.p_user_id p with
  | Some u => u ∈ profile_ids
  | None => True
  end.

#[global] Instance references_profile_dec profile_ids p :
  Decision (references_profile profile_ids p).
Proof. unfold references_profile. destruct (form_submissions.p_user_id p); apply _. Defined.

Section Statements.

Context (c : credential).
Context (P : form_submissions.row → Prop) `{!∀ r, Decision (P r)}.

(** SELECT * FROM form_submissions WHERE P, through the SELECT policy. *)
Definition select_rows (tbl : list form_submissions.row)
    : list form_submissions.row :=
  filter (λ r, rls_allows c r ∧ P r) tbl.

(** The row an UPDATE writes in place of [r]. *)
Definition updated_row (p : form_submissions.payload) (now : timestamptz)
    (r : form_submissions.row) : form_submissions.row :=
  if decide (rls_allows c r ∧ P r)
  then handle_updated_at now (apply_payload p r)
  else r.

(** UPDATE form_submissions SET p WHERE P.  The UPDATE policy has only a
    USING clause, which then also checks the new row.  The primary key
    and the foreign key are checked when the payload names them. *)
Definition update_rows (profile_ids : list uuid)
    (p : form_submissions.payload) (now : timestamptz)
    (tbl : list form_submissions.row)
    : sql_result (list form_submissions.row) :=
  let tbl' := updated_row p now <$> tbl in
  if decide (Forall (λ r, rls_allows c r ∧ P r →
                          rls_allows c (apply_payload p r)) tbl)
  then
    if decide (form_submissions.p_id p = None ∨ NoDup (ids tbl'))
    then
      if decide (select_rows tbl = [] ∨ references_profile profile_ids p)
      then sql_ok tbl'
      else sql_error foreign_key_violation
    else sql_error unique_violation
  else sql_error rls_violation.

(** DELETE FROM form_submissions WHERE P, through the DELETE policy. *)
Definition delete_rows (tbl : list form_submissions.row)
    : list form_submissions.row :=
  filter (λ r, ¬ (rls_allows c r ∧ P r)) tbl.

End Statements.

(** INSERT INTO form_submissions: columns the payload leaves out take
    their DEFAULT ([gen_random_uuid()], ['pending'], [now()], NULL);
    user_id, form_url and scheduled_time have none and are NOT NULL. *)
Definition new_row (p : form_submissions.payload) (gen_random_uuid : uuid)
    (now : timestamptz) : option form_submissions.row :=
  u ← form_submissions.p_user_id p;
  f ← form_submissions.p_form_url p;
  s ← form_submissions.p_scheduled_time p;
  Some (form_submissions.mk
          (default gen_random_uuid (form_submissions.p_id p))
          u f s
          (default pending (form_submissions.p_status p))
          (default None (form_submissions.p_error_message p))
          (default (Some now) (form_submissions.p_created_at p))
          (default (Some now) (form_submissions.p_updated_at p))).

Definition insert_row (c : credential) (profile_ids : list uuid)
    (p : form_submissions.payload) (gen_random_uuid : uuid)
    (now : timestamptz) (tbl : list form_submissions.row)
    : sql_result (list form_submissions.row) :=
  match new_row p gen_random_uuid now with
  | None => sql_error not_null_violation
  | Some r =>
      if decide (rls_allows c r)
      then
        if decide (form_submissions.id r ∈ ids tbl)
        then sql_error unique_violation
        else
          if decide (form_submissions.user_id r ∈ profile_ids)
          then sql_ok (tbl ++ [r])
          else sql_error foreign_key_violation
      else sql_error rls_violation
  end.

(** ** The database: the three tables the code touches *)
Record database := mk_db {
  users : list auth_users.row;
  profile_rows : list profiles.row;
  submissions : list form_submissions.row
}.

Definition profile_ids (db : database) : list uuid :=
  profiles.id <$> profile_rows db.

Definition with_submissions (db : database)
    (tbl : list form_submissions.row) : database :=
  mk_db (users db) (profile_rows db) tbl.

(** ** supabase/functions/check-pending-forms/index.ts *)

Record Env := mk_env {
  SUPABASE_URL : option string;
  SUPABASE_SERVICE_ROLE_KEY : option string
}.

Record Request := mk_request { method : string }.

(** What a [throw] carries: an [Error] instance, or some other value
    (the [error] object of a store response among them). *)
Inductive thrown :=
| Error (message : string)
| not_an_Error.

Record SupabaseClient := mk_client {
  supabaseUrl : string;
  client_credential : credential
}.

(** [createClient(supabaseUrl, supabaseKey)] throws when either argument
    is missing or empty; a URL that is present is taken to be well
    formed.  The key the function reads is the project's service-role
    key. *)
Definition createClient (supabaseUrl supabaseKey : option string)
    : thrown + SupabaseClient :=
  match supabaseUrl with
  | None | Some "" => inl (Error "supabaseUrl is required.")
  | Some url =>
      match supabaseKey with
      | None | Some "" => inl (Error "supabaseKey is required.")
      | Some _ => inr (mk_client url service_role)
      end
  end.

(** A store request is carried out, or comes back with an [error] and
    without effect.  The client never throws on its own. *)
Inductive store_outcome :=
| carried_out
| store_fails (error : thrown).

Record PostgrestResponse := mk_response {
  data : option (list form_submissions.row);
  error : option thrown
}.

(** [.eq('status', 'pending').lte('scheduled_time', now)] *)
Definition due (now : timestamptz) (r : form_submissions.row) : Prop :=
  form_submissions.status r = pending ∧ form_submissions.scheduled_time r ≤ now.

#[global] Instance due_dec now r : Decision (due now r).
Proof. unfold due. apply _. Defined.

(** [supabase.from('form_submissions').select('*').eq(...).lte(...)] *)
Definition select_due (supabase : SupabaseClient) (o : store_outcome)
    (now : timestamptz) (db : database) : PostgrestResponse :=
  match o with
  | carried_out =>
      mk_response
        (Some (select_rows (client_credential supabase) (due now)
                 (submissions db)))
        None
  | store_fails e => mk_response None (Some e)
  end.

(** [.in('id', formIds)] *)
Definition id_in (formIds : list uuid) (r : form_submissions.row) : Prop :=
  form_submissions.id r ∈ formIds.

#[global] Instance id_in_dec formIds r : Decision (id_in formIds r).
Proof. unfold id_in. apply _. Defined.

(** [{ status: 'processing' }] *)
Definition status_processing : form_submissions.payload :=
  form_submissions.mk_payload None None None None (Some processing)
    None None None.

(** [supabase.from('form_submissions').update({ status: 'processing' })
    .in('id', formIds)]: the database after the request. *)
Definition update_processing (supabase : SupabaseClient) (o : store_outcome)
    (formIds : list uuid) (now : timestamptz) (db : database) : database :=
  match o with
  | carried_out =>
      match update_rows (client_credential supabase) (id_in formIds)
              (profile_ids db) status_processing now (submissions db) with
      | sql_ok tbl => with_submissions db tbl
      | sql_error _ => db
      end
  | store_fails _ => db
  end.

Definition corsHeaders : list (string * string) :=
  [ ("Access-Control-Allow-Origin", "*");
    ("Access-Control-Allow-Headers",
     "authorization, x-client-info, apikey, content-type") ].

(** The two JSON bodies the function serialises. *)
Inductive json :=
| json_success (pendingForms : list form_submissions.row) (count : nat)
| json_failure (error : string).

Definition success (j : json) : bool :=
  match j with
  | json_success _ _ => true
  | json_failure _ => false
  end.

Record Response := mk_Response {
  body : option json;
  headers : list (string * string);
  status : Z
}.

Definition json_headers : list (string * string) :=
  corsHeaders ++ [ ("Content-Type", "application/json") ].

(** The [catch] block. *)
Definition catch (e : thrown) : Response :=
  mk_Response
    (Some (json_failure
             match e with
             | Error message => message
             | not_an_Error => "Unknown error"
             end))
    json_headers 500.

(** The rows that select asks for with the service role: pending and
    due, in scan order (the request has no [.order(...)]). *)
Definition due_rows (now : timestamptz) (db : database)
    : list form_submissions.row :=
  select_rows service_role (due now) (submissions db).

(** The [try] block up to [if (error) throw error]: what it throws, or
    the client and [pendingForms]. *)
Definition try_read (env : Env) (o : store_outcome) (now : timestamptz)
    (db : database)
    : thrown + SupabaseClient * option (list form_submissions.row) :=
  match createClient (SUPABASE_URL env) (SUPABASE_SERVICE_ROLE_KEY env) with
  | inl e => inl e
  | inr supabase =>
      let r := select_due supabase o now db in
      match error r with
      | Some e => inl e
      | None => inr (supabase, data r)
      end
  end.

(** From the start of the function to [if (error) throw error]: either
    the response is already decided (the preflight answer, or the [catch]
    block's), or the client and [pendingForms] go on to the second half. *)
Definition phase_read (env : Env) (req : Request) (o : store_outcome)
    (now : timestamptz) (db : database)
    : Response + SupabaseClient * option (list form_submissions.row) :=
  if decide (method req = "OPTIONS")
  then inl (mk_Response None corsHeaders 200)
  else
    match try_read env o now db with
    | inl e => inl (catch e)
    | inr read => inr read
    end.

(** What a call throws inside its [try], if anything; the preflight
    answer is returned before the [try] is entered. *)
Definition thrown_in (env : Env) (req : Request) (o : store_outcome)
    (now : timestamptz) (db : database) : option thrown :=
  if decide (method req = "OPTIONS")
  then None
  else
    match try_read env o now db with
    | inl e => Some e
    | inr _ => None
    end.

(** What [update({ status: 'processing' })] and the trigger make of a
    row. *)
Definition claimed_row (now : timestamptz) (r : form_submissions.row)
    : form_submissions.row :=
  handle_updated_at now (apply_payload status_processing r).

(** From [if (pendingForms && pendingForms.length > 0)] to the 200
    response; the outcome of the update is not looked at. *)
Definition phase_write (supabase : SupabaseClient)
    (pendingForms : option (list form_submissions.row)) (o : store_outcome)
    (now : timestamptz) (db : database) : Response * database :=
  let db' :=
    match pendingForms with
    | Some (f :: fs) =>
        let formIds := form_submissions.id <$> (f :: fs) in
        update_processing supabase o formIds now db
    | Some [] | None => db
    end in
  (mk_Response
     (Some (json_success (default [] pendingForms)
              (default 0%nat (length <$> pendingForms))))
     json_headers 200,
   db').

(** One call with nothing in between its two requests.  [o1], [now] belong
    to the select and [o2], [now'] to the update. *)
Definition serve (env : Env) (req : Request) (o1 : store_outcome)
    (now : timestamptz) (o2 : store_outcome) (now' : timestamptz)
    (db : database) : Response * database :=
  match phase_read env req o1 now db with
  | inl resp => (resp, db)
  | inr (supabase, pendingForms) =>
      phase_write supabase pendingForms o2 now' db
  end.

(** The rows a response hands to its caller. *)
Definition handed_out (resp : Response) : list form_submissions.row :=
  match body resp with
  | Some (json_success pendingForms _) => pendingForms
  | Some (json_failure _) | None => []
  end.

(** Calls one after another, each complete before the next starts. *)
Record call := mk_call {
  call_env : Env;
  call_req : Request;
  select_outcome : store_outcome;
  select_time : timestamptz;
  update_outcome : store_outcome;
  update_time : timestamptz
}.

Definition serve_call (k : call) (db : database) : Response * database :=
  serve (call_env k) (call_req k) (select_outcome k) (select_time k)
    (update_outcome k) (update_time k) db.

Fixpoint serve_all (ks : list call) (db : database)
    : list Response * database :=
  match ks with
  | [] => ([], db)
  | k :: ks' =>
      let '(resp, db1) := serve_call k db in
      let '(resps, db2) := serve_all ks' db1 in
      (resp :: resps, db2)
  end.

(** ** Calls that overlap

    The function awaits the store twice, so other calls can run between
    its select and its update.  A call is not started, between its two
    requests, or answered; an event lets one call make its next request. *)
Inductive handler :=
| accepted (env : Env) (req : Request)
| selected (supabase : SupabaseClient)
    (pendingForms : option (list form_submissions.row))
| responded (resp : Response).

Record world := mk_world {
  store : database;
  calls : list handler
}.

Inductive event :=
| reads (i : nat) (o : store_outcome) (now : timestamptz)
| writes (i : nat) (o : store_outcome) (now : timestamptz).

Definition step (w : world) (e : event) : world :=
  match e with
  | reads i o now =>
      match calls w !! i with
      | Some (accepted env req) =>
          let h :=
            match phase_read env req o now (store w) with
            | inl resp => responded resp
            | inr (supabase, pendingForms) => selected supabase pendingForms
            end in
          mk_world (store w) (<[i := h]> (calls w))
      | _ => w
      end
  | writes i o now =>
      match calls w !! i with
      | Some (selected supabase pendingForms) =>
          let '(resp, db') :=
            phase_write supabase pendingForms o now (store w) in
          mk_world db' (<[i := responded resp]> (calls w))
      | _ => w
      end
  end.

Definition run (es : list event) (w : world) : world :=
  foldl step w es.

(** The answered calls that handed out job [j], and their number: the
    number of times [j] has been given to a worker. *)
Definition hands_out (j : uuid) (h : handler) : Prop :=
  match h with
  | responded resp => j ∈ ids (handed_out resp)
  | accepted _ _ | selected _ _ => False
  end.

#[global] Instance hands_out_dec j h : Decision (hands_out j h).
Proof. destruct h; simpl; apply _. Defined.

Definition attempts (j : uuid) (w : world) : nat :=
  length (filter (hands_out j) (calls w)).

(** The status of job [j] in a table, if it has a row. *)
Definition status_of (j : uuid) (tbl : list form_submissions.row)
    : option status_t :=
  form_submissions.status <$>
    head (filter (λ r, form_submissions.id r = j) tbl).

(** ** The signup trigger *)

(** [NEW.raw_user_meta_data->>key] *)
Definition meta_text (NEW : auth_users.row) (key : string) : option string :=
  m ← auth_users.raw_user_meta_data NEW;
  f ← m !! key;
  match f with
  | json_null => None
  | json_string s => Some s
  | json_other text => Some text
  end.

Definition COALESCE (a : option string) (b : string) : string :=
  default b a.

(** The VALUES list of the trigger's INSERT; [email] is NOT NULL in
    profiles and nullable in auth.users. *)
Definition new_profile (NEW : auth_users.row) (now : timestamptz)
    : option profiles.row :=
  e ← auth_users.email NEW;
  Some (profiles.mk
          (auth_users.id NEW)
          e
          (COALESCE (meta_text NEW "full_name") "")
          (COALESCE (meta_text NEW "college") "Baker College")
          (COALESCE (meta_text NEW "year") "Freshman")
          (Some now) (Some now)).

(** [handle_new_user()], SECURITY DEFINER (so no policy applies):
    INSERT INTO public.profiles ...; RETURN NEW. *)
Definition handle_new_user (NEW : auth_users.row) (now : timestamptz)
    (db : database) : sql_result database :=
  match new_profile NEW now with
  | None => sql_error not_null_violation
  | Some r =>
      if decide (profiles.college_check r ∧ profiles.year_check r)
      then
        if decide (profiles.id r ∈ profile_ids db)
        then sql_error unique_violation
        else
          if decide (profiles.id r ∈ auth_users.id <$> users db)
          then sql_ok (mk_db (users db) (profile_rows db ++ [r])
                         (submissions db))
          else sql_error foreign_key_violation
      else sql_error check_violation
  end.

(** INSERT INTO auth.users with [on_auth_user_created] AFTER INSERT FOR
    EACH ROW: an error in the trigger undoes the insert. *)
Definition on_auth_user_created (NEW : auth_users.row) (now : timestamptz)
    (db : database) : sql_result database :=
  if decide (auth_users.id NEW ∈ auth_users.id <$> users db)
  then sql_error unique_violation
  else
    handle_new_user NEW now
      (mk_db (users db ++ [NEW]) (profile_rows db) (submissions db)).

(** The user [Auth.handleAuth] signs up: an email, a password and a
    redirect address, no metadata. *)
Definition signUp (id : uuid) (email : string) : auth_users.row :=
  auth_users.mk id (Some email) (Some ∅).

(** [profiles.id REFERENCES auth.users(id)] and the two primary keys. *)
Definition profiles_reference_users (db : database) : Prop :=
  profile_ids db ⊆ auth_users.id <$> users db.

(** ** Sample data *)

Definition env0 : Env :=
  mk_env (Some "https://project.supabase.co") (Some "service-role-key").

Definition GET : Request := mk_request "GET".
Definition OPTIONS : Request := mk_request "OPTIONS".

Definition job (id user : uuid) (at_ : timestamptz) (s : status_t)
    : form_submissions.row :=
  form_submissions.mk id user "https://docs.google.com/forms/d/e/1"
    at_ s None (Some 0) (Some 0).

Definition student (id : uuid) : profiles.row :=
  profiles.mk id (id +:+ "@rice.edu") "" "Baker College" "Freshman"
    (Some 0) (Some 0).

(** Two signed-up students, [alice] and [bob], and the given jobs. *)
Definition with_jobs (tbl : list form_submissions.row) : database :=
  mk_db [ signUp "alice" "alice@rice.edu"; signUp "bob" "bob@rice.edu" ]
    [ student "alice"; student "bob" ] tbl.

(** One pending job, due since time 5. *)
Definition one_due : database := with_jobs [ job "j1" "alice" 5 pending ].

(** Two pending jobs of two owners; the later-due one was stored first. *)
Definition two_due : database :=
  with_jobs [ job "j1" "alice" 5 pending; job "j2" "bob" 3 pending ].

(** Two calls that both read before either writes. *)
Definition two_calls : world :=
  mk_world one_due [ accepted env0 GET; accepted env0 GET ].

Definition both_read_then_write : list event :=
  [ reads 0 carried_out 10; reads 1 carried_out 10;
    writes 0 carried_out 11; writes 1 carried_out 12 ].

(** [{ status: 'completed' }], as the worker reports it. *)
Definition status_completed : form_submissions.payload :=
  form_submissions.mk_payload None None None None (Some completed)
    None None None.

(** Job j1 after the worker reported it completed. *)
Definition one_completed : database :=
  with_jobs [ job "j1" "alice" 5 completed ].

(** The client [createClient] builds from [env0]. *)
Definition service_client : SupabaseClient :=
  mk_client "https://project.supabase.co" service_role.

(** Job j1 after a call claimed it, with no worker report since. *)
Definition one_processing : database :=
  with_jobs [ job "j1" "alice" 5 processing ].

(** Job j1 as the worker's report at time 11 leaves it. *)
Definition one_reported : database :=
  with_jobs
    [ handle_updated_at 11
        (apply_payload status_completed (job "j1" "alice" 5 pending)) ].

(** [n] calls that all read before any of them writes. *)
Definition many_calls (n : nat) : world :=
  mk_world one_due (replicate n (accepted env0 GET)).

Definition all_read_then_write (n : nat) : list event :=
  ((λ i, reads i carried_out 10) <$> seq 0 n)
  ++ ((λ i, writes i carried_out 11) <$> seq 0 n).

(** Two calls a minute apart, every request carried out. *)
Definition two_in_a_row : list call :=
  [ mk_call env0 GET carried_out 10 carried_out 11;
    mk_call env0 GET carried_out 70 carried_out 71 ].

(** ** public.profiles: policies and statements

    Three policies, all on [auth.uid() = id]: SELECT, UPDATE and INSERT.
    There is none for DELETE, so only the service role deletes. *)

Record profile_payload := mk_profile_payload {
  pp_id : option uuid;
  pp_email : option string;
  pp_full_name : option string;
  pp_college : option string;
  pp_year : option string;
  pp_created_at : option (option timestamptz);
  pp_updated_at : option (option timestamptz)
}.

Definition apply_profile_payload (p : profile_payload) (r : profiles.row)
    : profiles.row :=
  profiles.mk
    (default (profiles.id r) (pp_id p))
    (default (profiles.email r) (pp_email p))
    (default (profiles.full_name r) (pp_full_name p))
    (default (profiles.college r) (pp_college p))
    (default (profiles.year r) (pp_year p))
    (default (profiles.created_at r) (pp_created_at p))
    (default (profiles.updated_at r) (pp_updated_at p)).

(** [set_updated_at_profiles]: the same trigger function, on profiles. *)
Definition profile_handle_updated_at (now : timestamptz) (NEW : profiles.row)
    : profiles.row :=
  profiles.mk (profiles.id NEW) (profiles.email NEW) (profiles.full_name NEW)
    (profiles.college NEW) (profiles.year NEW) (profiles.created_at NEW)
    (Some now).

Definition own_profile (c : credential) (r : profiles.row) : Prop :=
  auth_uid c = Some (profiles.id r).

Definition profile_rls_allows (c : credential) (r : profiles.row) : Prop :=
  c = service_role ∨ own_profile c r.

#[global] Instance profile_rls_allows_dec c r :
  Decision (profile_rls_allows c r).
Proof. unfold profile_rls_allows, own_profile. apply _. Defined.

#[global] Instance college_check_dec r : Decision (profiles.college_check r).
Proof. unfold profiles.college_check. apply _. Defined.

#[global] Instance year_check_dec r : Decision (profiles.year_check r).
Proof. unfold profiles.year_check. apply _. Defined.

Section ProfileStatements.

Context (c : credential).
Context (P : profiles.row → Prop) `{!∀ r, Decision (P r)}.

(** SELECT * FROM profiles WHERE P, through the SELECT policy. *)
Definition select_profiles (tbl : list profiles.row) : list profiles.row :=
  filter (λ r, profile_rls_allows c r ∧ P r) tbl.

Definition updated_profile (p : profile_payload) (now : timestamptz)
    (r : profiles.row) : profiles.row :=
  if decide (profile_rls_allows c r ∧ P r)
  then profile_handle_updated_at now (apply_profile_payload p r)
  else r.

(** UPDATE profiles SET p WHERE P.  The policy checks the new row as well;
    then come the two CHECK constraints; a payload that names id must
    keep the primary key, the reference to auth.users and the references
    from form_submissions (which have no ON UPDATE action). *)
Definition update_profiles (p : profile_payload) (now : timestamptz)
    (db : database) : sql_result database :=
  let tbl := profile_rows db in
  let tbl' := updated_profile p now <$> tbl in
  if decide (Forall (λ r, profile_rls_allows c r ∧ P r →
                          profile_rls_allows c (apply_profile_payload p r))
               tbl)
  then
    if decide (Forall (λ r, profile_rls_allows c r ∧ P r →
                 profiles.college_check (apply_profile_payload p r)
                 ∧ profiles.year_check (apply_profile_payload p r)) tbl)
    then
      if decide (pp_id p = None ∨ select_profiles tbl = []
                 ∨ NoDup (profiles.id <$> tbl'))
      then
        if decide (pp_id p = None ∨ select_profiles tbl = []
                   ∨ ((profiles.id <$> tbl') ⊆ (auth_users.id <$> users db)
                      ∧ Forall (λ s, form_submissions.user_id s
                                       ∈ profiles.id <$> tbl')
                          (submissions db)))
        then sql_ok (mk_db (users db) tbl' (submissions db))
        else sql_error foreign_key_violation
      else sql_error unique_violation
    else sql_error check_violation
  else sql_error rls_violation.

(** DELETE FROM profiles WHERE P: no policy admits it, so it reaches rows
    for the service role only; [form_submissions.user_id ... ON DELETE
    CASCADE] takes the submissions of a deleted profile along. *)
Definition delete_profiles (db : database) : database :=
  let gone := filter (λ r, c = service_role ∧ P r) (profile_rows db) in
  mk_db (users db)
    (filter (λ r, ¬ (c = service_role ∧ P r)) (profile_rows db))
    (filter (λ s, form_submissions.user_id s ∉ profiles.id <$> gone)
       (submissions db)).

End ProfileStatements.

(** DELETE FROM auth.users WHERE id = u: [profiles.id ... ON DELETE
    CASCADE] deletes the profile, which deletes the submissions. *)
Definition delete_auth_user (u : uuid) (db : database) : database :=
  mk_db
    (filter (λ r, auth_users.id r ≠ u) (users db))
    (filter (λ r, profiles.id r ≠ u) (profile_rows db))
    (filter (λ s, form_submissions.user_id s ≠ u) (submissions db)).

(** ** The browser client

    The pages share one client; it sends the session's token when there is
    a session and the anonymous key otherwise. *)
Definition Session := uuid.

Definition browser_client (session : option Session) : credential :=
  match session with
  | Some u => authenticated u
  | None => anon
  end.

(** What a request gives back to a page: the statement's result, or an
    [error].  The [error] object of a response is a plain object, not an
    [Error]. *)
Definition respond {A} (o : store_outcome) (result : sql_result A)
    : thrown + A :=
  match o with
  | store_fails e => inl e
  | carried_out =>
      match result with
      | sql_ok a => inr a
      | sql_error _ => inl not_an_Error
      end
  end.

(** [.single()]: the row when the select gives exactly one. *)
Definition single {A} (rows : list A) : option A :=
  match rows with
  | [r] => Some r
  | _ => None
  end.

(** [toast({ title, description, variant })] *)
Record Toast := mk_toast {
  title : string;
  description : option string;
  variant : option string
}.

(** [error instanceof Error ? error.message : fallback] *)
Definition message_or (fallback : string) (e : thrown) : string :=
  match e with
  | Error message => message
  | not_an_Error => fallback
  end.

(** What a handler leaves behind besides the database: the toast it
    shows and where it navigates. *)
Record Shown := mk_shown {
  toasted : option Toast;
  navigated : option string
}.

(** ** Dates in the pages

    A [Date] holds a time value, the milliseconds since 1 January 1970
    UTC, or is [Invalid Date].  The getters and setters the pages call
    work on local time; they follow the abstract operations of the
    language specification, whose names they keep.  The zone of the
    browser comes in as [LocalTZA], which the specification leaves to the
    implementation: [LocalTZA t true] is the offset at the UTC time [t],
    [LocalTZA t false] the offset a local time [t] is read with. *)

Definition msPerDay : Z := 86400000.
Definition msPerHour : Z := 3600000.
Definition msPerMinute : Z := 60000.
Definition msPerSecond : Z := 1000.

Definition leap_year (y : Z) : bool :=
  ((y mod 4 =? 0) && negb (y mod 100 =? 0)) || (y mod 400 =? 0).

Definition DaysInYear (y : Z) : Z := if leap_year y then 366 else 365.

Definition DaysInMonth (y m : Z) : Z :=
  if m =? 1 then (if leap_year y then 29 else 28)
  else if (m =? 3) || (m =? 5) || (m =? 8) || (m =? 10) then 30
  else 31.

(** Days from 1 January 1970 to 1 January of year [y]. *)
Definition DayFromYear (y : Z) : Z :=
  365 * (y - 1970) + (y - 1969) / 4 - (y - 1901) / 100 + (y - 1601) / 400.

Definition Day (t : Z) : Z := t / msPerDay.
Definition TimeWithinDay (t : Z) : Z := t mod msPerDay.

(** The largest [y] with [DayFromYear y ≤ Day t]: the mean length of a
    year gives it to within one. *)
Definition YearFromTime (t : Z) : Z :=
  let y := 1970 + 400 * Day t / 146097 in
  if Day t <? DayFromYear y then y - 1
  else if DayFromYear (y + 1) <=? Day t then y + 1
  else y.

Definition InLeapYear (t : Z) : Z :=
  if leap_year (YearFromTime t) then 1 else 0.

Definition DayWithinYear (t : Z) : Z := Day t - DayFromYear (YearFromTime t).

Definition MonthFromTime (t : Z) : Z :=
  let d := DayWithinYear t in
  let leap := InLeapYear t in
  if d <? 31 then 0
  else if d <? 59 + leap then 1
  else if d <? 90 + leap then 2
  else if d <? 120 + leap then 3
  else if d <? 151 + leap then 4
  else if d <? 181 + leap then 5
  else if d <? 212 + leap then 6
  else if d <? 243 + leap then 7
  else if d <? 273 + leap then 8
  else if d <? 304 + leap then 9
  else if d <? 334 + leap then 10
  else 11.

(** The day within the year on which month [m] starts. *)
Definition FirstDayOfMonth (leap m : Z) : Z :=
  if m =? 0 then 0
  else if m =? 1 then 31
  else if m =? 2 then 59 + leap
  else if m =? 3 then 90 + leap
  else if m =? 4 then 120 + leap
  else if m =? 5 then 151 + leap
  else if m =? 6 then 181 + leap
  else if m =? 7 then 212 + leap
  else if m =? 8 then 243 + leap
  else if m =? 9 then 273 + leap
  else if m =? 10 then 304 + leap
  else 334 + leap.

Definition DateFromTime (t : Z) : Z :=
  DayWithinYear t - FirstDayOfMonth (InLeapYear t) (MonthFromTime t) + 1.

Definition HourFromTime (t : Z) : Z := (t / msPerHour) mod 24.
Definition MinFromTime (t : Z) : Z := (t / msPerMinute) mod 60.
Definition SecFromTime (t : Z) : Z := (t / msPerSecond) mod 60.
Definition msFromTime (t : Z) : Z := t mod msPerSecond.

Definition MakeTime (hour min sec ms : Z) : Z :=
  hour * msPerHour + min * msPerMinute + sec * msPerSecond + ms.

(** The day number of the first of month [month mod 12] in year
    [year + month / 12], and [date - 1] days on; [date] may lie before
    the first or after the last day of the month. *)
Definition MakeDay (year month date : Z) : Z :=
  let ym := year + month / 12 in
  let mn := month mod 12 in
  DayFromYear ym + FirstDayOfMonth (if leap_year ym then 1 else 0) mn
  + date - 1.

Definition MakeDate (day time : Z) : Z := day * msPerDay + time.

Definition LocalTime (LocalTZA : Z → bool → Z) (t : Z) : Z :=
  t + LocalTZA t true.

Definition UTC (LocalTZA : Z → bool → Z) (t : Z) : Z :=
  t - LocalTZA t false.

Inductive Date :=
| Invalid_Date
| time_value (tv : Z).

(** A time more than 100 000 000 days from 1 January 1970 is no time
    value. *)
Definition TimeClip (time : Z) : Date :=
  if 8640000000000000 <? Z.abs time then Invalid_Date else time_value time.

(** The getters give NaN on an invalid date: [None]. *)
Definition getFullYear (LocalTZA : Z → bool → Z) (this : Date) : option Z :=
  match this with
  | Invalid_Date => None
  | time_value tv => Some (YearFromTime (LocalTime LocalTZA tv))
  end.

Definition getMonth (LocalTZA : Z → bool → Z) (this : Date) : option Z :=
  match this with
  | Invalid_Date => None
  | time_value tv => Some (MonthFromTime (LocalTime LocalTZA tv))
  end.

Definition getDate (LocalTZA : Z → bool → Z) (this : Date) : option Z :=
  match this with
  | Invalid_Date => None
  | time_value tv => Some (DateFromTime (LocalTime LocalTZA tv))
  end.

(** The setters with one argument; [None] is an argument that is not a
    number (NaN, [undefined]).  [setFullYear] takes an invalid date for
    the local time 0; the others leave it invalid. *)
Definition setFullYear (LocalTZA : Z → bool → Z) (this : Date)
    (year : option Z) : Date :=
  let t :=
    match this with
    | Invalid_Date => 0
    | time_value tv => LocalTime LocalTZA tv
    end in
  match year with
  | None => Invalid_Date
  | Some y =>
      TimeClip
        (UTC LocalTZA
           (MakeDate (MakeDay y (MonthFromTime t) (DateFromTime t))
              (TimeWithinDay t)))
  end.

Definition setMonth (LocalTZA : Z → bool → Z) (this : Date)
    (month : option Z) : Date :=
  match this, month with
  | time_value tv, Some m =>
      let t := LocalTime LocalTZA tv in
      TimeClip
        (UTC LocalTZA
           (MakeDate (MakeDay (YearFromTime t) m (DateFromTime t))
              (TimeWithinDay t)))
  | _, _ => Invalid_Date
  end.

Definition setDate (LocalTZA : Z → bool → Z) (this : Date)
    (date : option Z) : Date :=
  match this, date with
  | time_value tv, Some dt =>
      let t := LocalTime LocalTZA tv in
      TimeClip
        (UTC LocalTZA
           (MakeDate (MakeDay (YearFromTime t) (MonthFromTime t) dt)
              (TimeWithinDay t)))
  | _, _ => Invalid_Date
  end.

Definition setHours (LocalTZA : Z → bool → Z) (this : Date)
    (hour : option Z) : Date :=
  match this, hour with
  | time_value tv, Some h =>
      let t := LocalTime LocalTZA tv in
      TimeClip
        (UTC LocalTZA
           (MakeDate (Day t)
              (MakeTime h (MinFromTime t) (SecFromTime t) (msFromTime t))))
  | _, _ => Invalid_Date
  end.

Definition setMinutes (LocalTZA : Z → bool → Z) (this : Date)
    (min : option Z) : Date :=
  match this, min with
  | time_value tv, Some m =>
      let t := LocalTime LocalTZA tv in
      TimeClip
        (UTC LocalTZA
           (MakeDate (Day t)
              (MakeTime (HourFromTime t) m (SecFromTime t) (msFromTime t))))
  | _, _ => Invalid_Date
  end.

(** [toISOString()], as the timestamptz the store reads from it: the time
    value, whatever the zone.  An invalid date throws a RangeError, with
    the message of the engine. *)
Definition toISOString (RangeError_message : string) (this : Date)
    : thrown + timestamptz :=
  match this with
  | Invalid_Date => inl (Error RangeError_message)
  | time_value tv => inr (tv * 1000)
  end.

(** [format(date, formatStr)] of date-fns throws a RangeError on an
    invalid date; what it writes for a time value is left to [text]. *)
Definition format (text : Z → string → string) (date : Date)
    (formatStr : string) : thrown + string :=
  match date with
  | Invalid_Date => inl (Error "Invalid time value")
  | time_value tv => inr (text tv formatStr)
  end.

(** Year [y], month [m] (from 0) and day [d] name a day of the
    calendar. *)
Definition calendar_date (y m d : Z) : Prop :=
  0 ≤ m ≤ 11 ∧ 1 ≤ d ≤ DaysInMonth y m.

(** The local time [t] is one a [Date] can stand on: the zone does not
    skip it, and it lies within the range of time values. *)
Definition representable (LocalTZA : Z → bool → Z) (t : Z) : Prop :=
  Z.abs (UTC LocalTZA t) ≤ 8640000000000000
  ∧ LocalTime LocalTZA (UTC LocalTZA t) = t.

(** The zone of Houston through 2025: central standard time, and
    daylight time from 9 March, 02:00, to 2 November, 02:00.  A local
    time that the change skips or repeats is read with the offset from
    before the change. *)
Definition Houston_2025 (t : Z) (isUTC : bool) : Z :=
  let CST := -6 * msPerHour in
  let CDT := -5 * msPerHour in
  if isUTC
  then
    if (MakeDate (MakeDay 2025 2 9) (8 * msPerHour) <=? t)
       && (t <? MakeDate (MakeDay 2025 10 2) (7 * msPerHour))
    then CDT else CST
  else
    if (MakeDate (MakeDay 2025 2 9) (3 * msPerHour) <=? t)
       && (t <? MakeDate (MakeDay 2025 10 2) (2 * msPerHour))
    then CDT else CST.

(** ** src/pages/Onboarding *)
Module Onboarding.

Definition COLLEGES : list string :=
  [ "Baker College"; "Will Rice College"; "Hanszen College";
    "Wiess College"; "Jones College"; "Brown College"; "Lovett College";
    "Sid Richardson College"; "Martel College"; "McMurtry College";
    "Duncan College" ].

Definition YEARS : list string :=
  [ "Freshman"; "Sophomore"; "Junior"; "Senior" ].

(** [checkProfile]: where the page goes once it has looked at the
    session and the profile, [None] when it stays and shows its form. *)
Definition checkProfile (session : option Session) (o : store_outcome)
    (db : database) : option string :=
  match session with
  | None => Some "/auth"
  | Some u =>
      let profile :=
        match respond o
                (sql_ok (select_profiles (browser_client session)
                           (λ r, profiles.id r = u) (profile_rows db))) with
        | inr rows => single rows
        | inl _ => None
        end in
      match profile with
      | Some p =>
          if decide (profiles.full_name p ≠ "" ∧ profiles.college p ≠ ""
                     ∧ profiles.year p ≠ "")
          then Some "/dashboard"
          else None
      | None => None
      end
  end.

(** [{ full_name: fullName, college, year }] *)
Definition profile_update (fullName college year : string)
    : profile_payload :=
  mk_profile_payload None None (Some fullName) (Some college) (Some year)
    None None.

Definition handleSubmit (session : option Session)
    (fullName college year : string) (o : store_outcome)
    (now : timestamptz) (db : database) : Shown * database :=
  let error_toast e :=
    mk_shown
      (Some (mk_toast "Error"
               (Some (message_or "Failed to update profile" e))
               (Some "destructive")))
      None in
  match session with
  | None => (error_toast (Error "No session found"), db)
  | Some u =>
      match respond o
              (update_profiles (browser_client session)
                 (λ r, profiles.id r = u)
                 (profile_update fullName college year) now db) with
      | inl e => (error_toast e, db)
      | inr db' =>
          (mk_shown
             (Some (mk_toast "Profile completed!"
                      (Some "Welcome to SpotSave") None))
             (Some "/dashboard"),
           db')
      end
  end.

End Onboarding.

(** ** src/pages/Dashboard.tsx *)
Module Dashboard.

Record state := mk_state {
  formUrl : string;
  scheduledTime : option Date;
  submissions_shown : list form_submissions.row
}.

(** [checkAuth]: where the page goes, [None] when it stays, sets the
    profile and loads the submissions. *)
Definition checkAuth (session : option Session) (o : store_outcome)
    (db : database) : option string :=
  match session with
  | None => Some "/auth"
  | Some u =>
      let profileData :=
        match respond o
                (sql_ok (select_profiles (browser_client session)
                           (λ r, profiles.id r = u) (profile_rows db))) with
        | inr rows => single rows
        | inl _ => None
        end in
      match profileData with
      | Some p =>
          if decide (profiles.full_name p = "") then Some "/onboarding"
          else None
      | None => Some "/onboarding"
      end
  end.

(** [ORDER BY created_at DESC]: NULL first, then the latest. *)
Definition newest_first (a b : form_submissions.row) : Prop :=
  match form_submissions.created_at a, form_submissions.created_at b with
  | None, _ => True
  | Some _, None => False
  | Some x, Some y => y ≤ x
  end.

#[global] Instance newest_first_dec a b : Decision (newest_first a b).
Proof.
  unfold newest_first.
  destruct (form_submissions.created_at a),
           (form_submissions.created_at b); apply _.
Defined.

(** [loadSubmissions]: the list the page shows afterwards.  Rows with
    equal created_at come in the order the sort leaves them; the store
    promises none. *)
Definition loadSubmissions (session : option Session) (o : store_outcome)
    (db : database) (shown : list form_submissions.row)
    : list form_submissions.row :=
  match respond o
          (sql_ok (merge_sort newest_first
                     (select_rows (browser_client session) (λ _, True)
                        (submissions db)))) with
  | inr data => data
  | inl _ => shown
  end.

(** [{ user_id: session.user.id, form_url: formUrl, scheduled_time:
    scheduledTime.toISOString(), status: "pending" }] *)
Definition new_submission (u : uuid) (formUrl : string) (t : timestamptz)
    : form_submissions.payload :=
  form_submissions.mk_payload None (Some u) (Some formUrl) (Some t)
    (Some pending) None None None.

Definition error_toast (fallback : string) (e : thrown) : Shown :=
  mk_shown
    (Some (mk_toast "Error" (Some (message_or fallback e))
             (Some "destructive")))
    None.

(** [handleAddSubmission].  [o] and [o'] are the outcomes of the insert
    and of the reload, [gen_random_uuid] and [now] what the store draws
    for the new row, [clock] the time value of the [new Date()] of the
    reset and [RangeError_message] the text the engine gives the
    RangeError of [toISOString]. *)
Definition handleAddSubmission (st : state) (session : option Session)
    (RangeError_message : string) (o : store_outcome)
    (gen_random_uuid : uuid) (now : timestamptz) (o' : store_outcome)
    (clock : Z) (db : database) : state * Shown * database :=
  match decide (formUrl st = ""), scheduledTime st with
  | left _, _ | _, None =>
      (st,
       mk_shown
         (Some (mk_toast "Missing Information"
                  (Some "Please enter both form URL and schedule time")
                  (Some "destructive")))
         None,
       db)
  | right _, Some d =>
      match session with
      | None =>
          (st, error_toast "Failed to schedule form" (Error "No session"), db)
      | Some u =>
          match toISOString RangeError_message d with
          | inl e => (st, error_toast "Failed to schedule form" e, db)
          | inr t =>
              match respond o
                      (insert_row (browser_client session) (profile_ids db)
                         (new_submission u (formUrl st) t) gen_random_uuid
                         now (submissions db)) with
              | inl e => (st, error_toast "Failed to schedule form" e, db)
              | inr tbl =>
                  let db' := with_submissions db tbl in
                  (mk_state "" (Some (time_value clock))
                     (loadSubmissions session o' db' (submissions_shown st)),
                   mk_shown
                     (Some (mk_toast "Form scheduled!"
                              (Some "Your form will be filled automatically at the scheduled time.")
                              None))
                     None,
                   db')
              end
          end
      end
  end.

(** [handleDateSelect]; [clock] is the time value of [new Date()]. *)
Definition handleDateSelect (LocalTZA : Z → bool → Z) (st : state)
    (clock : Z) (day : option Date) : state :=
  match day with
  | None => st
  | Some day =>
      let newDateTime := default (time_value clock) (scheduledTime st) in
      let newDateTime :=
        setFullYear LocalTZA newDateTime (getFullYear LocalTZA day) in
      let newDateTime :=
        setMonth LocalTZA newDateTime (getMonth LocalTZA day) in
      let newDateTime :=
        setDate LocalTZA newDateTime (getDate LocalTZA day) in
      mk_state (formUrl st) (Some newDateTime) (submissions_shown st)
  end.

(** The [onChange] of the time input.  Its value is empty or [HH:mm];
    split at the colon and mapped through [Number], an empty value gives
    hours 0 and no minutes. *)
Definition timeInput_onChange (LocalTZA : Z → bool → Z) (st : state)
    (clock : Z) (value : option (Z * Z)) : state :=
  let hours := match value with Some (h, _) => Some h | None => Some 0 end in
  let minutes := match value with Some (_, m) => Some m | None => None end in
  let newDateTime := default (time_value clock) (scheduledTime st) in
  let newDateTime := setHours LocalTZA newDateTime hours in
  let newDateTime := setMinutes LocalTZA newDateTime minutes in
  mk_state (formUrl st) (Some newDateTime) (submissions_shown st).

(** What a render writes for the scheduled time: the label of the
    button that opens the calendar ([None] for "Pick a date and time")
    and the value of the time input.  An exception of [format] leaves the
    render. *)
Definition render (text : Z → string → string) (st : state)
    : thrown + option string * string :=
  match scheduledTime st with
  | None => inr (None, "00:00")
  | Some d =>
      match format text d "PPP 'at' p" with
      | inl e => inl e
      | inr label =>
          match format text d "HH:mm" with
          | inl e => inl e
          | inr value => inr (Some label, value)
          end
      end
  end.

(** [handleDelete]: the toast and the reload happen whenever the request
    comes back without an error. *)
Definition handleDelete (st : state) (session : option Session) (id : uuid)
    (o o' : store_outcome) (db : database) : state * Shown * database :=
  match respond o
          (sql_ok (delete_rows (browser_client session)
                     (λ r, form_submissions.id r = id) (submissions db))) with
  | inl _ => (st, mk_shown None None, db)
  | inr tbl =>
      let db' := with_submissions db tbl in
      (mk_state (formUrl st) (scheduledTime st)
         (loadSubmissions session o' db' (submissions_shown st)),
       mk_shown (Some (mk_toast "Submission deleted" None None)) None,
       db')
  end.

(** [s.split(' ')[0]] *)
Fixpoint first_word (s : string) : string :=
  match s with
  | EmptyString => EmptyString
  | String a s' =>
      if Ascii.eqb a " "%char then EmptyString else String a (first_word s')
  end.

(** [profile.full_name?.split(' ')[0] || "User"] *)
Definition firstName (full_name : string) : string :=
  match first_word full_name with
  | EmptyString => "User"
  | w => w
  end.

End Dashboard.

(** ** src/pages/Index.tsx *)
Module Index.

(** [handleScheduleForm] of the scheduling form on the landing page. *)
Definition handleScheduleForm (session : option Session) (formUrl : string)
    (scheduledTime : option Date) (RangeError_message : string)
    (o : store_outcome) (gen_random_uuid : uuid) (now : timestamptz)
    (db : database) : Shown * database :=
  let failed :=
    mk_shown
      (Some (mk_toast "Error"
               (Some "Failed to schedule form. Please try again.")
               (Some "destructive")))
      None in
  match decide (formUrl = ""), scheduledTime with
  | left _, _ | _, None =>
      (mk_shown
         (Some (mk_toast "Missing Information"
                  (Some "Please enter both form URL and schedule time")
                  (Some "destructive")))
         None,
       db)
  | right _, Some d =>
      match session with
      | None => (mk_shown None (Some "/auth"), db)
      | Some u =>
          match toISOString RangeError_message d with
          | inl _ => (failed, db)
          | inr t =>
              match respond o
                      (insert_row (browser_client session) (profile_ids db)
                         (Dashboard.new_submission u formUrl t)
                         gen_random_uuid now (submissions db)) with
              | inl _ => (failed, db)
              | inr tbl =>
                  (mk_shown
                     (Some (mk_toast "Form Scheduled!"
                              (Some "Your form has been scheduled successfully")
                              None))
                     (Some "/dashboard"),
                   with_submissions db tbl)
              end
          end
      end
  end.

End Index.

(** ** src/pages/Auth *)
Module Auth.

(** [String.prototype.endsWith]: the last [length searchString]
    characters, when there are that many, are [searchString]. *)
Definition endsWith (s searchString : string) : bool :=
  if (String.length searchString <=? String.length s)%nat
  then String.eqb
         (String.substring
            (String.length s - String.length searchString)
            (String.length searchString) s)
         searchString
  else false.

(** A request to the auth service. *)
Inductive auth_request :=
| signInWithPassword (email password : string)
| signUp_request (email password emailRedirectTo : string).

Section emailSchema.

(** [z.string().email()]: the check the library makes and the message of
    its issue. *)
Context (is_email : string → bool) (invalid_email : string).

(** The messages of the issues of [emailSchema.parse(email)], in order;
    the refinement runs whether or not the email check passed. *)
Definition emailSchema_issues (email : string) : list string :=
  (if is_email email then [] else [invalid_email])
  ++ (if endsWith email "@rice.edu" then []
      else ["Email must end with @rice.edu"]).

(** [handleAuth]: the request it sends, if any, and the toast it shows,
    if any.  [origin] is [window.location.origin]; [auth_error] is the
    [error] of the auth service's answer. *)
Definition handleAuth (isLogin : bool) (email password origin : string)
    (auth_error : option thrown) : option auth_request * option Toast :=
  match emailSchema_issues email with
  | message :: _ =>
      (None,
       Some (mk_toast "Invalid email" (Some message) (Some "destructive")))
  | [] =>
      let request :=
        if isLogin then signInWithPassword email password
        else signUp_request email password (origin +:+ "/onboarding") in
      (Some request,
       match auth_error with
       | Some (Error message) =>
           Some (mk_toast "Authentication error" (Some message)
                   (Some "destructive"))
       | Some not_an_Error => None
       | None =>
           Some (if isLogin
                 then mk_toast "Welcome back!"
                        (Some "You've successfully logged in.") None
                 else mk_toast "Account created!"
                        (Some "Please complete your profile.") None)
       end)
  end.

End emailSchema.

End Auth.

(** ** scheduler.py of the integration guide: one round of the worker *)
Module scheduler.

(** A call either returns or raises an exception with a message. *)
Inductive py_outcome :=
| returns
| raises (message : string).

(** What happens around one form: the filling, the report of success and
    the report of failure. *)
Record form_run := mk_form_run {
  fill_google_form : py_outcome;
  post_completed : py_outcome;
  post_failed : py_outcome
}.

(** What the worker does, in order.  A POST that raises is listed too:
    it may have reached the endpoint. *)
Inductive action :=
| fills (form : form_submissions.row)
| posts (formId : uuid) (status : status_t) (errorMessage : option string).

(** The body of the [for] loop for one form. *)
Definition process_form (form : form_submissions.row) (run : form_run)
    : list action * py_outcome :=
  let report_failed e :=
    ([ posts (form_submissions.id form) failed (Some e) ], post_failed run) in
  match fill_google_form run with
  | raises e =>
      let '(reported, out) := report_failed e in
      (fills form :: reported, out)
  | returns =>
      match post_completed run with
      | returns =>
          ([ fills form; posts (form_submissions.id form) completed None ],
           returns)
      | raises e =>
          let '(reported, out) := report_failed e in
          (fills form :: posts (form_submissions.id form) completed None
             :: reported,
           out)
      end
  end.

(** The [for] loop: an exception that leaves the body ends the loop. *)
Fixpoint process_forms (forms : list form_submissions.row)
    (run : form_submissions.row → form_run) : list action * py_outcome :=
  match forms with
  | [] => ([], returns)
  | form :: forms' =>
      match process_form form (run form) with
      | (done, returns) =>
          let '(rest, out) := process_forms forms' run in
          (done ++ rest, out)
      | (done, raises e) => (done, raises e)
      end
  end.

(** [check_and_process_forms()], given the answer to its GET. *)
Definition check_and_process_forms (response : Response)
    (run : form_submissions.row → form_run) : list action * py_outcome :=
  match body response with
  | None => ([], raises "Expecting value: line 1 column 1 (char 0)")
  | Some (json_failure _) => ([], returns)
  | Some (json_success pendingForms _) => process_forms pendingForms run
  end.

(** The forms an action is about. *)
Definition about (a : action) : uuid :=
  match a with
  | fills form => form_submissions.id form
  | posts formId _ _ => formId
  end.

End scheduler.

(** ** The constraints of the schema, as a property of a database

    The three primary keys, the two references and the two CHECK
    constraints of profiles (NOT NULL and the status CHECK are in the
    types). *)
Record well_formed (db : database) : Prop := mk_well_formed {
  users_pkey : NoDup (auth_users.id <$> users db);
  profiles_pkey : NoDup (profile_ids db);
  profiles_id_fkey : profile_ids db ⊆ auth_users.id <$> users db;
  profiles_checks :
    Forall (λ r, profiles.college_check r ∧ profiles.year_check r)
      (profile_rows db);
  form_submissions_pkey : NoDup (ids (submissions db));
  form_submissions_user_id_fkey :
    Forall (λ s, form_submissions.user_id s ∈ profile_ids db)
      (submissions db)
}.

(** A call that gets through: not a preflight, the environment set, both
    requests carried out. *)
Definition gets_through (k : call) : Prop :=
  method (call_req k) ≠ "OPTIONS"
  ∧ (∃ supabase,
       createClient (SUPABASE_URL (call_env k))
         (SUPABASE_SERVICE_ROLE_KEY (call_env k)) = inr supabase)
  ∧ select_outcome k = carried_out
  ∧ update_outcome k = carried_out.


(** ** Relations the statements use *)

(** All a claim can do to a row: set status to processing and stamp
    updated_at. *)
Definition claim_only (r r' : form_submissions.row) : Prop :=
  r' = r ∨ ∃ now, r' = claimed_row now r.

(** Oldest-due first. *)
Definition oldest_due_first (rows : list form_submissions.row) : Prop :=
  ∀ i k a b, (i < k)%nat → rows !! i = Some a → rows !! k = Some b →
    form_submissions.scheduled_time a ≤ form_submissions.scheduled_time b.

(** No row of job [j] is pending. *)
Definition not_pending (j : uuid) (tbl : list form_submissions.row) : Prop :=
  ∀ r, r ∈ tbl → form_submissions.id r = j →
    form_submissions.status r ≠ pending.

(** Every row of job [j] is completed or failed. *)
Definition terminal (j : uuid) (tbl : list form_submissions.row) : Prop :=
  ∀ r, r ∈ tbl → form_submissions.id r = j →
    form_submissions.status r = completed ∨ form_submissions.status r = failed.

(** A step turned job [j] from pending to processing. *)
Definition claims_now (j : uuid) (w w' : world) : Prop :=
  status_of j (submissions (store w)) = Some pending
  ∧ status_of j (submissions (store w')) = Some processing.

#[global] Instance claims_now_dec j w w' : Decision (claims_now j w w').
Proof. unfold claims_now. apply _. Defined.

(** The number of steps of a run that turn job [j] from pending to
    processing. *)
Fixpoint times_claimed (j : uuid) (es : list event) (w : world) : nat :=
  match es with
  | [] => 0
  | e :: es' =>
      ((if decide (claims_now j w (step w e)) then 1 else 0)
       + times_claimed j es' (step w e))%nat
  end.

(** The number of responses that hand out job [j]. *)
Definition times_handed_out (j : uuid) (resps : list Response) : nat :=
  length (filter (λ resp, j ∈ ids (handed_out resp)) resps).

(** ** Facts about the statements *)

Lemma rls_allows_service r : rls_allows service_role r.
Proof. by left. Qed.

Lemma rls_allows_authenticated u r :
  rls_allows (authenticated u) r ↔ form_submissions.user_id r = u.
Proof.
  unfold rls_allows, own_submission; simpl. split.
  - intros [H | H]; [discriminate | by injection H].
  - intros ->. by right.
Qed.

Lemma rls_allows_anon r : ¬ rls_allows anon r.
Proof. intros [H | H]; discriminate. Qed.

Lemma select_rows_service (P : form_submissions.row → Prop)
    `{!∀ r, Decision (P r)} tbl :
  select_rows service_role P tbl = filter P tbl.
Proof.
  unfold select_rows. apply list_filter_iff. intros r.
  pose proof (rls_allows_service r). tauto.
Qed.

Lemma elem_of_due_rows now db r :
  r ∈ due_rows now db ↔
  r ∈ submissions db ∧ form_submissions.status r = pending
  ∧ form_submissions.scheduled_time r ≤ now.
Proof.
  unfold due_rows. rewrite select_rows_service, list_elem_of_filter.
  unfold due. tauto.
Qed.

(** The payload of the claim leaves every column but status alone. *)
Lemma apply_status_processing r :
  apply_payload status_processing r =
  form_submissions.mk (form_submissions.id r) (form_submissions.user_id r)
    (form_submissions.form_url r) (form_submissions.scheduled_time r)
    processing (form_submissions.error_message r)
    (form_submissions.created_at r) (form_submissions.updated_at r).
Proof. reflexivity. Qed.

Lemma claimed_row_eq now r :
  claimed_row now r =
  form_submissions.mk (form_submissions.id r) (form_submissions.user_id r)
    (form_submissions.form_url r) (form_submissions.scheduled_time r)
    processing (form_submissions.error_message r)
    (form_submissions.created_at r) (Some now).
Proof. reflexivity. Qed.

(** The claim's update never fails a constraint, whoever sends it. *)
Lemma update_rows_status_processing c (P : form_submissions.row → Prop)
    `{!∀ r, Decision (P r)} pids now tbl :
  update_rows c P pids status_processing now tbl =
  sql_ok (updated_row c P status_processing now <$> tbl).
Proof.
  unfold update_rows.
  rewrite decide_True; last first.
  { apply Forall_forall. intros r _ [Hr _].
    destruct Hr as [-> | Hr]; [by left | by right]. }
  rewrite decide_True by (by left).
  rewrite decide_True; [done | by right].
Qed.

Lemma update_processing_carried_out supabase formIds now db :
  update_processing supabase carried_out formIds now db =
  with_submissions db
    (updated_row (client_credential supabase) (id_in formIds)
       status_processing now <$> submissions db).
Proof.
  unfold update_processing. by rewrite update_rows_status_processing.
Qed.

Lemma update_processing_fails supabase e formIds now db :
  update_processing supabase (store_fails e) formIds now db = db.
Proof. reflexivity. Qed.

(** ** What a claim does to the table *)

Arguments phase_read : simpl never.
Arguments phase_write : simpl never.
Arguments update_processing : simpl never.


Lemma claim_only_refl r : claim_only r r.
Proof. by left. Qed.

Lemma claim_only_trans r1 r2 r3 :
  claim_only r1 r2 → claim_only r2 r3 → claim_only r1 r3.
Proof.
  intros [-> | [n ->]] [-> | [n' ->]]; try (by left); right.
  - by exists n'.
  - by exists n.
  - by exists n'.
Qed.

Lemma claim_only_columns r r' :
  claim_only r r' →
  form_submissions.id r' = form_submissions.id r
  ∧ form_submissions.user_id r' = form_submissions.user_id r
  ∧ form_submissions.form_url r' = form_submissions.form_url r
  ∧ form_submissions.scheduled_time r' = form_submissions.scheduled_time r
  ∧ form_submissions.error_message r' = form_submissions.error_message r
  ∧ form_submissions.created_at r' = form_submissions.created_at r
  ∧ (form_submissions.status r' = form_submissions.status r
     ∨ form_submissions.status r' = processing).
Proof. intros [-> | [n ->]]; simpl; tauto. Qed.

Lemma claim_only_processing r r' :
  claim_only r r' → form_submissions.status r = processing →
  form_submissions.status r' = processing.
Proof. by intros [-> | [n ->]]. Qed.

Lemma Forall2_claim_only_refl tbl : Forall2 claim_only tbl tbl.
Proof. induction tbl; constructor; auto using claim_only_refl. Qed.

Lemma Forall2_claim_only_trans t1 t2 t3 :
  Forall2 claim_only t1 t2 → Forall2 claim_only t2 t3 →
  Forall2 claim_only t1 t3.
Proof.
  intros H12. revert t3.
  induction H12; intros t3 H23; inversion H23; subst; constructor;
    eauto using claim_only_trans.
Qed.

Lemma updated_row_claim_only c (P : form_submissions.row → Prop)
    `{!∀ r, Decision (P r)} now r :
  claim_only r (updated_row c P status_processing now r).
Proof.
  unfold updated_row. case_decide; [right; by exists now | by left].
Qed.

Lemma update_processing_claim_only supabase o formIds now db :
  Forall2 claim_only (submissions db)
    (submissions (update_processing supabase o formIds now db)).
Proof.
  destruct o as [| e]; [| apply Forall2_claim_only_refl].
  rewrite update_processing_carried_out. simpl.
  apply Forall2_fmap_r, Forall_Forall2_diag, Forall_forall.
  intros r _. apply updated_row_claim_only.
Qed.

Lemma phase_write_claim_only supabase pendingForms o now db :
  Forall2 claim_only (submissions db)
    (submissions (phase_write supabase pendingForms o now db).2).
Proof.
  unfold phase_write; cbn [snd].
  destruct pendingForms as [[| f fs] |];
    auto using Forall2_claim_only_refl, update_processing_claim_only.
Qed.

Lemma step_claim_only w e :
  Forall2 claim_only (submissions (store w)) (submissions (store (step w e))).
Proof.
  destruct e as [i o now | i o now]; unfold step.
  - destruct (calls w !! i) as [[env req | |] |];
      apply Forall2_claim_only_refl.
  - destruct (calls w !! i) as [[| supabase pf |] |];
      try apply Forall2_claim_only_refl.
    pose proof (phase_write_claim_only supabase pf o now (store w)) as H.
    destruct (phase_write supabase pf o now (store w)) as [resp db'].
    exact H.
Qed.

Lemma run_claim_only es w :
  Forall2 claim_only (submissions (store w))
    (submissions (store (run es w))).
Proof.
  revert w. induction es as [| e es IH]; intros w; simpl.
  - apply Forall2_claim_only_refl.
  - eapply Forall2_claim_only_trans; [apply step_claim_only | apply IH].
Qed.

Lemma status_of_claim_only j t t' :
  Forall2 claim_only t t' →
  status_of j t = Some processing → status_of j t' = Some processing.
Proof.
  unfold status_of. induction 1 as [| r r' t t' Hr Ht IH]; [done |].
  destruct (claim_only_columns _ _ Hr) as (Hid & _).
  rewrite !filter_cons, Hid.
  case_decide; [| exact IH]. simpl.
  intros [= Hs]. f_equal. by eapply claim_only_processing.
Qed.

(** ** The first half of a call *)

Lemma createClient_inr url key supabase :
  createClient url key = inr supabase →
  client_credential supabase = service_role.
Proof.
  unfold createClient.
  destruct url as [[| a u] |]; try discriminate;
    destruct key as [[| b k] |]; try discriminate.
  by intros [= <-].
Qed.

Lemma try_read_inr env o now db supabase pendingForms :
  try_read env o now db = inr (supabase, pendingForms) →
  createClient (SUPABASE_URL env) (SUPABASE_SERVICE_ROLE_KEY env)
    = inr supabase
  ∧ o = carried_out
  ∧ pendingForms = Some (due_rows now db).
Proof.
  unfold try_read.
  destruct (createClient _ _) as [e | cl] eqn:Hc; [discriminate |].
  pose proof (createClient_inr _ _ _ Hc) as Hcred.
  destruct o as [| e]; simpl; [| discriminate].
  intros [= <- <-]. unfold due_rows. by rewrite Hcred.
Qed.

Lemma try_read_carried_out env now db supabase :
  createClient (SUPABASE_URL env) (SUPABASE_SERVICE_ROLE_KEY env)
    = inr supabase →
  try_read env carried_out now db = inr (supabase, Some (due_rows now db)).
Proof.
  intros Hc. unfold try_read. rewrite Hc. simpl.
  unfold due_rows. by rewrite (createClient_inr _ _ _ Hc).
Qed.

Lemma phase_read_inr env req o now db read :
  phase_read env req o now db = inr read →
  method req ≠ "OPTIONS" ∧ try_read env o now db = inr read.
Proof.
  unfold phase_read. case_decide; [discriminate |].
  destruct (try_read env o now db); [discriminate |].
  by intros [= <-].
Qed.

Lemma phase_read_not_preflight env req o now db :
  method req ≠ "OPTIONS" →
  phase_read env req o now db =
  match try_read env o now db with
  | inl e => inl (catch e)
  | inr read => inr read
  end.
Proof. intros H. unfold phase_read. by rewrite decide_False. Qed.

(** What is thrown inside the [try] is what the [catch] block answers. *)
Lemma thrown_in_caught env req o now db e :
  thrown_in env req o now db = Some e →
  phase_read env req o now db = inl (catch e).
Proof.
  unfold thrown_in, phase_read. case_decide; [discriminate |].
  destruct (try_read env o now db); [| discriminate]. by intros [= ->].
Qed.

(** ** C2: the due-jobs query *)

(** C2, as the code has it.  The select of the claim cycle returns exactly
    the rows that are pending and whose scheduled_time is at most now:
    none that is due later, and every eligible one.  It asks for no
    order: the rows come as the table is scanned, each at most as often
    as the table holds it.  This is the list a call goes on with. *)
Theorem due_rows_exact now db :
  (∀ r, r ∈ due_rows now db ↔
        r ∈ submissions db ∧ form_submissions.status r = pending
        ∧ form_submissions.scheduled_time r ≤ now)
  ∧ due_rows now db `sublist_of` submissions db
  ∧ (∀ env req o read,
       phase_read env req o now db = inr read →
       read.2 = Some (due_rows now db)).
Proof.
  split; [apply elem_of_due_rows |]. split.
  - unfold due_rows, select_rows. apply sublist_filter.
  - intros env req o [supabase pf] H.
    apply phase_read_inr in H as [_ H].
    by apply try_read_inr in H as (_ & _ & ->).
Qed.

(** C2 fails as stated: with a job due at 5 stored before a job due at 3,
    the select at time 10 returns both, the later-due one first. *)
Lemma due_rows_unordered :
  due_rows 10 two_due
    = [ job "j1" "alice" 5 pending; job "j2" "bob" 3 pending ]
  ∧ ¬ oldest_due_first (due_rows 10 two_due).
Proof.
  split; [by vm_compute |].
  intros H. specialize (H 0%nat 1%nat _ _ ltac:(lia) eq_refl eq_refl).
  vm_compute in H. by apply H.
Qed.

(** ** The second half of a call, and whole calls *)

Lemma updated_row_id_in c formIds now r :
  updated_row c (id_in formIds) status_processing now r =
  if decide (rls_allows c r ∧ form_submissions.id r ∈ formIds)
  then claimed_row now r else r.
Proof. reflexivity. Qed.

Lemma phase_write_response supabase pendingForms o now db :
  (phase_write supabase pendingForms o now db).1 =
  mk_Response
    (Some (json_success (default [] pendingForms)
             (default 0%nat (length <$> pendingForms))))
    json_headers 200.
Proof. reflexivity. Qed.

Lemma phase_write_submissions supabase pf now db :
  submissions (phase_write supabase (Some pf) carried_out now db).2 =
  updated_row (client_credential supabase) (id_in (ids pf))
    status_processing now <$> submissions db.
Proof.
  unfold phase_write; cbn [snd]. destruct pf as [| f fs].
  - rewrite <- (list_fmap_id (submissions db)) at 1.
    apply list_fmap_ext. intros i r _. rewrite updated_row_id_in.
    rewrite decide_False; [done |]. intros [_ H]. by apply elem_of_nil in H.
  - by rewrite update_processing_carried_out.
Qed.

Lemma phase_write_untouched supabase pendingForms o now db r :
  r ∈ submissions db →
  form_submissions.id r ∉ ids (default [] pendingForms) →
  r ∈ submissions (phase_write supabase pendingForms o now db).2.
Proof.
  intros Hr Hid. unfold phase_write; cbn [snd].
  destruct pendingForms as [[| f fs] |]; try done.
  destruct o as [| e]; [| done].
  rewrite update_processing_carried_out; simpl.
  apply list_elem_of_fmap. exists r. split; [| done].
  rewrite updated_row_id_in, decide_False; [done |]. by intros [_ H].
Qed.

Lemma serve_not_preflight env req o1 now o2 now' db :
  method req ≠ "OPTIONS" →
  serve env req o1 now o2 now' db =
  match try_read env o1 now db with
  | inl e => (catch e, db)
  | inr (supabase, pendingForms) =>
      phase_write supabase pendingForms o2 now' db
  end.
Proof.
  intros H. unfold serve. rewrite phase_read_not_preflight by done.
  by destruct (try_read env o1 now db) as [e | [supabase pf]].
Qed.

Lemma serve_carried_out env req now o2 now' db supabase :
  method req ≠ "OPTIONS" →
  createClient (SUPABASE_URL env) (SUPABASE_SERVICE_ROLE_KEY env)
    = inr supabase →
  serve env req carried_out now o2 now' db
  = phase_write supabase (Some (due_rows now db)) o2 now' db.
Proof.
  intros Hm Hc. rewrite serve_not_preflight by done.
  by rewrite (try_read_carried_out _ _ _ _ Hc).
Qed.

Lemma serve_call_gets_through k db :
  gets_through k →
  ∃ supabase,
    client_credential supabase = service_role
    ∧ serve_call k db
      = phase_write supabase (Some (due_rows (select_time k) db)) carried_out
          (update_time k) db.
Proof.
  intros (Hm & [supabase Hc] & Ho1 & Ho2).
  exists supabase. split; [by eapply createClient_inr |].
  unfold serve_call. rewrite Ho1, Ho2. by apply serve_carried_out.
Qed.

Lemma serve_claim_only env req o1 now o2 now' db :
  Forall2 claim_only (submissions db)
    (submissions (serve env req o1 now o2 now' db).2).
Proof.
  unfold serve.
  destruct (phase_read env req o1 now db) as [resp | [supabase pf]];
    [apply Forall2_claim_only_refl | apply phase_write_claim_only].
Qed.

(** A call hands out the due rows it read, or nothing. *)
Lemma serve_handed_out env req o1 now o2 now' db :
  handed_out (serve env req o1 now o2 now' db).1 = due_rows now db
  ∨ handed_out (serve env req o1 now o2 now' db).1 = [].
Proof.
  unfold serve.
  destruct (phase_read env req o1 now db) as [resp | [supabase pf]] eqn:H.
  - right. unfold phase_read in H. case_decide; [by injection H as <- |].
    destruct (try_read env o1 now db) as [e |]; [| discriminate].
    by injection H as <-.
  - left. apply phase_read_inr in H as [_ H].
    by apply try_read_inr in H as (_ & _ & ->).
Qed.

Lemma not_pending_not_due j now db :
  not_pending j (submissions db) → j ∉ ids (due_rows now db).
Proof.
  intros Hnp Hin. apply list_elem_of_fmap in Hin as (r & -> & Hr).
  apply elem_of_due_rows in Hr as (Hr & Hs & _). by eapply Hnp.
Qed.

Lemma not_pending_claim_only j t t' :
  Forall2 claim_only t t' → not_pending j t → not_pending j t'.
Proof.
  intros H Hnp r' Hr' Hid.
  apply list_elem_of_lookup in Hr' as [i Hi].
  destruct (Forall2_lookup_r _ _ _ _ _ H Hi) as (r & Hr & Hc).
  destruct (claim_only_columns _ _ Hc) as (Hid' & _ & _ & _ & _ & _ & Hs).
  destruct Hs as [Hs | Hs]; rewrite Hs; [| done].
  apply Hnp; [by eapply list_elem_of_lookup_2 | congruence].
Qed.

(** Once a call has handed out [j] and its update was carried out, no
    row of [j] is pending. *)
Lemma serve_claims env req o1 now now' db j :
  j ∈ ids (handed_out (serve env req o1 now carried_out now' db).1) →
  not_pending j (submissions (serve env req o1 now carried_out now' db).2).
Proof.
  unfold serve.
  destruct (phase_read env req o1 now db) as [resp | [supabase pf]] eqn:H.
  - unfold phase_read in H. case_decide.
    + injection H as <-. intros Hin. by apply elem_of_nil in Hin.
    + destruct (try_read env o1 now db) as [e |]; [| discriminate].
      injection H as <-. intros Hin. by apply elem_of_nil in Hin.
  - apply phase_read_inr in H as [_ H].
    apply try_read_inr in H as (Hc & _ & ->).
    apply createClient_inr in Hc.
    rewrite phase_write_response, phase_write_submissions, Hc.
    unfold handed_out; simpl. intros Hin r' Hr' Hid.
    apply list_elem_of_fmap in Hr' as (r & -> & Hr).
    rewrite updated_row_id_in in Hid |- *.
    rewrite decide_True; [done |].
    split; [apply rls_allows_service |].
    case_decide as Hd; [by destruct Hd |]. by rewrite Hid.
Qed.

Lemma serve_all_not_pending ks : ∀ db j,
  not_pending j (submissions db) →
  times_handed_out j (serve_all ks db).1 = 0%nat.
Proof.
  induction ks as [| k ks IH]; intros db j Hnp; [done |].
  simpl. unfold serve_call.
  pose proof (serve_handed_out (call_env k) (call_req k) (select_outcome k)
                (select_time k) (update_outcome k) (update_time k) db) as Hh.
  pose proof (serve_claim_only (call_env k) (call_req k) (select_outcome k)
                (select_time k) (update_outcome k) (update_time k) db) as Hc.
  destruct (serve _ _ _ _ _ _ db) as [resp db1]; simpl in *.
  specialize (IH db1 j (not_pending_claim_only _ _ _ Hc Hnp)).
  destruct (serve_all ks db1) as [resps db2]; simpl in *.
  unfold times_handed_out in *. rewrite filter_cons_False; [done |].
  destruct Hh as [-> | ->]; [by apply not_pending_not_due |].
  intros Hin. by apply elem_of_nil in Hin.
Qed.

(** ** C1: who claims a job *)

Lemma times_claimed_processing j es : ∀ w,
  status_of j (submissions (store w)) = Some processing →
  times_claimed j es w = 0%nat.
Proof.
  induction es as [| e es IH]; intros w Hp; [done |].
  cbn [times_claimed]. rewrite decide_False.
  - apply IH. by eapply status_of_claim_only; [apply step_claim_only |].
  - intros [Hpending _]. congruence.
Qed.

(** C1, as the code has it.  The claim is an update by id alone: it sets
    every row whose id is among those read to processing, whatever the
    row's status is at update time.  The second half of a call hands out
    the rows the call read, whatever the store holds then and whether or
    not the update is carried out.  Under every interleaving a job goes
    from pending to processing at most once.  When calls run one after
    another and their updates are carried out, at most one of them hands
    out a given job; a job that is pending and due when a call that gets
    through reads is handed out by that call and by none after it. *)
Theorem claim_by_id_once_in_sequence :
  (∀ supabase formIds now db r,
     client_credential supabase = service_role →
     r ∈ submissions db → form_submissions.id r ∈ formIds →
     claimed_row now r
       ∈ submissions (update_processing supabase carried_out formIds now db))
  ∧ (∀ supabase pendingForms o now db,
       handed_out (phase_write supabase (Some pendingForms) o now db).1
       = pendingForms)
  ∧ (∀ es w j, (times_claimed j es w ≤ 1)%nat)
  ∧ (∀ ks db j,
       Forall (λ k, update_outcome k = carried_out) ks →
       (times_handed_out j (serve_all ks db).1 ≤ 1)%nat)
  ∧ (∀ k ks db r,
       gets_through k →
       r ∈ submissions db → due (select_time k) r →
       r ∈ handed_out (serve_call k db).1
       ∧ times_handed_out (form_submissions.id r)
           (serve_all ks (serve_call k db).2).1
         = 0%nat
       ∧ times_handed_out (form_submissions.id r)
           (serve_all (k :: ks) db).1
         = 1%nat).
Proof.
  split; [| split; [| split; [| split]]].
  - intros supabase formIds now db r Hc Hr Hid.
    rewrite update_processing_carried_out, Hc. simpl.
    apply list_elem_of_fmap. exists r. split; [| done].
    rewrite updated_row_id_in, decide_True; [done |].
    split; [apply rls_allows_service | done].
  - intros supabase pendingForms o now db. by rewrite phase_write_response.
  - intros es. induction es as [| e es IH]; intros w j; [cbn; lia |].
    cbn [times_claimed]. case_decide as Hclaim; [| apply IH].
    destruct Hclaim as [_ Hp].
    rewrite (times_claimed_processing j es (step w e) Hp). lia.
  - intros ks. induction ks as [| k ks IH]; intros db j Hok;
      [unfold times_handed_out; simpl; lia |].
    apply Forall_cons in Hok as [Hk Hks].
    simpl. unfold serve_call. rewrite Hk.
    pose proof (serve_claims (call_env k) (call_req k) (select_outcome k)
                  (select_time k) (update_time k) db j) as Hcl.
    destruct (serve _ _ _ _ _ _ db) as [resp db1]; simpl in *.
    specialize (IH db1 j Hks).
    pose proof (serve_all_not_pending ks db1 j) as Hz.
    destruct (serve_all ks db1) as [resps db2]; simpl in *.
    unfold times_handed_out in *. rewrite filter_cons.
    case_decide as Hd; [| exact IH].
    simpl. rewrite (Hz (Hcl Hd)). lia.
  - intros k ks db r Hk Hr Hdue.
    destruct (serve_call_gets_through k db Hk) as (supabase & _ & Hserve).
    pose proof (serve_claims (call_env k) (call_req k) (select_outcome k)
                  (select_time k) (update_time k) db (form_submissions.id r))
      as Hcl.
    destruct Hk as (_ & _ & _ & Ho2).
    cbn [serve_all]. unfold serve_call in Hserve, Hcl |- *.
    rewrite Ho2 in *. rewrite Hserve in *.
    rewrite phase_write_response in Hcl.
    assert (r ∈ due_rows (select_time k) db) as Hdue'
      by (apply elem_of_due_rows; by split).
    assert (form_submissions.id r
              ∈ ids (due_rows (select_time k) db)) as Hin
      by (apply list_elem_of_fmap; by exists r).
    specialize (Hcl Hin).
    pose proof (phase_write_response supabase
                  (Some (due_rows (select_time k) db)) carried_out
                  (update_time k) db) as Hresp.
    destruct (phase_write supabase _ carried_out (update_time k) db)
      as [resp db1]. cbn [fst snd] in *.
    pose proof (serve_all_not_pending ks db1 (form_submissions.id r) Hcl)
      as Hzero.
    destruct (serve_all ks db1) as [resps db2]. cbn [fst] in *.
    split; [by rewrite Hresp |]. split; [done |].
    unfold times_handed_out in *.
    rewrite filter_cons_True by (by rewrite Hresp).
    cbn [length]. by rewrite Hzero.
Qed.

(** One due job.  In the run where two calls both read before either
    writes, the job goes from pending to processing once, though both
    calls hand it out (see the counterexample).  Of two calls in a row,
    the first hands the job out and the second does not. *)
Lemma claim_by_id_once_in_sequence_witness :
  (times_claimed "j1" both_read_then_write two_calls ≤ 1)%nat
  ∧ (times_handed_out "j1" (serve_all two_in_a_row one_due).1 ≤ 1)%nat
  ∧ job "j1" "alice" 5 pending
      ∈ handed_out
          (serve_call (mk_call env0 GET carried_out 10 carried_out 11)
             one_due).1
  ∧ times_handed_out (form_submissions.id (job "j1" "alice" 5 pending))
      (serve_all [ mk_call env0 GET carried_out 70 carried_out 71 ]
         (serve_call (mk_call env0 GET carried_out 10 carried_out 11)
            one_due).2).1
    = 0%nat
  ∧ times_handed_out (form_submissions.id (job "j1" "alice" 5 pending))
      (serve_all two_in_a_row one_due).1
    = 1%nat.
Proof.
  destruct claim_by_id_once_in_sequence as (_ & _ & Hclaimed & Hmost & Honce).
  split; [apply Hclaimed |]. split.
  - apply Hmost. repeat constructor.
  - apply (Honce (mk_call env0 GET carried_out 10 carried_out 11)
             [ mk_call env0 GET carried_out 70 carried_out 71 ] one_due
             (job "j1" "alice" 5 pending)).
    + repeat split; try discriminate. by exists service_client.
    + apply list_elem_of_here.
    + split; [reflexivity | by vm_compute].
Defined.

(** C1 fails as stated: two calls that both read before either writes
    both hand out the job; the second update finds the row processing and
    rewrites it all the same. *)
Lemma overlapping_calls_both_claim :
  attempts "j1" (run both_read_then_write two_calls) = 2%nat
  ∧ submissions (store (run (take 3 both_read_then_write) two_calls))
      = [ claimed_row 11 (job "j1" "alice" 5 pending) ]
  ∧ submissions (store (run both_read_then_write two_calls))
      = [ claimed_row 12 (job "j1" "alice" 5 pending) ].
Proof. by vm_compute. Qed.

(** ** C3: completed and failed jobs *)

(** C3, as the code has it.  A call whose select runs while the job is
    completed or failed does not read the job, does not hand it out and,
    whatever the table has become by the time of its update, leaves every
    row of the job as it is. *)
Theorem terminal_at_read_untouched env req o now db read j :
  phase_read env req o now db = inr read →
  terminal j (submissions db) →
  (j ∉ ids (default [] read.2))
  ∧ (∀ o' now' db',
       (j ∉ ids (handed_out (phase_write read.1 read.2 o' now' db').1))
       ∧ (∀ r, r ∈ submissions db' → form_submissions.id r = j →
               r ∈ submissions (phase_write read.1 read.2 o' now' db').2)).
Proof.
  intros H Ht. destruct read as [supabase pf]. cbn [fst snd].
  apply phase_read_inr in H as [_ H].
  apply try_read_inr in H as (_ & _ & ->). cbn [from_option id].
  assert (j ∉ ids (due_rows now db)) as Hj.
  { apply not_pending_not_due. intros r Hr Hid.
    destruct (Ht r Hr Hid) as [-> | ->]; discriminate. }
  split; [done |]. intros o' now' db'. split; [done |].
  intros r Hr Hid. apply phase_write_untouched; [done |]. by rewrite Hid.
Qed.

(** A call reads a table in which job j1 is completed; the row is still
    completed, untouched, after the call's update. *)
Lemma terminal_at_read_untouched_witness :
  ("j1" ∉ ids (default [] (Some (due_rows 10 one_completed))))
  ∧ (∀ o' now' db',
       ("j1" ∉ ids (handed_out
                      (phase_write service_client
                         (Some (due_rows 10 one_completed)) o' now' db').1))
       ∧ (∀ r, r ∈ submissions db' → form_submissions.id r = "j1" →
               r ∈ submissions
                     (phase_write service_client
                        (Some (due_rows 10 one_completed)) o' now' db').2)).
Proof.
  apply (terminal_at_read_untouched env0 GET carried_out 10 one_completed
           (service_client, Some (due_rows 10 one_completed)) "j1").
  - reflexivity.
  - intros r Hr _. apply list_elem_of_singleton in Hr as ->. by left.
Defined.

(** C3 fails as stated: a call reads job j1 while it is pending; the
    worker's report then marks it completed; the call's update, keyed by
    id only, sets the completed row to processing. *)
Lemma stale_claim_overwrites_completed :
  phase_read env0 GET carried_out 10 one_due
    = inr (service_client, Some [ job "j1" "alice" 5 pending ])
  ∧ update_rows service_role (λ r, form_submissions.id r = "j1")
      (profile_ids one_due) status_completed 11 (submissions one_due)
    = sql_ok (submissions one_reported)
  ∧ status_of "j1" (submissions one_reported) = Some completed
  ∧ status_of "j1"
      (submissions
         (phase_write service_client (Some [ job "j1" "alice" 5 pending ])
            carried_out 12 one_reported).2)
    = Some processing.
Proof. by vm_compute. Qed.

(** ** Runs of overlapping calls *)

Lemma run_app es1 es2 w : run (es1 ++ es2) w = run es2 (run es1 w).
Proof. apply foldl_app. Qed.

Lemma insert_middle {A} (pre : list A) x y post :
  <[length pre := y]> (pre ++ x :: post) = pre ++ y :: post.
Proof. induction pre as [| a pre IH]; simpl; [done | by rewrite IH]. Qed.

Lemma run_reads env req now db k : ∀ pre post,
  run ((λ i, reads i carried_out now) <$> seq (length pre) k)
    (mk_world db (pre ++ replicate k (accepted env req) ++ post))
  = mk_world db
      (pre ++ replicate k
                (match phase_read env req carried_out now db with
                 | inl resp => responded resp
                 | inr (supabase, pendingForms) =>
                     selected supabase pendingForms
                 end) ++ post).
Proof.
  induction k as [| k IH]; intros pre post; [done |].
  cbn [seq fmap list_fmap replicate app run foldl].
  unfold step at 2. cbn [calls store].
  rewrite list_lookup_middle by done. rewrite insert_middle.
  set (h := match phase_read env req carried_out now db with
            | inl resp => responded resp
            | inr (supabase, pendingForms) => selected supabase pendingForms
            end).
  specialize (IH (pre ++ [h]) post).
  rewrite length_app, Nat.add_1_r, <- !app_assoc in IH. exact IH.
Qed.

Lemma run_writes supabase pf now resp db1 k : ∀ pre post db,
  phase_write supabase pf carried_out now db = (resp, db1) →
  phase_write supabase pf carried_out now db1 = (resp, db1) →
  run ((λ i, writes i carried_out now) <$> seq (length pre) k)
    (mk_world db (pre ++ replicate k (selected supabase pf) ++ post))
  = mk_world (match k with O => db | S _ => db1 end)
      (pre ++ replicate k (responded resp) ++ post).
Proof.
  induction k as [| k IH]; intros pre post db H0 H1; [done |].
  cbn [seq fmap list_fmap replicate app run foldl].
  unfold step at 2. cbn [calls store].
  rewrite list_lookup_middle by done. rewrite H0, insert_middle.
  specialize (IH (pre ++ [responded resp]) post db1 H1 H1).
  rewrite length_app, Nat.add_1_r, <- !app_assoc in IH.
  unfold run in IH |- *. cbn [app] in IH. rewrite IH. by destruct k.
Qed.

Lemma attempts_replicate j db n resp :
  j ∈ ids (handed_out resp) →
  attempts j (mk_world db (replicate n (responded resp))) = n.
Proof.
  intros H. unfold attempts; simpl.
  induction n as [| n IH]; [done |].
  rewrite replicate_S, filter_cons_True by done. simpl. by rewrite IH.
Qed.

(** [n] overlapping calls hand out the job [n] times. *)
Lemma many_calls_attempts n :
  attempts "j1" (run (all_read_then_write n) (many_calls n)) = n.
Proof.
  unfold all_read_then_write, many_calls. rewrite run_app.
  assert (phase_read env0 GET carried_out 10 one_due
          = inr (service_client, Some [ job "j1" "alice" 5 pending ]))
    as Hread by reflexivity.
  pose proof (run_reads env0 GET 10 one_due n [] []) as Hr.
  rewrite Hread, !app_nil_r in Hr. cbn [app length] in Hr.
  rewrite Hr. clear Hr Hread.
  pose proof (run_writes service_client
                (Some [ job "j1" "alice" 5 pending ]) 11
                (phase_write service_client
                   (Some [ job "j1" "alice" 5 pending ]) carried_out 11
                   one_due).1
                (phase_write service_client
                   (Some [ job "j1" "alice" 5 pending ]) carried_out 11
                   one_due).2
                n [] [] one_due eq_refl eq_refl) as Hw.
  rewrite !app_nil_r in Hw. cbn [app length] in Hw. rewrite Hw.
  apply attempts_replicate. vm_compute. constructor.
Qed.

Lemma filter_insert_grows {A} (P : A → Prop) `{!∀ x, Decision (P x)}
    (l : list A) i x y :
  l !! i = Some x → ¬ P x →
  (length (filter P l) ≤ length (filter P (<[i := y]> l)))%nat.
Proof.
  revert i. induction l as [| a l IH]; intros i Hi Hx; [done |].
  destruct i as [| i]; simpl in *.
  - injection Hi as ->. rewrite filter_cons_False by done.
    rewrite filter_cons. case_decide; simpl; lia.
  - specialize (IH i Hi Hx). rewrite !filter_cons.
    case_decide; simpl; lia.
Qed.

Lemma step_attempts j w e : (attempts j w ≤ attempts j (step w e))%nat.
Proof.
  unfold attempts. destruct e as [i o now | i o now]; unfold step.
  - destruct (calls w !! i) as [[env req | |] |] eqn:Hi; try lia.
    cbn [calls]. eapply filter_insert_grows; [exact Hi | by intros []].
  - destruct (calls w !! i) as [[| supabase pf |] |] eqn:Hi; try lia.
    destruct (phase_write supabase pf o now (store w)) as [resp db'].
    cbn [calls]. eapply filter_insert_grows; [exact Hi | by intros []].
Qed.

Lemma run_attempts j es : ∀ w, (attempts j w ≤ attempts j (run es w))%nat.
Proof.
  induction es as [| e es IH]; intros w; simpl; [lia |].
  etrans; [apply (step_attempts j w e) | apply IH].
Qed.

(** ** C4: how often a job is handed out *)

(** C4, as the code has it.  A row has no attempt counter and the code no
    maximum.  Through any run of calls every row is either as it was or
    is what it was with status processing and a new updated_at: a claim
    writes nothing else, and no call writes completed or failed.  The
    number of times a job has been handed out never goes down as the run
    goes on. *)
Theorem claims_write_status_only :
  (∀ es w,
     Forall2 claim_only (submissions (store w))
       (submissions (store (run es w))))
  ∧ (∀ j es es' w,
       (attempts j (run es w) ≤ attempts j (run (es ++ es') w))%nat).
Proof.
  split; [apply run_claim_only |].
  intros j es es' w. rewrite run_app. apply run_attempts.
Qed.

(** C4 fails as stated: no maximum bounds the number of times a job is
    handed out; [max + 1] overlapping calls hand it out [max + 1] times. *)
Lemma attempts_unbounded :
  ¬ ∃ max : nat, ∀ n es, (attempts "j1" (run es (many_calls n)) ≤ max)%nat.
Proof.
  intros [max H].
  specialize (H (S max) (all_read_then_write (S max))).
  rewrite many_calls_attempts in H. lia.
Qed.

(** ** C5: jobs left processing *)

(** C5, as the code has it.  The code has no reconcile operation and a
    row has no claim_token or claim_deadline.  Through any run of calls,
    at any times, a row that is processing stays processing. *)
Theorem processing_stays_processing es w :
  Forall2
    (λ r r', form_submissions.id r' = form_submissions.id r
             ∧ (form_submissions.status r = processing →
                form_submissions.status r' = processing))
    (submissions (store w)) (submissions (store (run es w))).
Proof.
  eapply Forall2_impl; [apply run_claim_only |].
  intros r r' Hc. split.
  - by destruct (claim_only_columns _ _ Hc) as (-> & _).
  - by apply claim_only_processing.
Qed.

(** C5 fails as stated: job j1, due since time 5 and processing, is
    processing after every run of calls whatever their times; nothing
    returns it to pending. *)
Lemma no_reconcile :
  status_of "j1" (submissions one_processing) = Some processing
  ∧ ∀ hs es,
      status_of "j1" (submissions (store (run es (mk_world one_processing hs))))
      = Some processing.
Proof.
  split; [reflexivity |]. intros hs es.
  apply (status_of_claim_only "j1" (submissions one_processing));
    [| reflexivity].
  apply (run_claim_only es (mk_world one_processing hs)).
Qed.

(** ** C6: the size of a batch *)

Lemma phase_write_claims supabase now db now' r :
  client_credential supabase = service_role →
  r ∈ due_rows now db →
  claimed_row now' r
    ∈ submissions
        (phase_write supabase (Some (due_rows now db)) carried_out now' db).2.
Proof.
  intros Hc Hr. rewrite phase_write_submissions, Hc.
  apply list_elem_of_fmap. exists r.
  rewrite updated_row_id_in, decide_True.
  - split; [done |]. by apply elem_of_due_rows in Hr as (Hr & _).
  - split; [apply rls_allows_service |].
    apply list_elem_of_fmap. by exists r.
Qed.

(** C6, as the code has it.  A call takes no limit.  When its select is
    carried out it hands out every due row, and asks the store to set all
    of them to processing; when that update is carried out, each row
    handed out is processing in the store afterwards. *)
Theorem serve_hands_out_every_due_row env req now o2 now' db supabase :
  method req ≠ "OPTIONS" →
  createClient (SUPABASE_URL env) (SUPABASE_SERVICE_ROLE_KEY env)
    = inr supabase →
  handed_out (serve env req carried_out now o2 now' db).1 = due_rows now db
  ∧ (o2 = carried_out →
     ∀ r, r ∈ due_rows now db →
          claimed_row now' r
            ∈ submissions (serve env req carried_out now o2 now' db).2).
Proof.
  intros Hm Hc. rewrite (serve_carried_out _ _ _ _ _ _ _ Hm Hc).
  split; [done |]. intros -> r Hr.
  apply phase_write_claims; [by eapply createClient_inr | done].
Qed.

(** One call on two due jobs of two owners. *)
Lemma serve_hands_out_every_due_row_witness :
  handed_out (serve env0 GET carried_out 10 carried_out 11 two_due).1
    = due_rows 10 two_due
  ∧ (carried_out = carried_out →
     ∀ r, r ∈ due_rows 10 two_due →
          claimed_row 11 r
            ∈ submissions
                (serve env0 GET carried_out 10 carried_out 11 two_due).2).
Proof.
  apply (serve_hands_out_every_due_row env0 GET 10 carried_out 11 two_due
           service_client).
  - discriminate.
  - reflexivity.
Defined.

(** C6 fails as stated: whatever limit a caller has in mind, the call
    hands out all that is due; here two jobs, against a limit of one. *)
Lemma batch_exceeds_limit :
  length (handed_out (serve env0 GET carried_out 10 carried_out 11 two_due).1)
    = 2%nat
  ∧ ¬ ∀ (limit : nat) env req o1 now o2 now' db,
        (length (handed_out (serve env req o1 now o2 now' db).1) ≤ limit)%nat.
Proof.
  split; [reflexivity |]. intros H.
  specialize (H 1%nat env0 GET carried_out 10 carried_out 11 two_due).
  vm_compute in H. lia.
Qed.

(** ** C7: store errors during a call *)

(** A failed select is thrown and caught: the call answers 500 with
    [success: false] and leaves the store as it was. *)
Lemma select_failure_answered_500 env req e now o2 now' db supabase :
  method req ≠ "OPTIONS" →
  createClient (SUPABASE_URL env) (SUPABASE_SERVICE_ROLE_KEY env)
    = inr supabase →
  serve env req (store_fails e) now o2 now' db = (catch e, db).
Proof.
  intros Hm Hc. rewrite serve_not_preflight by done.
  unfold try_read. by rewrite Hc.
Qed.

(** A failed update changes neither the answer nor the store. *)
Lemma update_failure_ignored env req o1 now e now' db :
  (serve env req o1 now (store_fails e) now' db).1
    = (serve env req o1 now carried_out now' db).1
  ∧ (serve env req o1 now (store_fails e) now' db).2 = db.
Proof.
  unfold serve.
  destruct (phase_read env req o1 now db) as [resp | [supabase pf]];
    [done |].
  split; [done |]. unfold phase_write; cbn [snd].
  by destruct pf as [[| f fs] |].
Qed.

(** C7 at its failing input: one due job, the select carried out, the
    update failing with any error.  The call answers 200 with
    [success: true] and hands out the job, which is still pending in the
    store; the error is reported nowhere. *)
Theorem update_failure_answered_as_success :
  ∀ e,
    serve env0 GET carried_out 10 (store_fails e) 11 one_due
    = (mk_Response
         (Some (json_success [ job "j1" "alice" 5 pending ] 1))
         json_headers 200,
       one_due).
Proof. reflexivity. Qed.

(** ** C9: the answer of a call that throws nothing *)

Lemma thrown_in_None env req o now db :
  method req ≠ "OPTIONS" →
  thrown_in env req o now db = None →
  ∃ supabase,
    createClient (SUPABASE_URL env) (SUPABASE_SERVICE_ROLE_KEY env)
      = inr supabase
    ∧ o = carried_out.
Proof.
  intros Hm. unfold thrown_in. rewrite decide_False by done.
  destruct (try_read env o now db) as [e | [supabase pf]] eqn:H;
    [discriminate |].
  intros _. apply try_read_inr in H as (Hc & -> & _). eauto.
Qed.

(** C9, as the code has it.  Whenever a request other than the OPTIONS
    preflight completes without a thrown error, the call answers 200 with
    a JSON body in which success is true, pendingForms holds the rows as
    the select read them (each still pending) and count is their number;
    when the update was carried out, the store holds each of those rows
    as processing. *)
Theorem success_answer env req o1 now o2 now' db :
  method req ≠ "OPTIONS" →
  thrown_in env req o1 now db = None →
  status (serve env req o1 now o2 now' db).1 = 200
  ∧ body (serve env req o1 now o2 now' db).1
    = Some (json_success (due_rows now db) (length (due_rows now db)))
  ∧ success <$> body (serve env req o1 now o2 now' db).1 = Some true
  ∧ (∀ r, r ∈ due_rows now db →
          r ∈ submissions db ∧ form_submissions.status r = pending)
  ∧ (o2 = carried_out →
     ∀ r, r ∈ due_rows now db →
          claimed_row now' r
            ∈ submissions (serve env req o1 now o2 now' db).2).
Proof.
  intros Hm Ht.
  destruct (thrown_in_None _ _ _ _ _ Hm Ht) as (supabase & Hc & ->).
  rewrite (serve_carried_out _ _ _ _ _ _ _ Hm Hc), phase_write_response.
  repeat split; try done.
  - by apply elem_of_due_rows in H as (? & _).
  - by apply elem_of_due_rows in H as (_ & ? & _).
  - intros -> r Hr.
    apply phase_write_claims; [by eapply createClient_inr | done].
Qed.

(** A GET with both requests carried out, on two due jobs. *)
Lemma success_answer_witness :
  status (serve env0 GET carried_out 10 carried_out 11 two_due).1 = 200
  ∧ body (serve env0 GET carried_out 10 carried_out 11 two_due).1
    = Some (json_success (due_rows 10 two_due) (length (due_rows 10 two_due)))
  ∧ success <$> body (serve env0 GET carried_out 10 carried_out 11 two_due).1
    = Some true
  ∧ (∀ r, r ∈ due_rows 10 two_due →
          r ∈ submissions two_due ∧ form_submissions.status r = pending)
  ∧ (carried_out = carried_out →
     ∀ r, r ∈ due_rows 10 two_due →
          claimed_row 11 r
            ∈ submissions
                (serve env0 GET carried_out 10 carried_out 11 two_due).2).
Proof.
  apply (success_answer env0 GET carried_out 10 carried_out 11 two_due).
  - discriminate.
  - reflexivity.
Defined.

(** C9 fails as stated: an OPTIONS request completes with nothing
    thrown, and its answer, status 200, has no body at all. *)
Lemma preflight_answer_has_no_body :
  thrown_in env0 OPTIONS carried_out 10 one_due = None
  ∧ serve env0 OPTIONS carried_out 10 carried_out 11 one_due
    = (mk_Response None corsHeaders 200, one_due).
Proof. split; reflexivity. Qed.

(** ** C8: whose rows a credential reaches *)

Lemma elem_of_select_rows_own u (P : form_submissions.row → Prop)
    `{!∀ r, Decision (P r)} tbl r :
  r ∈ select_rows (authenticated u) P tbl ↔
  r ∈ tbl ∧ form_submissions.user_id r = u ∧ P r.
Proof.
  unfold select_rows. rewrite list_elem_of_filter, rls_allows_authenticated.
  tauto.
Qed.

Lemma insert_row_own u pids p g now tbl tbl' :
  insert_row (authenticated u) pids p g now tbl = sql_ok tbl' →
  ∃ r, new_row p g now = Some r
       ∧ form_submissions.user_id r = u
       ∧ tbl' = tbl ++ [r].
Proof.
  unfold insert_row. destruct (new_row p g now) as [r |]; [| discriminate].
  case_decide as Hrls; [| discriminate].
  case_decide; [discriminate |]. case_decide; [| discriminate].
  intros [= <-]. exists r. by apply rls_allows_authenticated in Hrls.
Qed.

Lemma update_rows_own u (P : form_submissions.row → Prop)
    `{!∀ r, Decision (P r)} pids p now tbl tbl' :
  update_rows (authenticated u) P pids p now tbl = sql_ok tbl' →
  Forall2
    (λ r r', r' = r
             ∨ (form_submissions.user_id r = u
                ∧ form_submissions.user_id r' = u))
    tbl tbl'.
Proof.
  unfold update_rows. case_decide as Hchk; [| discriminate].
  case_decide; [| discriminate]. case_decide; [| discriminate].
  intros [= <-]. apply Forall2_fmap_r, Forall_Forall2_diag.
  eapply Forall_impl; [exact Hchk |]. intros r Hr.
  unfold updated_row, compose. simpl in Hr |- *.
  case_decide as Hd; [| by left]. right.
  specialize (Hr Hd). destruct Hd as [Hd _].
  apply rls_allows_authenticated in Hd, Hr. done.
Qed.

Lemma elem_of_delete_rows_own u (P : form_submissions.row → Prop)
    `{!∀ r, Decision (P r)} tbl r :
  r ∈ delete_rows (authenticated u) P tbl ↔
  r ∈ tbl ∧ ¬ (form_submissions.user_id r = u ∧ P r).
Proof.
  unfold delete_rows. rewrite list_elem_of_filter, rls_allows_authenticated.
  tauto.
Qed.

(** C8, as the code has it.  Through the policies of the table, that
    is with the token of user [u]: a select returns exactly the rows of
    [u] that match; an insert goes through only for a row owned by [u];
    an update leaves every row not owned by [u] as it is and every row it
    changes owned by [u]; a delete removes only matching rows of [u].
    The endpoint works with the service role and reads nothing of its
    caller but the method of the request: whoever calls, the answer
    holds the due rows of every owner, and the update reaches them
    all. *)
Theorem owner_isolation :
  (∀ u (P : form_submissions.row → Prop) `{!∀ r, Decision (P r)} tbl r,
     r ∈ select_rows (authenticated u) P tbl ↔
     r ∈ tbl ∧ form_submissions.user_id r = u ∧ P r)
  ∧ (∀ u pids p g now tbl tbl',
       insert_row (authenticated u) pids p g now tbl = sql_ok tbl' →
       ∃ r, form_submissions.user_id r = u ∧ tbl' = tbl ++ [r])
  ∧ (∀ u (P : form_submissions.row → Prop) `{!∀ r, Decision (P r)}
       pids p now tbl tbl',
       update_rows (authenticated u) P pids p now tbl = sql_ok tbl' →
       Forall2
         (λ r r', r' = r
                  ∨ (form_submissions.user_id r = u
                     ∧ form_submissions.user_id r' = u))
         tbl tbl')
  ∧ (∀ u (P : form_submissions.row → Prop) `{!∀ r, Decision (P r)} tbl r,
       r ∈ delete_rows (authenticated u) P tbl ↔
       r ∈ tbl ∧ ¬ (form_submissions.user_id r = u ∧ P r))
  ∧ (∀ env req now o2 now' db supabase,
       method req ≠ "OPTIONS" →
       createClient (SUPABASE_URL env) (SUPABASE_SERVICE_ROLE_KEY env)
         = inr supabase →
       client_credential supabase = service_role
       ∧ (∀ r, r ∈ handed_out (serve env req carried_out now o2 now' db).1
               ↔ r ∈ submissions db ∧ due now r)
       ∧ (∀ r, r ∈ submissions db → due now r →
               claimed_row now' r
                 ∈ submissions
                     (serve env req carried_out now carried_out now' db).2)).
Proof.
  split; [intros; apply elem_of_select_rows_own |].
  split.
  { intros u pids p g now tbl tbl' H.
    apply insert_row_own in H as (r & _ & ? & ?). eauto. }
  split; [intros; by eapply update_rows_own |].
  split; [intros; apply elem_of_delete_rows_own |].
  intros env req now o2 now' db supabase Hm Hc.
  pose proof (createClient_inr _ _ _ Hc) as Hcred.
  split; [done |]. split.
  - intros r. rewrite (serve_carried_out _ _ _ _ _ _ _ Hm Hc).
    rewrite phase_write_response. unfold handed_out.
    cbn [body from_option id]. rewrite elem_of_due_rows. unfold due. tauto.
  - intros r Hr Hdue. rewrite (serve_carried_out _ _ _ _ _ _ _ Hm Hc).
    apply phase_write_claims; [done |]. apply elem_of_due_rows. by split.
Qed.

(** Alice's token reads alice's job and not bob's.  A call to the
    endpoint is answered with the jobs of both, and leaves bob's job
    processing. *)
Lemma owner_isolation_witness :
  (job "j2" "bob" 3 pending
     ∈ select_rows (authenticated "alice") (λ _, True) (submissions two_due)
   ↔ job "j2" "bob" 3 pending ∈ submissions two_due
     ∧ form_submissions.user_id (job "j2" "bob" 3 pending) = "alice" ∧ True)
  ∧ (job "j2" "bob" 3 pending
       ∈ handed_out (serve env0 GET carried_out 10 carried_out 11 two_due).1
     ↔ job "j2" "bob" 3 pending ∈ submissions two_due
       ∧ due 10 (job "j2" "bob" 3 pending))
  ∧ claimed_row 11 (job "j2" "bob" 3 pending)
      ∈ submissions (serve env0 GET carried_out 10 carried_out 11 two_due).2.
Proof.
  destruct owner_isolation as (Hselect & _ & _ & _ & Hserve).
  split;
    [apply (Hselect "alice" (λ _, True) _ (submissions two_due)) |].
  destruct (Hserve env0 GET 10 carried_out 11 two_due service_client)
    as (_ & Hout & Hclaimed); [discriminate | reflexivity |].
  split; [apply Hout |]. apply Hclaimed.
  - apply (bool_decide_unpack _). by vm_compute.
  - split; [reflexivity | by vm_compute].
Defined.

(** C8 fails as stated: what an owner can observe is not only that
    owner's rows.  The endpoint reads no credential, so to any caller,
    alice among them, it gives bob's job, which alice's own select does
    not show; and it sets bob's job to processing. *)
Lemma endpoint_hands_out_foreign_rows :
  select_rows (authenticated "alice") (λ _, True) (submissions two_due)
    = [ job "j1" "alice" 5 pending ]
  ∧ handed_out (serve env0 GET carried_out 10 carried_out 11 two_due).1
    = [ job "j1" "alice" 5 pending; job "j2" "bob" 3 pending ]
  ∧ form_submissions.user_id (job "j2" "bob" 3 pending) = "bob"
  ∧ submissions (serve env0 GET carried_out 10 carried_out 11 two_due).2
    = [ claimed_row 11 (job "j1" "alice" 5 pending);
        claimed_row 11 (job "j2" "bob" 3 pending) ].
Proof. by vm_compute. Qed.

(** ** C10: the profile a signup creates *)

Lemma meta_text_signUp id email key : meta_text (signUp id email) key = None.
Proof. reflexivity. Qed.

Lemma default_college_in_colleges :
  "Baker College" ∈ profiles.colleges.
Proof. apply list_elem_of_here. Qed.

Lemma default_year_in_years : "Freshman" ∈ profiles.years.
Proof. apply list_elem_of_here. Qed.

Lemma handle_new_user_ok NEW now db db' :
  handle_new_user NEW now db = sql_ok db' →
  ∃ r, new_profile NEW now = Some r
       ∧ profiles.college_check r ∧ profiles.year_check r
       ∧ (profiles.id r ∉ profile_ids db)
       ∧ db' = mk_db (users db) (profile_rows db ++ [r]) (submissions db).
Proof.
  unfold handle_new_user.
  destruct (new_profile NEW now) as [r |]; [| discriminate].
  case_decide as Hchk; [| discriminate].
  case_decide; [discriminate |]. case_decide; [| discriminate].
  intros [= <-]. exists r. tauto.
Qed.

(** C10.  A signup that goes through adds exactly one profile row, after
    the existing ones: the user's id and email, and full_name, college and
    year taken from the metadata where it has them and '', 'Baker College'
    and 'Freshman' where it has not; the row satisfies both CHECK
    constraints.  A signup with an email whose metadata names neither
    college nor year, as the Auth page makes it, does go through, with
    both defaults. *)
Theorem signup_creates_one_profile :
  (∀ NEW now db db',
     on_auth_user_created NEW now db = sql_ok db' →
     ∃ e r,
       auth_users.email NEW = Some e
       ∧ r = profiles.mk (auth_users.id NEW) e
               (default "" (meta_text NEW "full_name"))
               (default "Baker College" (meta_text NEW "college"))
               (default "Freshman" (meta_text NEW "year"))
               (Some now) (Some now)
       ∧ profile_rows db' = profile_rows db ++ [r]
       ∧ users db' = users db ++ [NEW]
       ∧ profiles.college_check r ∧ profiles.year_check r)
  ∧ (∀ NEW e now db,
       auth_users.email NEW = Some e →
       meta_text NEW "college" = None →
       meta_text NEW "year" = None →
       (auth_users.id NEW ∉ auth_users.id <$> users db) →
       profiles_reference_users db →
       on_auth_user_created NEW now db
       = sql_ok (mk_db (users db ++ [NEW])
                   (profile_rows db
                    ++ [ profiles.mk (auth_users.id NEW) e
                           (default "" (meta_text NEW "full_name"))
                           "Baker College" "Freshman"
                           (Some now) (Some now) ])
                   (submissions db)))
  ∧ (∀ id email key, meta_text (signUp id email) key = None).
Proof.
  split; [| split; [| apply meta_text_signUp]].
  - intros NEW now db db'. unfold on_auth_user_created.
    case_decide; [discriminate |]. intros Hok.
    apply handle_new_user_ok in Hok as (r & Hr & Hc & Hy & _ & ->).
    unfold new_profile in Hr.
    destruct (auth_users.email NEW) as [e |]; [| discriminate].
    injection Hr as <-. exists e. eexists. repeat split; done.
  - intros NEW e now db He Hcollege Hyear Hfresh Hfk.
    unfold on_auth_user_created. rewrite decide_False by done.
    unfold handle_new_user, new_profile.
    rewrite He, Hcollege, Hyear. cbn [mbind option_bind COALESCE from_option id].
    rewrite decide_True; last first.
    { split; [apply default_college_in_colleges
             | apply default_year_in_years]. }
    cbn [profiles.id]. rewrite decide_False; last first.
    { unfold profile_ids; cbn [profile_rows]. intros Hin.
      apply Hfresh, Hfk, Hin. }
    rewrite decide_True; [done |].
    cbn [users]. rewrite fmap_app. apply elem_of_app. right.
    apply list_elem_of_here.
Qed.

(** Carol signs up on the Auth page. *)
Lemma signup_creates_one_profile_witness :
  on_auth_user_created (signUp "carol" "carol@rice.edu") 20 one_due
  = sql_ok (mk_db (users one_due ++ [ signUp "carol" "carol@rice.edu" ])
              (profile_rows one_due
               ++ [ profiles.mk "carol" "carol@rice.edu" "" "Baker College"
                      "Freshman" (Some 20) (Some 20) ])
              (submissions one_due)).
Proof.
  apply (proj1 (proj2 signup_creates_one_profile)
           (signUp "carol" "carol@rice.edu") "carol@rice.edu" 20 one_due).
  - reflexivity.
  - reflexivity.
  - reflexivity.
  - apply (bool_decide_unpack _). by vm_compute.
  - intros x Hx. vm_compute in Hx |- *. exact Hx.
Defined.

(** * More of the code *)

(** ** The schema's constraints are kept *)

Lemma well_formed_with_jobs tbl :
  NoDup (ids tbl) →
  Forall (λ s, form_submissions.user_id s ∈ ["alice"; "bob"]) tbl →
  well_formed (with_jobs tbl).
Proof.
  intros Hpk Hfk. split; try done.
  - apply (bool_decide_unpack _). by vm_compute.
  - apply (bool_decide_unpack _). by vm_compute.
  - repeat constructor; apply (bool_decide_unpack _); by vm_compute.
Qed.

Lemma well_formed_two_due : well_formed two_due.
Proof.
  apply well_formed_with_jobs.
  - apply (bool_decide_unpack _). by vm_compute.
  - repeat constructor; apply (bool_decide_unpack _); by vm_compute.
Qed.

Lemma well_formed_one_due : well_formed one_due.
Proof.
  apply well_formed_with_jobs.
  - apply (bool_decide_unpack _). by vm_compute.
  - repeat constructor; apply (bool_decide_unpack _); by vm_compute.
Qed.

Lemma claim_only_ids t t' : Forall2 claim_only t t' → ids t' = ids t.
Proof.
  induction 1 as [| r r' t t' Hr _ IH]; [done |].
  unfold ids in *. cbn [fmap list_fmap]. f_equal; [| exact IH].
  by destruct (claim_only_columns _ _ Hr) as (-> & _).
Qed.

Lemma claim_only_user_ids t t' :
  Forall2 claim_only t t' →
  form_submissions.user_id <$> t' = form_submissions.user_id <$> t.
Proof.
  induction 1 as [| r r' t t' Hr _ IH]; [done |].
  cbn [fmap list_fmap]. f_equal; [| exact IH].
  by destruct (claim_only_columns _ _ Hr) as (_ & -> & _).
Qed.

Lemma update_processing_other_tables supabase o formIds now db :
  users (update_processing supabase o formIds now db) = users db
  ∧ profile_rows (update_processing supabase o formIds now db)
    = profile_rows db.
Proof.
  destruct o; [| done]. by rewrite update_processing_carried_out.
Qed.

Lemma phase_write_other_tables supabase pf o now db :
  users (phase_write supabase pf o now db).2 = users db
  ∧ profile_rows (phase_write supabase pf o now db).2 = profile_rows db.
Proof.
  unfold phase_write; cbn [snd].
  destruct pf as [[| f fs] |]; try done.
  apply update_processing_other_tables.
Qed.

Lemma step_other_tables w e :
  users (store (step w e)) = users (store w)
  ∧ profile_rows (store (step w e)) = profile_rows (store w).
Proof.
  destruct e as [i o now | i o now]; unfold step.
  - by destruct (calls w !! i) as [[env req | |] |].
  - destruct (calls w !! i) as [[| supabase pf |] |]; try done.
    pose proof (phase_write_other_tables supabase pf o now (store w)) as H.
    by destruct (phase_write supabase pf o now (store w)) as [resp db'].
Qed.

Lemma run_other_tables es : ∀ w,
  users (store (run es w)) = users (store w)
  ∧ profile_rows (store (run es w)) = profile_rows (store w).
Proof.
  induction es as [| e es IH]; intros w; [done |]. simpl.
  destruct (IH (step w e)) as [-> ->]. apply step_other_tables.
Qed.

Lemma well_formed_claim_only db db' :
  users db' = users db → profile_rows db' = profile_rows db →
  Forall2 claim_only (submissions db) (submissions db') →
  well_formed db → well_formed db'.
Proof.
  intros Hu Hp Hs [H1 H2 H3 H4 H5 H6].
  split; unfold profile_ids in *; rewrite ?Hu, ?Hp; try done.
  - by rewrite (claim_only_ids _ _ Hs).
  - apply (Forall_fmap form_submissions.user_id
             (λ u, u ∈ profiles.id <$> profile_rows db)).
    rewrite (claim_only_user_ids _ _ Hs). by apply Forall_fmap.
Qed.

(** X1.  Through any run of calls to the endpoint, overlapping or not, a
    database that meets the constraints of the schema still meets them;
    the calls leave auth.users and profiles alone and neither add nor
    remove a submission. *)
Theorem calls_keep_constraints es w :
  well_formed (store w) →
  well_formed (store (run es w))
  ∧ users (store (run es w)) = users (store w)
  ∧ profile_rows (store (run es w)) = profile_rows (store w)
  ∧ ids (submissions (store (run es w))) = ids (submissions (store w)).
Proof.
  intros Hwf. destruct (run_other_tables es w) as [Hu Hp].
  pose proof (run_claim_only es w) as Hs.
  split; [by eapply well_formed_claim_only |].
  split; [done |]. split; [done |]. by apply claim_only_ids.
Qed.

(** Two overlapping calls on one due job. *)
Lemma calls_keep_constraints_witness :
  well_formed (store (run both_read_then_write two_calls))
  ∧ users (store (run both_read_then_write two_calls))
    = users (store two_calls)
  ∧ profile_rows (store (run both_read_then_write two_calls))
    = profile_rows (store two_calls)
  ∧ ids (submissions (store (run both_read_then_write two_calls)))
    = ids (submissions (store two_calls)).
Proof.
  apply (calls_keep_constraints both_read_then_write two_calls).
  apply well_formed_one_due.
Defined.

(** ** Statements on form_submissions *)

Lemma apply_payload_id p r :
  form_submissions.p_id p = None →
  form_submissions.id (apply_payload p r) = form_submissions.id r.
Proof. intros H. unfold apply_payload. simpl. by rewrite H. Qed.

Lemma updated_row_ids c (P : form_submissions.row → Prop)
    `{!∀ r, Decision (P r)} p now tbl :
  form_submissions.p_id p = None →
  ids (updated_row c P p now <$> tbl) = ids tbl.
Proof.
  intros Hp. unfold ids. rewrite <- list_fmap_compose.
  apply list_fmap_ext. intros i r _. unfold compose, updated_row.
  case_decide; [| done]. simpl. by rewrite Hp.
Qed.

Lemma insert_row_inv c pids p g now tbl tbl' :
  insert_row c pids p g now tbl = sql_ok tbl' →
  ∃ r, new_row p g now = Some r
       ∧ rls_allows c r
       ∧ (form_submissions.id r ∉ ids tbl)
       ∧ form_submissions.user_id r ∈ pids
       ∧ tbl' = tbl ++ [r].
Proof.
  unfold insert_row. destruct (new_row p g now) as [r |]; [| discriminate].
  case_decide; [| discriminate]. case_decide; [discriminate |].
  case_decide; [| discriminate]. intros [= <-]. by exists r.
Qed.

Lemma insert_row_well_formed c p g now db tbl :
  well_formed db →
  insert_row c (profile_ids db) p g now (submissions db) = sql_ok tbl →
  well_formed (with_submissions db tbl).
Proof.
  intros [H1 H2 H3 H4 H5 H6] H.
  apply insert_row_inv in H as (r & _ & _ & Hfresh & Hfk & ->).
  split; try done; cbn [with_submissions submissions].
  - unfold ids in *. rewrite fmap_app. apply NoDup_app.
    split; [done |]. split; [| apply NoDup_singleton].
    intros x Hx Hx'. apply list_elem_of_singleton in Hx' as ->. done.
  - apply Forall_app. split; [done |]. by constructor.
Qed.

Lemma update_rows_well_formed c (P : form_submissions.row → Prop)
    `{!∀ r, Decision (P r)} p now db tbl :
  well_formed db →
  update_rows c P (profile_ids db) p now (submissions db) = sql_ok tbl →
  well_formed (with_submissions db tbl).
Proof.
  intros [H1 H2 H3 H4 H5 H6]. unfold update_rows.
  case_decide; [| discriminate]. case_decide as Hpk; [| discriminate].
  case_decide as Hfk; [| discriminate]. intros [= <-].
  split; try done; cbn [with_submissions submissions].
  - destruct Hpk as [Hpk | Hpk]; [| done]. by rewrite updated_row_ids.
  - apply Forall_fmap, Forall_forall. intros r Hr. unfold compose.
    rewrite Forall_forall in H6. specialize (H6 r Hr).
    unfold updated_row. case_decide as Hd; [| done]. simpl.
    destruct (form_submissions.p_user_id p) as [u |] eqn:Hu; [| done].
    simpl. destruct Hfk as [Hfk | Hfk].
    + exfalso. eapply filter_nil_not_elem_of; [exact Hfk | exact Hd | done].
    + unfold references_profile in Hfk. by rewrite Hu in Hfk.
Qed.

Lemma delete_rows_well_formed c (P : form_submissions.row → Prop)
    `{!∀ r, Decision (P r)} db :
  well_formed db →
  well_formed (with_submissions db (delete_rows c P (submissions db))).
Proof.
  intros [H1 H2 H3 H4 H5 H6].
  split; try done; cbn [with_submissions submissions]; unfold delete_rows.
  - eapply sublist_NoDup; [exact H5 |]. unfold ids.
    apply fmap_sublist, sublist_filter.
  - rewrite Forall_forall in H6 |- *. intros r Hr. apply H6.
    by apply list_elem_of_filter in Hr as [_ Hr].
Qed.

(** X2.  Whatever the credential, the payload and the filter, an insert,
    an update or a delete on form_submissions that goes through leaves a
    database that meets the constraints of the schema. *)
Theorem submission_statements_keep_constraints db :
  well_formed db →
  (∀ c p g now tbl,
     insert_row c (profile_ids db) p g now (submissions db) = sql_ok tbl →
     well_formed (with_submissions db tbl))
  ∧ (∀ c (P : form_submissions.row → Prop) `{!∀ r, Decision (P r)}
       p now tbl,
       update_rows c P (profile_ids db) p now (submissions db) = sql_ok tbl →
       well_formed (with_submissions db tbl))
  ∧ (∀ c (P : form_submissions.row → Prop) `{!∀ r, Decision (P r)},
       well_formed
         (with_submissions db (delete_rows c P (submissions db)))).
Proof.
  intros Hwf. split; [| split].
  - intros. by eapply insert_row_well_formed.
  - intros. by eapply update_rows_well_formed.
  - intros. by apply delete_rows_well_formed.
Qed.

(** Bob deletes his job from the table of two. *)
Lemma submission_statements_keep_constraints_witness :
  well_formed
    (with_submissions two_due
       (delete_rows (authenticated "bob")
          (λ r, form_submissions.id r = "j2") (submissions two_due))).
Proof.
  apply (proj2 (proj2 (submission_statements_keep_constraints two_due
                         well_formed_two_due))
           (authenticated "bob") (λ r, form_submissions.id r = "j2")).
Defined.

(** ** Statements on profiles *)

Lemma profile_rls_allows_authenticated u r :
  profile_rls_allows (authenticated u) r ↔ profiles.id r = u.
Proof.
  unfold profile_rls_allows, own_profile; simpl. split.
  - intros [H | H]; [discriminate | by injection H].
  - intros ->. by right.
Qed.

Lemma filter_all {A} (P : A → Prop) `{!∀ x, Decision (P x)} (l : list A) :
  (∀ x, x ∈ l → P x) → filter P l = l.
Proof.
  induction l as [| a l IH]; intros Hall; [done |].
  rewrite filter_cons_True by (apply Hall; left).
  f_equal. apply IH. intros x Hx. apply Hall. by right.
Qed.

Lemma filter_none {A} (P : A → Prop) `{!∀ x, Decision (P x)} (l : list A) :
  (∀ x, x ∈ l → ¬ P x) → filter P l = [].
Proof.
  induction l as [| a l IH]; intros Hnone; [done |].
  rewrite filter_cons_False by (apply Hnone; left).
  apply IH. intros x Hx. apply Hnone. by right.
Qed.

Lemma elem_of_select_profiles_own u (P : profiles.row → Prop)
    `{!∀ r, Decision (P r)} tbl r :
  r ∈ select_profiles (authenticated u) P tbl ↔
  r ∈ tbl ∧ profiles.id r = u ∧ P r.
Proof.
  unfold select_profiles.
  rewrite list_elem_of_filter, profile_rls_allows_authenticated. tauto.
Qed.

Lemma update_profiles_inv c (P : profiles.row → Prop)
    `{!∀ r, Decision (P r)} p now db db' :
  update_profiles c P p now db = sql_ok db' →
  db' = mk_db (users db) (updated_profile c P p now <$> profile_rows db)
          (submissions db)
  ∧ Forall (λ r, profile_rls_allows c r ∧ P r →
              profile_rls_allows c (apply_profile_payload p r)
              ∧ profiles.college_check (apply_profile_payload p r)
              ∧ profiles.year_check (apply_profile_payload p r))
      (profile_rows db)
  ∧ (pp_id p = None ∨ select_profiles c P (profile_rows db) = []
     ∨ (NoDup (profiles.id <$>
                 (updated_profile c P p now <$> profile_rows db))
        ∧ (profiles.id <$> (updated_profile c P p now <$> profile_rows db))
            ⊆ (auth_users.id <$> users db)
        ∧ Forall (λ s, form_submissions.user_id s
                         ∈ profiles.id <$>
                             (updated_profile c P p now <$> profile_rows db))
            (submissions db))).
Proof.
  unfold update_profiles.
  case_decide as H1; [| discriminate]. case_decide as H2; [| discriminate].
  case_decide as H3; [| discriminate]. case_decide as H4; [| discriminate].
  intros [= <-]. split; [done |]. split.
  - rewrite Forall_forall in H1, H2 |- *. intros r Hr Hd.
    split; [by apply H1 | by apply H2].
  - destruct H3 as [? | [? | ?]]; [by left | by right; left |].
    destruct H4 as [? | [? | [? ?]]]; [by left | by right; left |].
    by right; right.
Qed.

Lemma updated_profile_untargeted c (P : profiles.row → Prop)
    `{!∀ r, Decision (P r)} p now (tbl : list profiles.row) :
  select_profiles c P tbl = [] →
  updated_profile c P p now <$> tbl = tbl.
Proof.
  intros Hsel. rewrite <- (list_fmap_id tbl) at 2.
  apply list_fmap_ext. intros i r Hr. unfold updated_profile.
  case_decide as Hd; [| done]. exfalso.
  eapply filter_nil_not_elem_of; [exact Hsel | exact Hd |].
  by eapply list_elem_of_lookup_2.
Qed.

Lemma updated_profile_ids c (P : profiles.row → Prop)
    `{!∀ r, Decision (P r)} p now (tbl : list profiles.row) :
  pp_id p = None →
  profiles.id <$> (updated_profile c P p now <$> tbl) = profiles.id <$> tbl.
Proof.
  intros Hp. rewrite <- list_fmap_compose.
  apply list_fmap_ext. intros i r _. unfold compose, updated_profile.
  case_decide; [| done]. simpl. by rewrite Hp.
Qed.

Lemma update_profiles_well_formed c (P : profiles.row → Prop)
    `{!∀ r, Decision (P r)} p now db db' :
  well_formed db →
  update_profiles c P p now db = sql_ok db' →
  well_formed db'.
Proof.
  intros [H1 H2 H3 H4 H5 H6] Hok.
  apply update_profiles_inv in Hok as (-> & Hchk & Hkeys).
  assert (Forall (λ r, profiles.college_check r ∧ profiles.year_check r)
            (updated_profile c P p now <$> profile_rows db)) as Hc.
  { apply Forall_fmap, Forall_forall. intros r Hr. unfold compose.
    rewrite Forall_forall in H4, Hchk. unfold updated_profile.
    case_decide as Hd; [| by apply H4].
    destruct (Hchk r Hr Hd) as (_ & ? & ?). done. }
  unfold profile_ids in *.
  destruct Hkeys as [Hk | [Hk | (Hk1 & Hk2 & Hk3)]].
  - split; unfold profile_ids; cbn [users profile_rows submissions];
      rewrite ?updated_profile_ids by done; done.
  - split; unfold profile_ids; cbn [users profile_rows submissions];
      rewrite ?updated_profile_untargeted by done; done.
  - split; unfold profile_ids; cbn [users profile_rows submissions]; done.
Qed.

Lemma on_auth_user_created_well_formed NEW now db db' :
  well_formed db →
  on_auth_user_created NEW now db = sql_ok db' →
  well_formed db'.
Proof.
  intros [H1 H2 H3 H4 H5 H6]. unfold on_auth_user_created.
  case_decide as Hfresh; [discriminate |]. intros H.
  apply handle_new_user_ok in H as (r & Hr & Hc & Hy & Hpk & ->).
  unfold new_profile in Hr.
  destruct (auth_users.email NEW) as [e |]; [| discriminate].
  assert (profiles.id r = auth_users.id NEW) as Hid
    by (simpl in Hr; by injection Hr as <-).
  unfold profile_ids in *. cbn [users profile_rows submissions] in *.
  split; unfold profile_ids; cbn [users profile_rows submissions].
  - rewrite fmap_app. apply NoDup_app. split; [done |].
    split; [| apply NoDup_singleton].
    intros x Hx Hx'. apply list_elem_of_singleton in Hx' as ->. done.
  - rewrite fmap_app. apply NoDup_app. split; [done |].
    split; [| apply NoDup_singleton].
    intros x Hx Hx'. apply list_elem_of_singleton in Hx' as ->. done.
  - rewrite !fmap_app. intros x Hx. apply elem_of_app.
    apply elem_of_app in Hx as [Hx | Hx]; [left; by apply H3 |].
    right. apply list_elem_of_singleton in Hx as ->. rewrite Hid.
    apply list_elem_of_here.
  - apply Forall_app. split; [done |]. constructor; [done | constructor].
  - done.
  - eapply Forall_impl; [exact H6 |]. intros s Hs. rewrite fmap_app.
    apply elem_of_app. by left.
Qed.

Lemma delete_auth_user_well_formed u db :
  well_formed db → well_formed (delete_auth_user u db).
Proof.
  intros [H1 H2 H3 H4 H5 H6]. unfold profile_ids in *.
  split; unfold delete_auth_user, profile_ids;
    cbn [users profile_rows submissions].
  - eapply sublist_NoDup; [exact H1 |]. apply fmap_sublist, sublist_filter.
  - eapply sublist_NoDup; [exact H2 |]. apply fmap_sublist, sublist_filter.
  - intros x Hx. apply list_elem_of_fmap in Hx as (p & -> & Hp).
    apply list_elem_of_filter in Hp as [Hne Hp].
    assert (profiles.id p ∈ auth_users.id <$> users db) as Hin.
    { apply H3. apply list_elem_of_fmap. by exists p. }
    apply list_elem_of_fmap in Hin as (a & Ha & Hin).
    apply list_elem_of_fmap. exists a. split; [done |].
    apply list_elem_of_filter. split; [congruence | done].
  - rewrite Forall_forall in H4 |- *. intros r Hr. apply H4.
    by apply list_elem_of_filter in Hr as [_ Hr].
  - eapply sublist_NoDup; [exact H5 |]. apply fmap_sublist, sublist_filter.
  - rewrite Forall_forall in H6 |- *. intros s Hs.
    apply list_elem_of_filter in Hs as [Hne Hs].
    specialize (H6 s Hs). apply list_elem_of_fmap in H6 as (p & Hp & Hin).
    apply list_elem_of_fmap. exists p. split; [done |].
    apply list_elem_of_filter. split; [congruence | done].
Qed.

Lemma delete_profiles_well_formed c (P : profiles.row → Prop)
    `{!∀ r, Decision (P r)} db :
  well_formed db → well_formed (delete_profiles c P db).
Proof.
  intros [H1 H2 H3 H4 H5 H6]. unfold profile_ids in *.
  split; unfold delete_profiles, profile_ids;
    cbn [users profile_rows submissions].
  - done.
  - eapply sublist_NoDup; [exact H2 |]. apply fmap_sublist, sublist_filter.
  - intros x Hx. apply H3. apply list_elem_of_fmap in Hx as (p & -> & Hp).
    apply list_elem_of_filter in Hp as [_ Hp].
    apply list_elem_of_fmap. by exists p.
  - rewrite Forall_forall in H4 |- *. intros r Hr. apply H4.
    by apply list_elem_of_filter in Hr as [_ Hr].
  - eapply sublist_NoDup; [exact H5 |]. apply fmap_sublist, sublist_filter.
  - rewrite Forall_forall in H6 |- *. intros s Hs.
    apply list_elem_of_filter in Hs as [Hkeep Hs].
    specialize (H6 s Hs). apply list_elem_of_fmap in H6 as (p & Hp & Hin).
    apply list_elem_of_fmap. exists p. split; [done |].
    apply list_elem_of_filter. split; [| done].
    intros Hgone. apply Hkeep. apply list_elem_of_fmap. exists p.
    split; [done |]. by apply list_elem_of_filter.
Qed.

(** X3.  With the token of user [u], a select on profiles returns exactly
    the matching row of [u]; an update that goes through leaves every
    other profile, auth.users and form_submissions as they are, and the
    rows it changes belong to [u] before and after.  A delete with any
    credential but the service role removes nothing. *)
Theorem profile_isolation :
  (∀ u (P : profiles.row → Prop) `{!∀ r, Decision (P r)} tbl r,
     r ∈ select_profiles (authenticated u) P tbl ↔
     r ∈ tbl ∧ profiles.id r = u ∧ P r)
  ∧ (∀ u (P : profiles.row → Prop) `{!∀ r, Decision (P r)} p now db db',
       update_profiles (authenticated u) P p now db = sql_ok db' →
       users db' = users db
       ∧ submissions db' = submissions db
       ∧ Forall2
           (λ r r', r' = r ∨ (profiles.id r = u ∧ profiles.id r' = u))
           (profile_rows db) (profile_rows db'))
  ∧ (∀ c (P : profiles.row → Prop) `{!∀ r, Decision (P r)} db,
       c ≠ service_role → delete_profiles c P db = db).
Proof.
  split; [intros; apply elem_of_select_profiles_own |]. split.
  - intros u P HP p now db db' Hok.
    apply update_profiles_inv in Hok as (-> & Hchk & _).
    split; [done |]. split; [done |]. cbn [profile_rows].
    apply Forall2_fmap_r, Forall_Forall2_diag.
    eapply Forall_impl; [exact Hchk |]. intros r Hr.
    unfold updated_profile, compose. simpl in Hr |- *.
    case_decide as Hd; [| by left]. right.
    destruct (Hr Hd) as (Hnew & _). destruct Hd as [Hd _].
    apply profile_rls_allows_authenticated in Hd, Hnew. done.
  - intros c P HP [us ps ss] Hc. unfold delete_profiles.
    cbn [users profile_rows submissions].
    rewrite (filter_none (λ r, c = service_role ∧ P r)) by (by intros ? _ []).
    f_equal; apply filter_all.
    + by intros ? _ [].
    + intros s _ Hin. by apply elem_of_nil in Hin.
Qed.

(** Alice's token reaches alice's profile and not bob's. *)
Lemma profile_isolation_witness :
  student "bob"
    ∈ select_profiles (authenticated "alice") (λ _, True)
        (profile_rows two_due)
  ↔ student "bob" ∈ profile_rows two_due
    ∧ profiles.id (student "bob") = "alice" ∧ True.
Proof.
  apply (proj1 profile_isolation "alice" (λ _, True) _ (profile_rows two_due)).
Defined.

(** X4.  An update of profiles that goes through, a signup that goes
    through, the deletion of a user and a delete on profiles each leave a
    database that meets the constraints of the schema; once a user is
    deleted, no user, profile or submission carries the user's id. *)
Theorem profile_statements_keep_constraints db :
  well_formed db →
  (∀ c (P : profiles.row → Prop) `{!∀ r, Decision (P r)} p now db',
     update_profiles c P p now db = sql_ok db' → well_formed db')
  ∧ (∀ NEW now db',
       on_auth_user_created NEW now db = sql_ok db' → well_formed db')
  ∧ (∀ u,
       well_formed (delete_auth_user u db)
       ∧ (u ∉ auth_users.id <$> users (delete_auth_user u db))
       ∧ (u ∉ profile_ids (delete_auth_user u db))
       ∧ (u ∉ form_submissions.user_id
                <$> submissions (delete_auth_user u db)))
  ∧ (∀ c (P : profiles.row → Prop) `{!∀ r, Decision (P r)},
       well_formed (delete_profiles c P db)).
Proof.
  intros Hwf. split; [intros; by eapply update_profiles_well_formed |].
  split; [intros; by eapply on_auth_user_created_well_formed |].
  split; [| intros; by apply delete_profiles_well_formed].
  intros u. split; [by apply delete_auth_user_well_formed |].
  unfold delete_auth_user, profile_ids; cbn [users profile_rows submissions].
  repeat split; intros Hin;
    apply list_elem_of_fmap in Hin as (x & -> & Hx);
    by apply list_elem_of_filter in Hx as [Hne _].
Qed.

(** Alice's account is deleted while one of her jobs is due. *)
Lemma profile_statements_keep_constraints_witness :
  well_formed (delete_auth_user "alice" two_due)
  ∧ ("alice" ∉ auth_users.id <$> users (delete_auth_user "alice" two_due))
  ∧ ("alice" ∉ profile_ids (delete_auth_user "alice" two_due))
  ∧ ("alice" ∉ form_submissions.user_id
                 <$> submissions (delete_auth_user "alice" two_due)).
Proof.
  apply (proj1 (proj2 (proj2 (profile_statements_keep_constraints two_due
                                well_formed_two_due))) "alice").
Defined.

(** ** Onboarding and the two gates *)

Lemma Onboarding_lists :
  Onboarding.COLLEGES = profiles.colleges ∧ Onboarding.YEARS = profiles.years.
Proof. split; reflexivity. Qed.

Lemma not_empty_college s : s ∈ profiles.colleges → s ≠ "".
Proof.
  intros Hin ->. revert Hin. apply (bool_decide_unpack _). by vm_compute.
Qed.

Lemma not_empty_year s : s ∈ profiles.years → s ≠ "".
Proof.
  intros Hin ->. revert Hin. apply (bool_decide_unpack _). by vm_compute.
Qed.

(** Under the primary key, the select by the own id gives the one row. *)
Lemma select_own_profile (tbl : list profiles.row) r :
  NoDup (profiles.id <$> tbl) → r ∈ tbl →
  select_profiles (authenticated (profiles.id r))
    (λ x, profiles.id x = profiles.id r) tbl = [r].
Proof.
  unfold select_profiles. intros Hnd Hr.
  induction tbl as [| a tbl IH]; [by apply elem_of_nil in Hr |].
  cbn [fmap list_fmap] in Hnd. apply NoDup_cons in Hnd as [Ha Hnd].
  apply elem_of_cons in Hr as [-> | Hr].
  - rewrite filter_cons_True;
      [| split; [by apply profile_rls_allows_authenticated | done]].
    f_equal. apply filter_none. intros x Hx [_ Hid].
    apply Ha. rewrite <- Hid. apply list_elem_of_fmap. by exists x.
  - rewrite filter_cons_False; [by apply IH |]. intros [_ Hid].
    apply Ha. rewrite Hid. apply list_elem_of_fmap. by exists r.
Qed.

Lemma select_no_profile (tbl : list profiles.row) u :
  u ∉ profiles.id <$> tbl →
  select_profiles (authenticated u) (λ x, profiles.id x = u) tbl = [].
Proof.
  intros Hu. apply filter_none. intros x Hx [_ Hid]. apply Hu.
  rewrite <- Hid. apply list_elem_of_fmap. by exists x.
Qed.

Lemma single_elem_of {A} (rows : list A) r : single rows = Some r → r ∈ rows.
Proof.
  destruct rows as [| a [| b rows]]; try discriminate.
  intros [= ->]. apply list_elem_of_here.
Qed.

(** The update the page sends, on a database in which [u] has a profile:
    it goes through exactly when the college and the year pass the CHECK
    constraints. *)
Lemma handleSubmit_update u fullName college year now db :
  update_profiles (authenticated u) (λ r, profiles.id r = u)
    (Onboarding.profile_update fullName college year) now db
  = if decide (select_profiles (authenticated u)
                 (λ r, profiles.id r = u) (profile_rows db) = []
               ∨ (college ∈ profiles.colleges ∧ year ∈ profiles.years))
    then sql_ok
           (mk_db (users db)
              ((λ r, if decide (profiles.id r = u)
                     then profiles.mk u (profiles.email r) fullName college
                            year (profiles.created_at r) (Some now)
                     else r) <$> profile_rows db)
              (submissions db))
    else sql_error check_violation.
Proof.
  unfold update_profiles.
  rewrite decide_True; last first.
  { apply Forall_forall. intros r _ [Hr _].
    apply profile_rls_allows_authenticated in Hr.
    by apply profile_rls_allows_authenticated. }
  destruct (decide (select_profiles (authenticated u)
                      (λ r, profiles.id r = u) (profile_rows db) = []
                    ∨ (college ∈ profiles.colleges ∧ year ∈ profiles.years)))
    as [Hok | Hok].
  - rewrite decide_True; last first.
    { apply Forall_forall. intros r Hr Hd. destruct Hok as [Hok | Hok].
      - exfalso.
        eapply filter_nil_not_elem_of; [exact Hok | exact Hd | done].
      - done. }
    rewrite !decide_True by (by left). do 2 f_equal.
    apply list_fmap_ext. intros i r _. unfold updated_profile.
    case_decide as Hd; case_decide as Hd'; try done.
    + destruct Hd as [_ Hd]. by subst u.
    + destruct Hd as [_ Hd]. done.
    + exfalso. apply Hd. split; [| done].
      by apply profile_rls_allows_authenticated.
  - rewrite decide_False; [done |]. intros Hall. apply Hok.
    destruct (select_profiles (authenticated u) (λ r, profiles.id r = u)
                (profile_rows db)) as [| r rows] eqn:Hsel; [by left |].
    right. assert (r ∈ r :: rows) as Hr by left. rewrite <- Hsel in Hr.
    apply list_elem_of_filter in Hr as [Hd Hr].
    rewrite Forall_forall in Hall. by apply (Hall r Hr Hd).
Qed.

(** X5.  On the onboarding page, a signed-in user who has a profile and
    picks a college and a year the page offers gets the profile
    completed: the row of that user takes the name, the college and the
    year and a new updated_at, every other row and table stays, and the
    page goes on to the dashboard. *)
Theorem onboarding_completes u fullName college year now db :
  college ∈ Onboarding.COLLEGES →
  year ∈ Onboarding.YEARS →
  Onboarding.handleSubmit (Some u) fullName college year carried_out now db
  = (mk_shown
       (Some (mk_toast "Profile completed!" (Some "Welcome to SpotSave")
                None))
       (Some "/dashboard"),
     mk_db (users db)
       ((λ r, if decide (profiles.id r = u)
              then profiles.mk u (profiles.email r) fullName college year
                     (profiles.created_at r) (Some now)
              else r) <$> profile_rows db)
       (submissions db)).
Proof.
  intros Hc Hy. unfold Onboarding.handleSubmit, browser_client.
  rewrite handleSubmit_update, decide_True; [done |]. by right.
Qed.

(** Alice completes her profile. *)
Lemma onboarding_completes_witness :
  Onboarding.handleSubmit (Some "alice") "Alice Ng" "Lovett College"
    "Junior" carried_out 30 one_due
  = (mk_shown
       (Some (mk_toast "Profile completed!" (Some "Welcome to SpotSave")
                None))
       (Some "/dashboard"),
     mk_db (users one_due)
       ((λ r, if decide (profiles.id r = "alice")
              then profiles.mk "alice" (profiles.email r) "Alice Ng"
                     "Lovett College" "Junior" (profiles.created_at r)
                     (Some 30)
              else r) <$> profile_rows one_due)
       (submissions one_due)).
Proof.
  apply (onboarding_completes "alice" "Alice Ng" "Lovett College" "Junior"
           30 one_due).
  - apply (bool_decide_unpack _). by vm_compute.
  - apply (bool_decide_unpack _). by vm_compute.
Defined.

(** X6.  When the user has a profile and the college or the year is not
    one of the CHECK lists (nothing selected, say), the submit changes
    nothing in the database, shows the error toast with the fallback
    text and does not leave the page. *)
Theorem onboarding_rejects u fullName college year now db :
  u ∈ profile_ids db →
  ¬ (college ∈ profiles.colleges ∧ year ∈ profiles.years) →
  Onboarding.handleSubmit (Some u) fullName college year carried_out now db
  = (mk_shown
       (Some (mk_toast "Error" (Some "Failed to update profile")
                (Some "destructive")))
       None,
     db).
Proof.
  intros Hu Hbad. unfold Onboarding.handleSubmit, browser_client.
  rewrite handleSubmit_update, decide_False; [done |].
  intros [Hnone | Hok]; [| done].
  apply list_elem_of_fmap in Hu as (r & -> & Hr).
  eapply filter_nil_not_elem_of; [exact Hnone | | exact Hr].
  split; [by apply profile_rls_allows_authenticated | done].
Qed.

(** Alice submits with no college selected. *)
Lemma onboarding_rejects_witness :
  Onboarding.handleSubmit (Some "alice") "Alice Ng" "" "Junior" carried_out
    30 one_due
  = (mk_shown
       (Some (mk_toast "Error" (Some "Failed to update profile")
                (Some "destructive")))
       None,
     one_due).
Proof.
  apply (onboarding_rejects "alice" "Alice Ng" "" "Junior" 30 one_due).
  - apply (bool_decide_unpack _). by vm_compute.
  - intros [Hc _]. revert Hc. apply (bool_decide_unpack _). by vm_compute.
Defined.

Lemma own_profile_read (session : option Session) u o db :
  session = Some u →
  match respond o
          (sql_ok (select_profiles (browser_client session)
                     (λ r, profiles.id r = u) (profile_rows db))) with
  | inr rows => single rows
  | inl _ => None
  end
  = match o with
    | carried_out =>
        single (select_profiles (authenticated u) (λ r, profiles.id r = u)
                  (profile_rows db))
    | store_fails _ => None
    end.
Proof. intros ->. by destruct o. Qed.

(** X7.  For a database that meets the constraints of the schema, the
    two gates agree: the onboarding page sends a session on to the
    dashboard exactly when the dashboard, asked the same, lets it stay.
    The submit handler does not keep to this.  For a signed-in user
    without a profile row its update matches no row and comes back
    without an error: the page shows "Profile completed!" and goes to the
    dashboard with the database as it was, and the dashboard's gate
    sends that user back to the onboarding page. *)
Theorem gates_agree session o db :
  well_formed db →
  (Onboarding.checkProfile session o db = Some "/dashboard"
   ↔ Dashboard.checkAuth session o db = None)
  ∧ (∀ u fullName college year now,
       (u ∉ profile_ids db) →
       Onboarding.handleSubmit (Some u) fullName college year carried_out
         now db
       = (mk_shown
            (Some (mk_toast "Profile completed!" (Some "Welcome to SpotSave")
                     None))
            (Some "/dashboard"),
          db)
       ∧ Dashboard.checkAuth (Some u) carried_out db = Some "/onboarding"
       ∧ Onboarding.checkProfile (Some u) carried_out db = None).
Proof.
  intros Hwf. split.
  - unfold Onboarding.checkProfile, Dashboard.checkAuth.
    destruct session as [u |]; [| done].
    rewrite (own_profile_read (Some u) u o db eq_refl).
    destruct o as [| e]; [| done].
    destruct (single _) as [p |] eqn:Hp; [| done].
    apply single_elem_of, list_elem_of_filter in Hp as [_ Hp].
    pose proof (profiles_checks db Hwf) as Hchk.
    rewrite Forall_forall in Hchk. destruct (Hchk p Hp) as [Hc Hy].
    apply not_empty_college in Hc. apply not_empty_year in Hy.
    repeat case_decide; try done; tauto.
  - intros u fullName college year now Hu.
    pose proof (select_no_profile (profile_rows db) u Hu) as Hnone.
    split; [| split].
    + unfold Onboarding.handleSubmit, browser_client.
      rewrite handleSubmit_update, decide_True by (by left).
      cbn [respond]. do 2 f_equal. destruct db as [us ps ss].
      cbn [users profile_rows submissions] in *. f_equal.
      transitivity (id <$> ps); [| apply list_fmap_id].
      apply list_fmap_ext. intros i r Hr. rewrite decide_False; [done |].
      intros Hid. apply Hu. apply list_elem_of_fmap. exists r.
      split; [done |]. by eapply list_elem_of_lookup_2.
    + unfold Dashboard.checkAuth.
      by rewrite (own_profile_read (Some u) u carried_out db eq_refl), Hnone.
    + unfold Onboarding.checkProfile.
      by rewrite (own_profile_read (Some u) u carried_out db eq_refl), Hnone.
Qed.

(** Alice, who has completed no profile yet, is kept on the onboarding
    page by both gates; dave, who has no profile row, is sent round. *)
Lemma gates_agree_witness :
  (Onboarding.checkProfile (Some "alice") carried_out one_due
     = Some "/dashboard"
   ↔ Dashboard.checkAuth (Some "alice") carried_out one_due = None)
  ∧ Onboarding.handleSubmit (Some "dave") "Dave Lee" "Lovett College"
      "Junior" carried_out 30 one_due
    = (mk_shown
         (Some (mk_toast "Profile completed!" (Some "Welcome to SpotSave")
                  None))
         (Some "/dashboard"),
       one_due)
  ∧ Dashboard.checkAuth (Some "dave") carried_out one_due
    = Some "/onboarding"
  ∧ Onboarding.checkProfile (Some "dave") carried_out one_due = None.
Proof.
  destruct (gates_agree (Some "alice") carried_out one_due
              well_formed_one_due) as [Hgates Hsubmit].
  split; [exact Hgates |].
  apply (Hsubmit "dave" "Dave Lee" "Lovett College" "Junior" 30).
  apply (bool_decide_unpack _). by vm_compute.
Defined.

Lemma signUp_profile id email now db db1 :
  on_auth_user_created (signUp id email) now db = sql_ok db1 →
  profile_rows db1
  = profile_rows db
    ++ [ profiles.mk id email "" "Baker College" "Freshman" (Some now)
           (Some now) ].
Proof.
  unfold on_auth_user_created. case_decide; [discriminate |]. intros Hok.
  by apply handle_new_user_ok in Hok as (r & [= <-] & _ & _ & _ & ->).
Qed.

Lemma handleSubmit_accepts u fullName college year now db :
  college ∈ profiles.colleges →
  year ∈ profiles.years →
  update_profiles (authenticated u) (λ r, profiles.id r = u)
    (Onboarding.profile_update fullName college year) now db
  = sql_ok
      (mk_db (users db)
         ((λ r, if decide (profiles.id r = u)
                then profiles.mk u (profiles.email r) fullName college year
                       (profiles.created_at r) (Some now)
                else r) <$> profile_rows db)
         (submissions db)).
Proof.
  intros Hc Hy. rewrite handleSubmit_update, decide_True; [done |]. by right.
Qed.

Lemma gate_reads_profile (tbl : list profiles.row) r :
  NoDup (profiles.id <$> tbl) → r ∈ tbl →
  single (select_profiles (authenticated (profiles.id r))
            (λ x, profiles.id x = profiles.id r) tbl) = Some r.
Proof. intros Hnd Hr. by rewrite select_own_profile. Qed.

(** X8.  From signup to dashboard.  A user who signs up on the Auth page
    is sent from the dashboard to the onboarding page, which shows its
    form; once that user submits a name that is not empty with a college
    and a year the page offers, the onboarding page sends on to the
    dashboard and the dashboard lets the user stay. *)
Theorem signup_to_dashboard id email now db db1 :
  well_formed db →
  on_auth_user_created (signUp id email) now db = sql_ok db1 →
  Dashboard.checkAuth (Some id) carried_out db1 = Some "/onboarding"
  ∧ Onboarding.checkProfile (Some id) carried_out db1 = None
  ∧ (∀ fullName college year now',
       fullName ≠ "" →
       college ∈ Onboarding.COLLEGES →
       year ∈ Onboarding.YEARS →
       Onboarding.checkProfile (Some id) carried_out
         (Onboarding.handleSubmit (Some id) fullName college year
            carried_out now' db1).2
       = Some "/dashboard"
       ∧ Dashboard.checkAuth (Some id) carried_out
           (Onboarding.handleSubmit (Some id) fullName college year
              carried_out now' db1).2
         = None).
Proof.
  intros Hwf Hok.
  pose proof (on_auth_user_created_well_formed _ _ _ _ Hwf Hok) as Hwf1.
  apply signUp_profile in Hok as Hrows.
  set (r := profiles.mk _ _ _ _ _ _ _) in Hrows.
  assert (r ∈ profile_rows db1) as Hr.
  { rewrite Hrows. apply elem_of_app. right. apply list_elem_of_here. }
  pose proof (gate_reads_profile _ r (profiles_pkey _ Hwf1) Hr) as Hread.
  change (profiles.id r) with id in Hread.
  split; [| split].
  - unfold Dashboard.checkAuth.
    rewrite (own_profile_read (Some id) id carried_out db1 eq_refl), Hread.
    done.
  - unfold Onboarding.checkProfile.
    rewrite (own_profile_read (Some id) id carried_out db1 eq_refl), Hread.
    done.
  - intros fullName college year now' Hname Hc Hy.
    destruct Onboarding_lists as [HC HY]. rewrite HC in Hc. rewrite HY in Hy.
    pose proof (handleSubmit_accepts id fullName college year now' db1 Hc Hy)
      as Hupd.
    pose proof (update_profiles_well_formed _ _ _ _ _ _ Hwf1 Hupd) as Hwf2.
    unfold Onboarding.handleSubmit, browser_client. rewrite Hupd.
    cbn [respond snd].
    set (r' := profiles.mk id email fullName college year
                 (profiles.created_at r) (Some now')).
    set (db2 := mk_db _ _ _) in *.
    assert (r' ∈ profile_rows db2) as Hr'.
    { unfold db2; cbn [profile_rows]. apply list_elem_of_fmap. exists r.
      split; [| done]. by rewrite decide_True. }
    pose proof (gate_reads_profile _ r' (profiles_pkey _ Hwf2) Hr') as Hread'.
    change (profiles.id r') with id in Hread'.
    apply not_empty_college in Hc. apply not_empty_year in Hy.
    split.
    + unfold Onboarding.checkProfile.
      rewrite (own_profile_read (Some id) id carried_out db2 eq_refl), Hread'.
      cbn [profiles.full_name profiles.college profiles.year r'].
      by rewrite decide_True.
    + unfold Dashboard.checkAuth.
      rewrite (own_profile_read (Some id) id carried_out db2 eq_refl), Hread'.
      cbn [profiles.full_name r']. by rewrite decide_False.
Qed.

(** Carol signs up, then completes her profile. *)
Lemma signup_to_dashboard_witness :
  Dashboard.checkAuth (Some "carol") carried_out
    (mk_db (users one_due ++ [ signUp "carol" "carol@rice.edu" ])
       (profile_rows one_due
        ++ [ profiles.mk "carol" "carol@rice.edu" "" "Baker College"
               "Freshman" (Some 20) (Some 20) ])
       (submissions one_due))
  = Some "/onboarding"
  ∧ Onboarding.checkProfile (Some "carol") carried_out
      (mk_db (users one_due ++ [ signUp "carol" "carol@rice.edu" ])
         (profile_rows one_due
          ++ [ profiles.mk "carol" "carol@rice.edu" "" "Baker College"
                 "Freshman" (Some 20) (Some 20) ])
         (submissions one_due))
    = None
  ∧ (∀ fullName college year now',
       fullName ≠ "" →
       college ∈ Onboarding.COLLEGES →
       year ∈ Onboarding.YEARS →
       Onboarding.checkProfile (Some "carol") carried_out
         (Onboarding.handleSubmit (Some "carol") fullName college year
            carried_out now'
            (mk_db (users one_due ++ [ signUp "carol" "carol@rice.edu" ])
               (profile_rows one_due
                ++ [ profiles.mk "carol" "carol@rice.edu" "" "Baker College"
                       "Freshman" (Some 20) (Some 20) ])
               (submissions one_due))).2
       = Some "/dashboard"
       ∧ Dashboard.checkAuth (Some "carol") carried_out
           (Onboarding.handleSubmit (Some "carol") fullName college year
              carried_out now'
              (mk_db (users one_due ++ [ signUp "carol" "carol@rice.edu" ])
                 (profile_rows one_due
                  ++ [ profiles.mk "carol" "carol@rice.edu" ""
                         "Baker College" "Freshman" (Some 20) (Some 20) ])
                 (submissions one_due))).2
         = None).
Proof.
  apply (signup_to_dashboard "carol" "carol@rice.edu" 20 one_due _
           well_formed_one_due).
  reflexivity.
Defined.

(** ** Scheduling, listing and deleting on the dashboard *)

Lemma with_submissions_same db : with_submissions db (submissions db) = db.
Proof. by destruct db. Qed.

Lemma insert_new_submission u formUrl t g now db :
  u ∈ profile_ids db →
  g ∉ ids (submissions db) →
  insert_row (authenticated u) (profile_ids db)
    (Dashboard.new_submission u formUrl t) g now (submissions db)
  = sql_ok (submissions db
            ++ [ form_submissions.mk g u formUrl t pending None (Some now)
                   (Some now) ]).
Proof.
  intros Hu Hg. unfold insert_row. cbn.
  rewrite decide_True by (by apply rls_allows_authenticated).
  cbn. rewrite decide_False by done. by rewrite decide_True.
Qed.

Lemma insert_new_submission_inv c u formUrl t g now pids tbl tbl' :
  insert_row c pids (Dashboard.new_submission u formUrl t) g now tbl
    = sql_ok tbl' →
  tbl' = tbl ++ [ form_submissions.mk g u formUrl t pending None (Some now)
                    (Some now) ].
Proof.
  intros Hok. by apply insert_row_inv in Hok as (r & [= <-] & _ & _ & _ & ->).
Qed.

(** X9.  Scheduling on the dashboard.  With a form URL, a valid date, a
    session whose user has a profile, and the insert carried out with a
    fresh id, the handler appends exactly one row: that id, the session's
    user as owner, the URL, the instant the date stands for, pending, no
    error message, both timestamps now.  It clears the URL, resets the
    date to the clock and shows what the reload gives. *)
Theorem dashboard_schedules st u message tv g now o' clock db :
  Dashboard.formUrl st ≠ "" →
  Dashboard.scheduledTime st = Some (time_value tv) →
  u ∈ profile_ids db →
  (g ∉ ids (submissions db)) →
  ∃ t r db',
    toISOString message (time_value tv) = inr t
    ∧ r = form_submissions.mk g u (Dashboard.formUrl st) t pending None
            (Some now) (Some now)
    ∧ db' = with_submissions db (submissions db ++ [r])
    ∧ Dashboard.handleAddSubmission st (Some u) message carried_out g now o'
        clock db
      = (Dashboard.mk_state "" (Some (time_value clock))
           (Dashboard.loadSubmissions (Some u) o' db'
              (Dashboard.submissions_shown st)),
         mk_shown
           (Some (mk_toast "Form scheduled!"
                    (Some "Your form will be filled automatically at the scheduled time.")
                    None))
           None,
         db').
Proof.
  intros Hurl Hd Hu Hg. eexists _, _, _.
  split; [reflexivity |]. split; [reflexivity |]. split; [reflexivity |].
  unfold Dashboard.handleAddSubmission. rewrite Hd.
  destruct (decide (Dashboard.formUrl st = "")) as [| _]; [done |].
  cbn [toISOString browser_client].
  by rewrite insert_new_submission.
Qed.

(** Alice schedules a second form, for 15 January 2025, 15:00 UTC. *)
Lemma dashboard_schedules_witness :
  ∃ t r db',
    toISOString "Invalid time value" (time_value 1736953200000) = inr t
    ∧ r = form_submissions.mk "j9" "alice" "https://forms.gle/x" t pending
            None (Some 40) (Some 40)
    ∧ db' = with_submissions one_due (submissions one_due ++ [r])
    ∧ Dashboard.handleAddSubmission
        (Dashboard.mk_state "https://forms.gle/x"
           (Some (time_value 1736953200000)) [])
        (Some "alice") "Invalid time value" carried_out "j9" 40 carried_out
        1736488800000 one_due
      = (Dashboard.mk_state "" (Some (time_value 1736488800000))
           (Dashboard.loadSubmissions (Some "alice") carried_out db' []),
         mk_shown
           (Some (mk_toast "Form scheduled!"
                    (Some "Your form will be filled automatically at the scheduled time.")
                    None))
           None,
         db').
Proof.
  apply (dashboard_schedules
           (Dashboard.mk_state "https://forms.gle/x"
              (Some (time_value 1736953200000)) [])
           "alice" "Invalid time value" 1736953200000 "j9" 40
           carried_out 1736488800000 one_due).
  - discriminate.
  - reflexivity.
  - apply (bool_decide_unpack _). by vm_compute.
  - apply (bool_decide_unpack _). by vm_compute.
Defined.

(** X10.  Whatever its inputs, the dashboard's handler either leaves the
    database as it is or appends one pending row owned by the session's
    user; with an empty URL, no date, no session or an invalid date it
    sends nothing and changes nothing. *)
Theorem dashboard_schedule_is_safe st session message o g now o' clock db :
  (Dashboard.handleAddSubmission st session message o g now o' clock db).2
    = db
  ∨ ∃ u t,
      session = Some u
      ∧ Dashboard.formUrl st ≠ ""
      ∧ (Dashboard.scheduledTime st ≫= λ d,
           match toISOString message d with
           | inr t => Some t
           | inl _ => None
           end)
        = Some t
      ∧ (Dashboard.handleAddSubmission st session message o g now o' clock
           db).2
        = with_submissions db
            (submissions db
             ++ [ form_submissions.mk g u (Dashboard.formUrl st) t pending
                    None (Some now) (Some now) ]).
Proof.
  unfold Dashboard.handleAddSubmission.
  destruct (decide (Dashboard.formUrl st = "")) as [| Hurl]; [by left |].
  destruct (Dashboard.scheduledTime st) as [d |]; [| by left].
  destruct session as [u |]; [| by left].
  destruct (toISOString message d) as [e | t] eqn:Ht; [by left |].
  destruct o as [| e]; [| by left]. cbn [respond browser_client].
  destruct (insert_row _ _ _ _ _ _) as [tbl | e] eqn:Hins; [| by left].
  right. exists u, t. split; [done |]. split; [done |].
  split; [cbn; by rewrite Ht |]. cbn [snd].
  by rewrite (insert_new_submission_inv _ _ _ _ _ _ _ _ _ Hins).
Qed.

(** X11.  The form on the landing page and the form on the dashboard
    do the same to the database on the same inputs. *)
Theorem landing_page_schedules_alike
    st session message o g now o' clock db :
  (Index.handleScheduleForm session (Dashboard.formUrl st)
     (Dashboard.scheduledTime st) message o g now db).2
  = (Dashboard.handleAddSubmission st session message o g now o' clock db).2.
Proof.
  unfold Index.handleScheduleForm, Dashboard.handleAddSubmission.
  destruct (decide (Dashboard.formUrl st = "")); [done |].
  destruct (Dashboard.scheduledTime st) as [d |]; [| done].
  destruct session as [u |]; [| done].
  destruct (toISOString message d) as [e | t]; [done |].
  by destruct (respond o _).
Qed.

(** X12.  From the dashboard to the worker.  Once a form is scheduled for
    instant [t], a call to the endpoint that reads at time [now1] hands
    the new job out exactly when [t] is at most [now1]: never before its
    time, and at the first call from then on. *)
Theorem scheduled_job_is_handed_out_when_due
    u formUrl t g now db env req now1 o2 now2 supabase :
  method req ≠ "OPTIONS" →
  createClient (SUPABASE_URL env) (SUPABASE_SERVICE_ROLE_KEY env)
    = inr supabase →
  form_submissions.mk g u formUrl t pending None (Some now) (Some now)
    ∈ handed_out
        (serve env req carried_out now1 o2 now2
           (with_submissions db
              (submissions db
               ++ [ form_submissions.mk g u formUrl t pending None
                      (Some now) (Some now) ]))).1
  ↔ t ≤ now1.
Proof.
  intros Hm Hc. rewrite (serve_carried_out _ _ _ _ _ _ _ Hm Hc).
  rewrite phase_write_response. unfold handed_out. cbn [body from_option id].
  rewrite elem_of_due_rows. cbn. rewrite elem_of_app, list_elem_of_singleton.
  tauto.
Qed.

Lemma scheduled_job_is_handed_out_when_due_witness :
  form_submissions.mk "j9" "alice" "https://forms.gle/x" 50 pending None
    (Some 40) (Some 40)
    ∈ handed_out
        (serve env0 GET carried_out 60 carried_out 61
           (with_submissions one_due
              (submissions one_due
               ++ [ form_submissions.mk "j9" "alice" "https://forms.gle/x"
                      50 pending None (Some 40) (Some 40) ]))).1
  ↔ 50 ≤ 60.
Proof.
  apply (scheduled_job_is_handed_out_when_due "alice" "https://forms.gle/x"
           50 "j9" 40 one_due env0 GET 60 carried_out 61 service_client).
  - discriminate.
  - reflexivity.
Defined.

Lemma delete_rows_foreign u j tbl :
  (∀ r, r ∈ tbl → form_submissions.id r = j →
        form_submissions.user_id r ≠ u) →
  delete_rows (authenticated u) (λ r, form_submissions.id r = j) tbl = tbl.
Proof.
  intros Hforeign. apply filter_all. intros r Hr [Hrls Hid].
  apply rls_allows_authenticated in Hrls. by eapply Hforeign.
Qed.

Lemma filter_ext_in {A} (P Q : A → Prop) `{!∀ x, Decision (P x)}
    `{!∀ x, Decision (Q x)} (l : list A) :
  (∀ x, x ∈ l → P x ↔ Q x) → filter P l = filter Q l.
Proof.
  induction l as [| a l IH]; intros Hext; [done |].
  rewrite !filter_cons.
  assert (filter P l = filter Q l) as ->
    by (apply IH; intros x Hx; apply Hext; by right).
  pose proof (Hext a (list_elem_of_here _ _)).
  repeat case_decide; tauto || done.
Qed.

(** Under the primary key an id names one row. *)
Lemma pkey_unique (tbl : list form_submissions.row) r x :
  NoDup (ids tbl) → r ∈ tbl → x ∈ tbl →
  form_submissions.id x = form_submissions.id r → x = r.
Proof.
  unfold ids. induction tbl as [| a tbl IH]; intros Hnd Hr Hx Hid;
    [by apply elem_of_nil in Hr |].
  cbn [fmap list_fmap] in Hnd. apply NoDup_cons in Hnd as [Ha Hnd].
  apply elem_of_cons in Hr as [-> | Hr];
    apply elem_of_cons in Hx as [-> | Hx]; try done.
  - exfalso. apply Ha. rewrite <- Hid. apply list_elem_of_fmap. by exists x.
  - exfalso. apply Ha. rewrite Hid. apply list_elem_of_fmap. by exists r.
  - by apply IH.
Qed.

Lemma delete_rows_own u (tbl : list form_submissions.row) r :
  NoDup (ids tbl) → r ∈ tbl → form_submissions.user_id r = u →
  delete_rows (authenticated u)
    (λ x, form_submissions.id x = form_submissions.id r) tbl
  = filter (λ x, x ≠ r) tbl.
Proof.
  intros Hnd Hr Hu. unfold delete_rows. apply filter_ext_in.
  intros x Hx. rewrite rls_allows_authenticated. split.
  - intros Hkeep ->. by apply Hkeep.
  - intros Hne [_ Hid]. apply Hne. by eapply pkey_unique.
Qed.

(** X13.  Deleting by an id under which the session's user owns no row
    (another user's job, or none) changes nothing in the database, and
    the page still shows "Submission deleted" and reloads. *)
Theorem delete_of_foreign_job st u j o' db :
  (∀ r, r ∈ submissions db → form_submissions.id r = j →
        form_submissions.user_id r ≠ u) →
  Dashboard.handleDelete st (Some u) j carried_out o' db
  = (Dashboard.mk_state (Dashboard.formUrl st) (Dashboard.scheduledTime st)
       (Dashboard.loadSubmissions (Some u) o' db
          (Dashboard.submissions_shown st)),
     mk_shown (Some (mk_toast "Submission deleted" None None)) None,
     db).
Proof.
  intros Hforeign. unfold Dashboard.handleDelete, browser_client.
  cbn [respond]. rewrite delete_rows_foreign by done.
  by rewrite with_submissions_same.
Qed.

(** Alice asks to delete bob's job. *)
Lemma delete_of_foreign_job_witness :
  Dashboard.handleDelete (Dashboard.mk_state "" None []) (Some "alice") "j2"
    carried_out carried_out two_due
  = (Dashboard.mk_state "" None
       (Dashboard.loadSubmissions (Some "alice") carried_out two_due []),
     mk_shown (Some (mk_toast "Submission deleted" None None)) None,
     two_due).
Proof.
  apply (delete_of_foreign_job (Dashboard.mk_state "" None []) "alice" "j2"
           carried_out two_due).
  intros r Hr Hid. revert Hr.
  unfold two_due, with_jobs; cbn [submissions].
  rewrite !elem_of_cons, elem_of_nil. intros [-> | [-> | []]]; by vm_compute.
Defined.

(** X14.  Deleting an own job, on a table that meets its primary key,
    removes that row and no other, in place; no call to the endpoint that
    reads afterwards hands the job out. *)
Theorem delete_of_own_job st u r o' db :
  NoDup (ids (submissions db)) →
  r ∈ submissions db →
  form_submissions.user_id r = u →
  submissions
    (Dashboard.handleDelete st (Some u) (form_submissions.id r) carried_out
       o' db).2
  = filter (λ x, x ≠ r) (submissions db)
  ∧ ∀ env req o1 now o2 now',
      form_submissions.id r
        ∉ ids (handed_out
                 (serve env req o1 now o2 now'
                    (Dashboard.handleDelete st (Some u)
                       (form_submissions.id r) carried_out o' db).2).1).
Proof.
  intros Hnd Hr Hu. unfold Dashboard.handleDelete, browser_client.
  cbn [respond snd with_submissions submissions].
  rewrite (delete_rows_own u _ r Hnd Hr Hu). split; [done |].
  intros env req o1 now o2 now' Hin.
  set (db' := with_submissions db _) in Hin.
  assert (form_submissions.id r ∈ ids (due_rows now db')) as Hdue.
  { destruct (serve_handed_out env req o1 now o2 now' db') as [Heq | Heq];
      rewrite Heq in Hin; [done | by apply elem_of_nil in Hin]. }
  apply list_elem_of_fmap in Hdue as (x & Hid & Hx).
  apply elem_of_due_rows in Hx as (Hx & _).
  unfold db' in Hx; cbn [submissions with_submissions] in Hx.
  apply list_elem_of_filter in Hx as [Hne Hx].
  apply Hne. by eapply pkey_unique.
Qed.

(** Alice deletes her job j1. *)
Lemma delete_of_own_job_witness :
  submissions
    (Dashboard.handleDelete (Dashboard.mk_state "" None []) (Some "alice")
       (form_submissions.id (job "j1" "alice" 5 pending)) carried_out
       carried_out two_due).2
  = filter (λ x, x ≠ job "j1" "alice" 5 pending) (submissions two_due)
  ∧ ∀ env req o1 now o2 now',
      form_submissions.id (job "j1" "alice" 5 pending)
        ∉ ids (handed_out
                 (serve env req o1 now o2 now'
                    (Dashboard.handleDelete (Dashboard.mk_state "" None [])
                       (Some "alice")
                       (form_submissions.id (job "j1" "alice" 5 pending))
                       carried_out carried_out two_due).2).1).
Proof.
  apply (delete_of_own_job (Dashboard.mk_state "" None []) "alice"
           (job "j1" "alice" 5 pending) carried_out two_due).
  - apply (form_submissions_pkey _ well_formed_two_due).
  - apply list_elem_of_here.
  - reflexivity.
Defined.

(** X15.  A job deleted while a call is under way.  A call that read job
    [r] before its owner deleted it still hands [r] out, and its update
    does not bring the row back: the table after the update has no row
    with that id. *)
Theorem deleted_during_call env req now db supabase pendingForms st u r o' o2
    now' :
  phase_read env req carried_out now db = inr (supabase, pendingForms) →
  NoDup (ids (submissions db)) →
  r ∈ due_rows now db →
  form_submissions.user_id r = u →
  r ∈ handed_out
        (phase_write supabase pendingForms o2 now'
           (Dashboard.handleDelete st (Some u) (form_submissions.id r)
              carried_out o' db).2).1
  ∧ (form_submissions.id r
       ∉ ids (submissions
                (phase_write supabase pendingForms o2 now'
                   (Dashboard.handleDelete st (Some u)
                      (form_submissions.id r) carried_out o' db).2).2)).
Proof.
  intros Hread Hnd Hdue Hu.
  apply phase_read_inr in Hread as [_ Hread].
  apply try_read_inr in Hread as (_ & _ & ->).
  rewrite phase_write_response. unfold handed_out.
  cbn [body from_option id]. split; [done |].
  pose proof Hdue as Hr. apply elem_of_due_rows in Hr as (Hr & _).
  unfold Dashboard.handleDelete, browser_client. cbn [respond snd].
  rewrite (delete_rows_own u _ r Hnd Hr Hu).
  set (db' := with_submissions db _).
  pose proof (phase_write_claim_only supabase (Some (due_rows now db)) o2
                now' db') as Hc.
  rewrite (claim_only_ids _ _ Hc). unfold db'; cbn [submissions with_submissions].
  intros Hin. apply list_elem_of_fmap in Hin as (x & Hid & Hx).
  apply list_elem_of_filter in Hx as [Hne Hx].
  apply Hne. by eapply pkey_unique.
Qed.

Lemma deleted_during_call_witness :
  job "j1" "alice" 5 pending
    ∈ handed_out
        (phase_write service_client (Some (due_rows 10 two_due)) carried_out
           12
           (Dashboard.handleDelete (Dashboard.mk_state "" None [])
              (Some "alice")
              (form_submissions.id (job "j1" "alice" 5 pending)) carried_out
              carried_out two_due).2).1
  ∧ (form_submissions.id (job "j1" "alice" 5 pending)
       ∉ ids (submissions
                (phase_write service_client (Some (due_rows 10 two_due))
                   carried_out 12
                   (Dashboard.handleDelete (Dashboard.mk_state "" None [])
                      (Some "alice")
                      (form_submissions.id (job "j1" "alice" 5 pending))
                      carried_out carried_out two_due).2).2)).
Proof.
  apply (deleted_during_call env0 GET 10 two_due service_client
           (Some (due_rows 10 two_due)) (Dashboard.mk_state "" None [])
           "alice" (job "j1" "alice" 5 pending) carried_out carried_out 12).
  - reflexivity.
  - apply (form_submissions_pkey _ well_formed_two_due).
  - apply list_elem_of_here.
  - reflexivity.
Defined.

#[global] Instance newest_first_total : Total Dashboard.newest_first.
Proof.
  intros a b. unfold Dashboard.newest_first.
  destruct (form_submissions.created_at a) as [x |],
           (form_submissions.created_at b) as [y |]; try tauto.
  lia.
Qed.

#[global] Instance newest_first_trans : Transitive Dashboard.newest_first.
Proof.
  intros a b c. unfold Dashboard.newest_first.
  destruct (form_submissions.created_at a) as [x |],
           (form_submissions.created_at b) as [y |],
           (form_submissions.created_at c) as [z |]; try tauto.
  lia.
Qed.

(** X16.  What the dashboard lists.  When the request is carried out the
    list is a rearrangement of the submissions of the session's user, and
    of no other, with every row before all rows created earlier (rows
    without created_at first); when the request fails the list shown
    before stays; without a session the list is empty. *)
Theorem dashboard_lists_own_newest_first u db shown :
  Dashboard.loadSubmissions (Some u) carried_out db shown
    ≡ₚ filter (λ r, form_submissions.user_id r = u) (submissions db)
  ∧ StronglySorted Dashboard.newest_first
      (Dashboard.loadSubmissions (Some u) carried_out db shown)
  ∧ (∀ e, Dashboard.loadSubmissions (Some u) (store_fails e) db shown = shown)
  ∧ Dashboard.loadSubmissions None carried_out db shown = [].
Proof.
  unfold Dashboard.loadSubmissions, browser_client. cbn [respond].
  split; [| split; [| split]].
  - rewrite merge_sort_Permutation. unfold select_rows.
    erewrite list_filter_iff; [done |].
    intros r. rewrite rls_allows_authenticated. tauto.
  - apply StronglySorted_merge_sort; apply _.
  - done.
  - unfold select_rows. rewrite filter_none; [done |].
    intros r _ [Hrls _]. by apply rls_allows_anon in Hrls.
Qed.

(** ** The greeting *)

Lemma first_word_no_space s i :
  String.get i (Dashboard.first_word s) ≠ Some " "%char.
Proof.
  revert i. induction s as [| a s IH]; intros i; [by destruct i |].
  cbn [Dashboard.first_word].
  destruct (Ascii.eqb a " ") eqn:Ha; [by destruct i |].
  destruct i as [| i]; cbn; [| apply IH].
  intros [= ->]. by rewrite Ascii.eqb_refl in Ha.
Qed.

Lemma first_word_of_word w :
  (∀ i, String.get i w ≠ Some " "%char) → Dashboard.first_word w = w.
Proof.
  induction w as [| a w IH]; [done |]. intros Hsp. cbn [Dashboard.first_word].
  destruct (Ascii.eqb_spec a " "%char) as [-> | _].
  - by specialize (Hsp 0%nat).
  - f_equal. apply IH. intros i. apply (Hsp (S i)).
Qed.

Lemma first_word_before_space w rest :
  (∀ i, String.get i w ≠ Some " "%char) →
  Dashboard.first_word (w +:+ " " +:+ rest) = w.
Proof.
  induction w as [| a w IH]; [done |]. intros Hsp.
  change (String a w +:+ " " +:+ rest) with (String a (w +:+ " " +:+ rest)).
  cbn [Dashboard.first_word].
  destruct (Ascii.eqb_spec a " "%char) as [-> | _].
  - by specialize (Hsp 0%nat).
  - f_equal. apply IH. intros i. apply (Hsp (S i)).
Qed.

Lemma first_word_splits s :
  s = Dashboard.first_word s
  ∨ ∃ rest, s = Dashboard.first_word s +:+ " " +:+ rest.
Proof.
  induction s as [| a s IH]; [by left |]. cbn [Dashboard.first_word].
  destruct (Ascii.eqb_spec a " "%char) as [-> | _].
  - right. by exists s.
  - destruct IH as [IH | [rest IH]].
    + left. by rewrite <- IH.
    + right. exists rest.
      change (String a (Dashboard.first_word s) +:+ " " +:+ rest)
        with (String a (Dashboard.first_word s +:+ " " +:+ rest)).
      by rewrite <- IH.
Qed.

(** X17.  The first name the dashboard greets with is never empty and
    holds no space.  Every full_name is a word without a space, alone or
    followed by a space and a rest; the greeting is that word, or "User"
    when the word is empty (an empty name, or one that starts with a
    space). *)
Theorem firstName_shown full_name :
  Dashboard.firstName full_name ≠ ""
  ∧ (∀ i, String.get i (Dashboard.firstName full_name) ≠ Some " "%char)
  ∧ (∃ w, (∀ i, String.get i w ≠ Some " "%char)
          ∧ (full_name = w ∨ ∃ rest, full_name = w +:+ " " +:+ rest))
  ∧ (∀ w,
       (∀ i, String.get i w ≠ Some " "%char) →
       (full_name = w ∨ ∃ rest, full_name = w +:+ " " +:+ rest) →
       Dashboard.firstName full_name = if decide (w = "") then "User" else w).
Proof.
  assert (∀ w,
            (∀ i, String.get i w ≠ Some " "%char) →
            (full_name = w ∨ ∃ rest, full_name = w +:+ " " +:+ rest) →
            Dashboard.first_word full_name = w) as Hword.
  { intros w Hsp [-> | [rest ->]];
      [by apply first_word_of_word | by apply first_word_before_space]. }
  pose proof (first_word_no_space full_name) as Hsp.
  assert (Dashboard.firstName full_name
          = if decide (Dashboard.first_word full_name = "") then "User"
            else Dashboard.first_word full_name) as Hname.
  { unfold Dashboard.firstName.
    by destruct (Dashboard.first_word full_name). }
  split; [| split; [| split]].
  - rewrite Hname. by case_decide.
  - rewrite Hname. case_decide; [| done].
    intros i. do 5 (destruct i as [| i]; [done |]). done.
  - exists (Dashboard.first_word full_name). split; [done |].
    apply first_word_splits.
  - intros w Hw Hfull. by rewrite Hname, (Hword w Hw Hfull).
Qed.

(** "Ada Lovelace" is greeted as "Ada", " Ada" as "User". *)
Lemma firstName_shown_witness :
  Dashboard.firstName "Ada Lovelace" = "Ada"
  ∧ Dashboard.firstName " Ada" = "User".
Proof.
  split.
  - apply (proj2 (proj2 (proj2 (firstName_shown "Ada Lovelace"))) "Ada").
    + intros i. do 4 (destruct i as [| i]; [done |]). done.
    + right. by exists "Lovelace".
  - apply (proj2 (proj2 (proj2 (firstName_shown " Ada"))) "").
    + by intros [| i].
    + right. by exists "Ada".
Defined.

(** ** The calendar *)

Lemma DayFromYear_succ y : DayFromYear (y + 1) = DayFromYear y + DaysInYear y.
Proof.
  unfold DayFromYear, DaysInYear, leap_year.
  destruct (Z.eqb_spec (y mod 4) 0), (Z.eqb_spec (y mod 100) 0),
    (Z.eqb_spec (y mod 400) 0); cbn [andb orb negb];
    Z.div_mod_to_equations; lia.
Qed.

Lemma DayFromYear_bounds y :
  146097 * (y - 1970) - 506 ≤ 400 * DayFromYear y ≤ 146097 * (y - 1970) + 589.
Proof. unfold DayFromYear. Z.div_mod_to_equations. lia. Qed.

Lemma DaysInYear_bounds y : 365 ≤ DaysInYear y ≤ 366.
Proof. unfold DaysInYear. destruct (leap_year y); lia. Qed.

Lemma DayFromYear_mono y y' : y ≤ y' → DayFromYear y ≤ DayFromYear y'.
Proof.
  intros Hle. replace y' with (y + Z.of_nat (Z.to_nat (y' - y))) by lia.
  induction (Z.to_nat (y' - y)) as [| n IH]; [by rewrite Z.add_0_r |].
  replace (y + Z.of_nat (S n)) with (y + Z.of_nat n + 1) by lia.
  rewrite DayFromYear_succ. pose proof (DaysInYear_bounds (y + Z.of_nat n)).
  lia.
Qed.

(** [YearFromTime] is the year the specification asks for. *)
Lemma YearFromTime_spec t :
  DayFromYear (YearFromTime t) ≤ Day t < DayFromYear (YearFromTime t + 1).
Proof.
  unfold YearFromTime.
  set (e := 400 * Day t / 146097).
  assert (146097 * e ≤ 400 * Day t < 146097 * (e + 1)) as He
    by (unfold e; Z.div_mod_to_equations; lia).
  pose proof (DayFromYear_bounds (1970 + e - 1)).
  pose proof (DayFromYear_bounds (1970 + e + 1 + 1)).
  destruct (Z.ltb_spec (Day t) (DayFromYear (1970 + e))).
  - replace (1970 + e - 1 + 1) with (1970 + e) by lia. lia.
  - destruct (Z.leb_spec (DayFromYear (1970 + e + 1)) (Day t)); lia.
Qed.

Lemma YearFromTime_unique t y :
  DayFromYear y ≤ Day t < DayFromYear (y + 1) → YearFromTime t = y.
Proof.
  intros Hy. pose proof (YearFromTime_spec t) as Hs.
  destruct (Z.lt_trichotomy (YearFromTime t) y) as [Hlt | [Heq | Hgt]];
    [| done |].
  - pose proof (DayFromYear_mono (YearFromTime t + 1) y ltac:(lia)). lia.
  - pose proof (DayFromYear_mono (y + 1) (YearFromTime t) ltac:(lia)). lia.
Qed.

Lemma Day_MakeDate day time :
  0 ≤ time < msPerDay → Day (MakeDate day time) = day.
Proof.
  intros H. unfold Day, MakeDate, msPerDay in *.
  Z.div_mod_to_equations. lia.
Qed.

Lemma TimeWithinDay_MakeDate day time :
  0 ≤ time < msPerDay → TimeWithinDay (MakeDate day time) = time.
Proof.
  intros H. unfold TimeWithinDay, MakeDate, msPerDay in *.
  Z.div_mod_to_equations. lia.
Qed.

Lemma MakeDate_Day t : MakeDate (Day t) (TimeWithinDay t) = t.
Proof.
  unfold MakeDate, Day, TimeWithinDay, msPerDay. Z.div_mod_to_equations. lia.
Qed.

Lemma TimeWithinDay_bounds t : 0 ≤ TimeWithinDay t < msPerDay.
Proof. by apply Z.mod_pos_bound. Qed.

Ltac months m H :=
  assert (m = 0 ∨ m = 1 ∨ m = 2 ∨ m = 3 ∨ m = 4 ∨ m = 5 ∨ m = 6 ∨ m = 7
          ∨ m = 8 ∨ m = 9 ∨ m = 10 ∨ m = 11) as H by lia;
  repeat (destruct H as [H | H]); subst m.

Ltac by_cases :=
  repeat match goal with
         | |- context [Z.eqb ?a ?b] => destruct (Z.eqb_spec a b)
         | |- context [Z.ltb ?a ?b] => destruct (Z.ltb_spec a b)
         | |- context [leap_year ?y] => destruct (leap_year y)
         end;
  cbn [orb andb negb]; try lia.

Lemma DaysInMonth_bounds y m : 28 ≤ DaysInMonth y m ≤ 31.
Proof. unfold DaysInMonth. by_cases. Qed.

Lemma DaysInMonth_not_february y y' m :
  m ≠ 1 → DaysInMonth y m = DaysInMonth y' m.
Proof. intros Hm. unfold DaysInMonth. by destruct (Z.eqb_spec m 1). Qed.

Lemma DaysInMonth_february y y' : DaysInMonth y' 1 - 1 ≤ DaysInMonth y 1.
Proof. unfold DaysInMonth. by_cases. Qed.

Lemma DaysInMonth_short y m :
  0 ≤ m ≤ 11 → DaysInMonth y m < 31 →
  m ≤ 10 ∧ DaysInMonth y (m + 1) = 31.
Proof. intros Hm. unfold DaysInMonth. by_cases. Qed.

Lemma MakeDay_in_year y m d :
  calendar_date y m d →
  MakeDay y m d
  = DayFromYear y + FirstDayOfMonth (if leap_year y then 1 else 0) m + d - 1
  ∧ DayFromYear y ≤ MakeDay y m d < DayFromYear (y + 1).
Proof.
  intros [Hm Hd]. unfold MakeDay.
  rewrite (Z.div_small m), (Z.mod_small m), Z.add_0_r by lia.
  split; [done |]. rewrite DayFromYear_succ. unfold DaysInYear.
  months m Hm'; unfold DaysInMonth in Hd; cbn in Hd |- *;
    destruct (leap_year y); lia.
Qed.

(** The fields of a local time put together from a day of the calendar
    and a time of day are that day and that time. *)
Lemma fields_of_MakeDate y m d ms :
  calendar_date y m d → 0 ≤ ms < msPerDay →
  YearFromTime (MakeDate (MakeDay y m d) ms) = y
  ∧ MonthFromTime (MakeDate (MakeDay y m d) ms) = m
  ∧ DateFromTime (MakeDate (MakeDay y m d) ms) = d
  ∧ TimeWithinDay (MakeDate (MakeDay y m d) ms) = ms.
Proof.
  intros Hcal Hms.
  destruct (MakeDay_in_year y m d Hcal) as [Hday Hin].
  assert (YearFromTime (MakeDate (MakeDay y m d) ms) = y) as Hy.
  { apply YearFromTime_unique. by rewrite Day_MakeDate. }
  assert (DayWithinYear (MakeDate (MakeDay y m d) ms)
          = FirstDayOfMonth (if leap_year y then 1 else 0) m + d - 1) as Hdwy.
  { unfold DayWithinYear. rewrite Hy, Day_MakeDate by done. lia. }
  assert (InLeapYear (MakeDate (MakeDay y m d) ms)
          = if leap_year y then 1 else 0) as Hl.
  { unfold InLeapYear. by rewrite Hy. }
  split; [done |].
  assert (MonthFromTime (MakeDate (MakeDay y m d) ms) = m) as Hm.
  { unfold MonthFromTime. rewrite Hdwy, Hl. destruct Hcal as [Hm Hd].
    months m Hm'; unfold DaysInMonth in Hd; cbn in Hd |- *;
      destruct (leap_year y);
      repeat match goal with
             | |- context [Z.ltb ?a ?b] => destruct (Z.ltb_spec a b); try lia
             end. }
  split; [done |]. split; [| by apply TimeWithinDay_MakeDate].
  unfold DateFromTime. rewrite Hdwy, Hl, Hm. lia.
Qed.

(** Every time lies on a day of the calendar. *)
Lemma calendar_date_of t :
  calendar_date (YearFromTime t) (MonthFromTime t) (DateFromTime t)
  ∧ MakeDate (MakeDay (YearFromTime t) (MonthFromTime t) (DateFromTime t))
      (TimeWithinDay t) = t.
Proof.
  pose proof (YearFromTime_spec t) as Hs. rewrite DayFromYear_succ in Hs.
  assert (0 ≤ DayWithinYear t < DaysInYear (YearFromTime t)) as Hd
    by (unfold DayWithinYear; lia).
  assert (calendar_date (YearFromTime t) (MonthFromTime t) (DateFromTime t))
    as Hcal.
  { unfold calendar_date, DateFromTime, MonthFromTime, InLeapYear, DaysInYear,
      DaysInMonth in *.
    destruct (leap_year (YearFromTime t));
      repeat match goal with
             | |- context [Z.ltb ?a ?b] => destruct (Z.ltb_spec a b)
             end; cbn; lia. }
  split; [done |].
  destruct (MakeDay_in_year _ _ _ Hcal) as [-> _].
  unfold DateFromTime, InLeapYear.
  transitivity (MakeDate (Day t) (TimeWithinDay t)); [| apply MakeDate_Day].
  f_equal. unfold DayWithinYear. lia.
Qed.

(** A day number past the end of its month counts on into the next. *)
Lemma MakeDay_next_month y m d :
  0 ≤ m ≤ 10 → MakeDay y m d = MakeDay y (m + 1) (d - DaysInMonth y m).
Proof.
  intros Hm. unfold MakeDay.
  rewrite (Z.div_small m), (Z.mod_small m), (Z.div_small (m + 1)),
    (Z.mod_small (m + 1)), Z.add_0_r by lia.
  assert (m = 0 ∨ m = 1 ∨ m = 2 ∨ m = 3 ∨ m = 4 ∨ m = 5 ∨ m = 6 ∨ m = 7
          ∨ m = 8 ∨ m = 9 ∨ m = 10) as Hm' by lia.
  repeat (destruct Hm' as [Hm' | Hm']); subst m; unfold DaysInMonth;
    destruct (leap_year y);
    repeat match goal with
           | |- context [FirstDayOfMonth ?a ?b] =>
               let v := eval vm_compute in (FirstDayOfMonth a b) in
               change (FirstDayOfMonth a b) with v
           end;
    simpl; lia.
Qed.

(** The date that month [m], day [d] of one year names in year [y]: the
    same, except that 29 February is 1 March in a year without it. *)
Lemma same_day_in_year y0 y m d :
  calendar_date y0 m d →
  ∃ m' d',
    MakeDay y m d = MakeDay y m' d' ∧ calendar_date y m' d'
    ∧ d' ≤ d ∧ (m ≠ 1 → m' = m ∧ d' = d).
Proof.
  intros [Hm Hd].
  destruct (decide (d ≤ DaysInMonth y m)) as [Hfit | Hover].
  - exists m, d. repeat split; lia || done.
  - assert (m = 1) as ->.
    { destruct (decide (m = 1)); [done |].
      rewrite (DaysInMonth_not_february y y0) in Hover by done. lia. }
    pose proof (DaysInMonth_february y y0).
    pose proof (DaysInMonth_bounds y 1).
    pose proof (DaysInMonth_bounds y (1 + 1)).
    pose proof (DaysInMonth_bounds y0 1).
    exists (1 + 1), (d - DaysInMonth y 1).
    split; [apply MakeDay_next_month; lia |].
    split; [split; lia |]. split; [lia |]. by intros [].
Qed.

Lemma time_fields_bounds t :
  0 ≤ HourFromTime t ≤ 23 ∧ 0 ≤ MinFromTime t ≤ 59
  ∧ 0 ≤ SecFromTime t ≤ 59 ∧ 0 ≤ msFromTime t ≤ 999.
Proof.
  unfold HourFromTime, MinFromTime, SecFromTime, msFromTime, msPerHour,
    msPerMinute, msPerSecond.
  Z.div_mod_to_equations. lia.
Qed.

Lemma fields_of_MakeTime day h mi s ms :
  0 ≤ h ≤ 23 → 0 ≤ mi ≤ 59 → 0 ≤ s ≤ 59 → 0 ≤ ms ≤ 999 →
  Day (MakeDate day (MakeTime h mi s ms)) = day
  ∧ HourFromTime (MakeDate day (MakeTime h mi s ms)) = h
  ∧ MinFromTime (MakeDate day (MakeTime h mi s ms)) = mi
  ∧ SecFromTime (MakeDate day (MakeTime h mi s ms)) = s
  ∧ msFromTime (MakeDate day (MakeTime h mi s ms)) = ms.
Proof.
  intros Hh Hmi Hs Hms.
  unfold Day, HourFromTime, MinFromTime, SecFromTime, msFromTime, MakeDate,
    MakeTime, msPerDay, msPerHour, msPerMinute, msPerSecond.
  repeat split; Z.div_mod_to_equations; lia.
Qed.

(** ** Picking the date and the time *)

Lemma TimeClip_representable LocalTZA t :
  representable LocalTZA t →
  TimeClip (UTC LocalTZA t) = time_value (UTC LocalTZA t)
  ∧ LocalTime LocalTZA (UTC LocalTZA t) = t.
Proof.
  intros [Hr Hl]. split; [| done]. unfold TimeClip.
  by destruct (Z.ltb_spec 8640000000000000 (Z.abs (UTC LocalTZA t))); [lia |].
Qed.

Lemma representable_calendar LocalTZA y m d ms :
  (∀ t isUTC, Z.abs (LocalTZA t isUTC) ≤ msPerDay) →
  LocalTime LocalTZA (UTC LocalTZA (MakeDate (MakeDay y m d) ms))
    = MakeDate (MakeDay y m d) ms →
  -271820 ≤ y ≤ 275759 → calendar_date y m d → 0 ≤ ms < msPerDay →
  representable LocalTZA (MakeDate (MakeDay y m d) ms).
Proof.
  intros Hoff Hex Hy Hcal Hms. split; [| done].
  destruct (MakeDay_in_year y m d Hcal) as [_ Hin].
  pose proof (DayFromYear_bounds y). pose proof (DayFromYear_bounds (y + 1)).
  specialize (Hoff (MakeDate (MakeDay y m d) ms) false).
  unfold UTC, MakeDate, msPerDay in *. lia.
Qed.

(** What a setter leaves when the local time it puts together is a day of
    the calendar at a time of day the zone never skips. *)
Lemma set_calendar_date LocalTZA y m d ms :
  (∀ t isUTC, Z.abs (LocalTZA t isUTC) ≤ msPerDay) →
  (∀ D, LocalTime LocalTZA (UTC LocalTZA (MakeDate D ms)) = MakeDate D ms) →
  -271820 ≤ y ≤ 275759 → calendar_date y m d → 0 ≤ ms < msPerDay →
  ∃ tv,
    TimeClip (UTC LocalTZA (MakeDate (MakeDay y m d) ms)) = time_value tv
    ∧ YearFromTime (LocalTime LocalTZA tv) = y
    ∧ MonthFromTime (LocalTime LocalTZA tv) = m
    ∧ DateFromTime (LocalTime LocalTZA tv) = d
    ∧ TimeWithinDay (LocalTime LocalTZA tv) = ms.
Proof.
  intros Hoff Hex Hy Hcal Hms.
  destruct (TimeClip_representable LocalTZA (MakeDate (MakeDay y m d) ms))
    as [Hc Hl]; [by apply representable_calendar |].
  eexists. split; [exact Hc |]. rewrite Hl. by apply fields_of_MakeDate.
Qed.

Lemma Houston_2025_offsets x isUTC : Z.abs (Houston_2025 x isUTC) ≤ msPerDay.
Proof.
  unfold Houston_2025.
  destruct isUTC;
    repeat match goal with
           | |- context [if ?b then _ else _] => destruct b
           end; by vm_compute.
Qed.

(** From 03:00 on, Houston skips no time of day on any day. *)
Lemma Houston_2025_from_three ms D :
  3 * msPerHour ≤ ms < msPerDay →
  LocalTime Houston_2025 (UTC Houston_2025 (MakeDate D ms)) = MakeDate D ms.
Proof.
  intros Hms. unfold LocalTime, UTC, Houston_2025.
  repeat match goal with
         | |- context [MakeDate (MakeDay ?y ?m ?d) ?t] =>
             let v := eval vm_compute in (MakeDate (MakeDay y m d) t) in
             change (MakeDate (MakeDay y m d) t) with v
         end.
  unfold MakeDate, msPerDay, msPerHour in *.
  repeat first
    [ progress cbn [andb]
    | match goal with
      | |- context [Z.leb ?a ?b] => destruct (Z.leb_spec a b)
      | |- context [Z.ltb ?a ?b] => destruct (Z.ltb_spec a b)
      end ]; lia.
Qed.

(** On 9 March 2025 Houston has no 02:30: the time typed comes out as
    03:30. *)
Lemma Houston_2025_spring_forward :
  setMinutes Houston_2025
    (setHours Houston_2025
       (time_value
          (UTC Houston_2025
             (MakeDate (MakeDay 2025 2 9) (MakeTime 9 0 0 0))))
       (Some 2))
    (Some 30)
  = time_value
      (UTC Houston_2025 (MakeDate (MakeDay 2025 2 9) (MakeTime 3 30 0 0))).
Proof. by vm_compute. Qed.

(** Picking 9 March 2025 from a state that stands on 02:30 leaves the
    state on 03:30 of that day. *)
Lemma Houston_2025_pick_spring_forward :
  Dashboard.scheduledTime
    (Dashboard.handleDateSelect Houston_2025
       (Dashboard.mk_state ""
          (Some (time_value
                   (UTC Houston_2025
                      (MakeDate (MakeDay 2025 0 15) (MakeTime 2 30 0 0)))))
          [])
       0
       (Some (time_value
                (UTC Houston_2025 (MakeDate (MakeDay 2025 2 9) 0)))))
  = Some (time_value
            (UTC Houston_2025
               (MakeDate (MakeDay 2025 2 9) (MakeTime 3 30 0 0)))).
Proof. by vm_compute. Qed.





(** X20.  Typing a time [HH:mm] into the time input keeps the day the
    state stands on and sets the hour and the minute, keeping seconds and
    milliseconds, when the local time typed, and the one with the typed
    hour and the minutes from before, are times a date can stand on: the
    zone skips neither, and both lie in the range of dates. *)
Theorem time_input_sets_time LocalTZA st clock tv t h mi :
  default (time_value clock) (Dashboard.scheduledTime st) = time_value tv →
  LocalTime LocalTZA tv = t →
  0 ≤ h ≤ 23 → 0 ≤ mi ≤ 59 →
  representable LocalTZA
    (MakeDate (Day t)
       (MakeTime h (MinFromTime t) (SecFromTime t) (msFromTime t))) →
  representable LocalTZA
    (MakeDate (Day t) (MakeTime h mi (SecFromTime t) (msFromTime t))) →
  ∃ tv',
    Dashboard.timeInput_onChange LocalTZA st clock (Some (h, mi))
    = Dashboard.mk_state (Dashboard.formUrl st) (Some (time_value tv'))
        (Dashboard.submissions_shown st)
    ∧ LocalTime LocalTZA tv'
      = MakeDate (Day t) (MakeTime h mi (SecFromTime t) (msFromTime t))
    ∧ Day (LocalTime LocalTZA tv') = Day t
    ∧ HourFromTime (LocalTime LocalTZA tv') = h
    ∧ MinFromTime (LocalTime LocalTZA tv') = mi
    ∧ SecFromTime (LocalTime LocalTZA tv') = SecFromTime t
    ∧ msFromTime (LocalTime LocalTZA tv') = msFromTime t.
Proof.
  intros Hst Ht Hh Hmi Hr1 Hr2.
  destruct (time_fields_bounds t) as (_ & Hmin & Hsec & Hms).
  destruct (TimeClip_representable _ _ Hr1) as [Hc1 Hl1].
  destruct (TimeClip_representable _ _ Hr2) as [Hc2 Hl2].
  destruct (fields_of_MakeTime (Day t) h (MinFromTime t) (SecFromTime t)
              (msFromTime t)) as (Hd1 & Hh1 & _ & Hs1 & Hm1); try done.
  destruct (fields_of_MakeTime (Day t) h mi (SecFromTime t) (msFromTime t))
    as (Hd2 & Hh2 & Hmi2 & Hs2 & Hm2); try done.
  eexists. split; [| rewrite Hl2; by repeat split].
  unfold Dashboard.timeInput_onChange. rewrite Hst. cbn [setHours].
  rewrite Ht, Hc1. cbn [setMinutes]. by rewrite Hl1, Hd1, Hh1, Hs1, Hm1, Hc2.
Qed.

(** In Houston, on 15 January 2025 at 09:00:01, the time 13:45 is
    typed. *)
Lemma time_input_sets_time_witness :
  ∃ tv',
    Dashboard.timeInput_onChange Houston_2025
      (Dashboard.mk_state "" (Some (time_value 1736953201000)) [])
      1736953201000 (Some (13, 45))
    = Dashboard.mk_state "" (Some (time_value tv')) []
    ∧ LocalTime Houston_2025 tv'
      = MakeDate (Day 1736931601000)
          (MakeTime 13 45 (SecFromTime 1736931601000)
             (msFromTime 1736931601000))
    ∧ Day (LocalTime Houston_2025 tv') = Day 1736931601000
    ∧ HourFromTime (LocalTime Houston_2025 tv') = 13
    ∧ MinFromTime (LocalTime Houston_2025 tv') = 45
    ∧ SecFromTime (LocalTime Houston_2025 tv') = SecFromTime 1736931601000
    ∧ msFromTime (LocalTime Houston_2025 tv') = msFromTime 1736931601000.
Proof.
  apply (time_input_sets_time Houston_2025
           (Dashboard.mk_state "" (Some (time_value 1736953201000)) [])
           1736953201000 1736953201000 1736931601000 13 45).
  - reflexivity.
  - reflexivity.
  - lia.
  - lia.
  - split; by vm_compute.
  - split; by vm_compute.
Defined.

(** X21.  Clearing the time input leaves an invalid date in the state,
    whatever the state and the zone, and the page cannot render that
    state: [format] throws a RangeError on it.  A state the page did
    render holds no invalid date, so [toISOString] does not throw on it
    in the submit handler. *)
Theorem cleared_time_input LocalTZA text st clock :
  Dashboard.scheduledTime
    (Dashboard.timeInput_onChange LocalTZA st clock None)
    = Some Invalid_Date
  ∧ Dashboard.render text
      (Dashboard.timeInput_onChange LocalTZA st clock None)
    = inl (Error "Invalid time value")
  ∧ (∀ st' shown d message,
       Dashboard.render text st' = inr shown →
       Dashboard.scheduledTime st' = Some d →
       ∃ tv, d = time_value tv ∧ toISOString message d = inr (tv * 1000)).
Proof.
  assert (Dashboard.scheduledTime
            (Dashboard.timeInput_onChange LocalTZA st clock None)
          = Some Invalid_Date) as Hinv.
  { unfold Dashboard.timeInput_onChange. cbn [Dashboard.scheduledTime].
    by destruct (setHours _ _ _). }
  split; [done |]. split.
  - unfold Dashboard.render. by rewrite Hinv.
  - intros st' shown d message Hrender Hd. unfold Dashboard.render in Hrender.
    rewrite Hd in Hrender. destruct d as [| tv]; [discriminate |].
    by exists tv.
Qed.

(** The time input is cleared on 15 January 2025; a state on that day
    renders, and its date goes to the store as its instant. *)
Lemma cleared_time_input_witness :
  Dashboard.render (λ _ formatStr, formatStr)
    (Dashboard.timeInput_onChange Houston_2025
       (Dashboard.mk_state "" (Some (time_value 1736953200000)) [])
       1736953200000 None)
  = inl (Error "Invalid time value")
  ∧ ∃ tv,
      time_value 1736953200000 = time_value tv
      ∧ toISOString "Invalid time value" (time_value 1736953200000)
        = inr (tv * 1000).
Proof.
  destruct (cleared_time_input Houston_2025 (λ _ formatStr, formatStr)
              (Dashboard.mk_state "" (Some (time_value 1736953200000)) [])
              1736953200000) as (_ & Hthrows & Hrendered).
  split; [exact Hthrows |].
  apply (Hrendered
           (Dashboard.mk_state "" (Some (time_value 1736953200000)) [])
           (Some "PPP 'at' p", "HH:mm")); reflexivity.
Defined.

(** ** More about one call to the endpoint *)

Lemma phase_write_db supabase pf o now db :
  (phase_write supabase pf o now db).2
  = with_submissions db (submissions (phase_write supabase pf o now db).2).
Proof.
  destruct (phase_write_other_tables supabase pf o now db) as [Hu Hp].
  destruct (phase_write supabase pf o now db).2 as [us ps ss] eqn:E.
  cbn in *. by subst.
Qed.

(** X22.  The answers of the endpoint.  A call answers 200 or 500, and
    500 exactly when something was thrown inside its [try]; an answer 500
    comes with no job handed out and the store untouched.  An OPTIONS
    request gets the preflight answer and touches nothing, even with the
    store down.  Without SUPABASE_URL the call answers 500 with the
    client's message and sends the store nothing. *)
Theorem answers_of_a_call env req o1 now o2 now' db :
  (status (serve env req o1 now o2 now' db).1 = 200
   ∨ status (serve env req o1 now o2 now' db).1 = 500)
  ∧ (status (serve env req o1 now o2 now' db).1 = 500
     ↔ is_Some (thrown_in env req o1 now db))
  ∧ (status (serve env req o1 now o2 now' db).1 = 500 →
     (serve env req o1 now o2 now' db).2 = db
     ∧ handed_out (serve env req o1 now o2 now' db).1 = []
     ∧ success <$> body (serve env req o1 now o2 now' db).1 = Some false)
  ∧ (method req = "OPTIONS" →
     serve env req o1 now o2 now' db = (mk_Response None corsHeaders 200, db))
  ∧ (method req ≠ "OPTIONS" →
     SUPABASE_URL env = None ∨ SUPABASE_URL env = Some "" →
     serve env req o1 now o2 now' db
     = (mk_Response (Some (json_failure "supabaseUrl is required."))
          json_headers 500,
        db)).
Proof.
  unfold serve, thrown_in, phase_read.
  destruct (decide (method req = "OPTIONS")) as [Hm | Hm].
  - cbn. repeat split; try done; try (by intros [? [=]]). by left.
  - destruct (try_read env o1 now db) as [e | [supabase pf]] eqn:Hread.
    + cbn. repeat split; try done; try (by right); try (by eexists).
      intros _ Hurl. unfold try_read in Hread.
      by destruct Hurl as [Hurl | Hurl]; rewrite Hurl in Hread;
        injection Hread as <-.
    + rewrite phase_write_response. cbn.
      repeat split; try done; try (by left); try (by intros [? [=]]).
      intros _ Hurl. unfold try_read in Hread.
      by destruct Hurl as [Hurl | Hurl]; rewrite Hurl in Hread.
Qed.

Lemma due_by_id (tbl : list form_submissions.row) now db r :
  tbl = submissions db → NoDup (ids tbl) → r ∈ tbl →
  form_submissions.id r ∈ ids (due_rows now db) ↔ due now r.
Proof.
  intros -> Hnd Hr. split.
  - intros Hin. apply list_elem_of_fmap in Hin as (x & Hid & Hx).
    apply elem_of_due_rows in Hx as (Hx & Hdue).
    by rewrite (pkey_unique _ x r Hnd Hx Hr).
  - intros Hdue. apply list_elem_of_fmap. exists r. split; [done |].
    apply elem_of_due_rows. split; [done | exact Hdue].
Qed.

(** X23.  What one call does to the store.  On a table that meets its
    primary key, a call whose two requests are carried out turns exactly
    the rows that are pending and due at its reading time into processing
    rows stamped with its update time; every other row (not yet due,
    processing, completed, failed) and every other table stays as it is.
    With nothing due the store is left untouched. *)
Theorem effect_of_a_call env req now now' db supabase :
  method req ≠ "OPTIONS" →
  createClient (SUPABASE_URL env) (SUPABASE_SERVICE_ROLE_KEY env)
    = inr supabase →
  NoDup (ids (submissions db)) →
  (serve env req carried_out now carried_out now' db).2
  = with_submissions db
      ((λ r, if decide (due now r) then claimed_row now' r else r)
         <$> submissions db)
  ∧ (due_rows now db = [] →
     (serve env req carried_out now carried_out now' db).2 = db).
Proof.
  intros Hm Hc Hnd. rewrite (serve_carried_out _ _ _ _ _ _ _ Hm Hc).
  rewrite phase_write_db, phase_write_submissions.
  rewrite (createClient_inr _ _ _ Hc).
  assert (updated_row service_role (id_in (ids (due_rows now db)))
            status_processing now' <$> submissions db
          = (λ r, if decide (due now r) then claimed_row now' r else r)
              <$> submissions db) as ->.
  { apply list_fmap_ext. intros i r Hr. rewrite updated_row_id_in.
    apply list_elem_of_lookup_2 in Hr.
    pose proof (due_by_id _ now db r eq_refl Hnd Hr) as Hiff.
    pose proof (rls_allows_service r).
    repeat case_decide; tauto || done. }
  split; [done |]. intros Hnone.
  transitivity (with_submissions db (submissions db));
    [| apply with_submissions_same].
  f_equal. transitivity (id <$> submissions db); [| apply list_fmap_id].
  apply list_fmap_ext. intros i r Hr. apply list_elem_of_lookup_2 in Hr.
  rewrite decide_False; [done |]. intros Hdue.
  assert (r ∈ due_rows now db) as Hin
    by (apply elem_of_due_rows; split; [done | exact Hdue]).
  rewrite Hnone in Hin. by apply elem_of_nil in Hin.
Qed.

(** One call at time 4 on two jobs due at 5 and 3. *)
Lemma effect_of_a_call_witness :
  (serve env0 GET carried_out 4 carried_out 6 two_due).2
  = with_submissions two_due
      ((λ r, if decide (due 4 r) then claimed_row 6 r else r)
         <$> submissions two_due)
  ∧ (due_rows 4 two_due = [] →
     (serve env0 GET carried_out 4 carried_out 6 two_due).2 = two_due).
Proof.
  apply (effect_of_a_call env0 GET 4 6 two_due service_client).
  - discriminate.
  - reflexivity.
  - apply (form_submissions_pkey _ well_formed_two_due).
Defined.

(** ** Polling in a row *)

(** X24.  Polling.  When calls that get through run one after another on
    a table that meets its primary key, a pending job is handed out
    exactly once if one of the calls reads at or after the job's
    scheduled time, and by the first such call; otherwise it is not
    handed out at all. *)
Theorem polled_exactly_once ks : ∀ db r,
  Forall gets_through ks →
  NoDup (ids (submissions db)) →
  r ∈ submissions db →
  form_submissions.status r = pending →
  times_handed_out (form_submissions.id r) (serve_all ks db).1
  = if decide (Exists (λ k, form_submissions.scheduled_time r
                              ≤ select_time k) ks)
    then 1%nat else 0%nat.
Proof.
  induction ks as [| k ks IH]; intros db r Hks Hnd Hr Hpending.
  { rewrite decide_False; [done |]. by intros ?%Exists_nil. }
  apply Forall_cons in Hks as [Hk Hks].
  destruct (serve_call_gets_through k db Hk) as (supabase & Hcred & Hserve).
  pose proof (serve_claims (call_env k) (call_req k) (select_outcome k)
                (select_time k) (update_time k) db (form_submissions.id r))
    as Hclaims.
  destruct Hk as (_ & _ & _ & Ho2).
  cbn [serve_all]. unfold serve_call in Hserve, Hclaims |- *.
  rewrite Ho2 in *. rewrite Hserve in *.
  pose proof (phase_write_claim_only supabase
                (Some (due_rows (select_time k) db)) carried_out
                (update_time k) db) as Hco.
  pose proof (phase_write_untouched supabase
                (Some (due_rows (select_time k) db)) carried_out
                (update_time k) db r Hr) as Hsame.
  rewrite phase_write_response in Hclaims.
  destruct (phase_write supabase _ carried_out (update_time k) db)
    as [resp db1] eqn:Hpw.
  assert (resp = (phase_write supabase (Some (due_rows (select_time k) db))
                    carried_out (update_time k) db).1) as Hresp
    by (by rewrite Hpw).
  rewrite phase_write_response in Hresp. cbn [snd] in *.
  pose proof (serve_all_not_pending ks db1 (form_submissions.id r)) as Hzero.
  specialize (IH db1 r Hks).
  destruct (serve_all ks db1) as [resps db2]. cbn [fst] in *.
  unfold times_handed_out in *. rewrite filter_cons.
  pose proof (due_by_id _ (select_time k) db r eq_refl Hnd Hr) as Hdue.
  assert (handed_out resp = due_rows (select_time k) db) as Hout
    by (by rewrite Hresp).
  rewrite Hout. unfold handed_out in Hclaims. cbn in Hclaims.
  destruct (decide (form_submissions.scheduled_time r ≤ select_time k))
    as [Hle | Hgt].
  - rewrite decide_True by (apply Hdue; by split).
    rewrite decide_True by (by left). cbn [length].
    rewrite Hzero; [done |]. apply Hclaims. apply Hdue. by split.
  - rewrite decide_False by (intros [_ ?]%Hdue; lia).
    rewrite IH; try done.
    + apply decide_ext. rewrite Exists_cons. tauto.
    + by rewrite (claim_only_ids _ _ Hco).
    + apply Hsame. cbn [from_option id]. intros [_ ?]%Hdue. lia.
Qed.

(** Two polls, a minute apart, on the job due at time 5. *)
Lemma polled_exactly_once_witness :
  times_handed_out (form_submissions.id (job "j1" "alice" 5 pending))
    (serve_all two_in_a_row one_due).1
  = if decide (Exists (λ k, form_submissions.scheduled_time
                              (job "j1" "alice" 5 pending)
                            ≤ select_time k) two_in_a_row)
    then 1%nat else 0%nat.
Proof.
  apply (polled_exactly_once two_in_a_row one_due
           (job "j1" "alice" 5 pending)).
  - repeat constructor; try discriminate; by exists service_client.
  - apply (form_submissions_pkey _ well_formed_one_due).
  - apply list_elem_of_here.
  - reflexivity.
Defined.

(** ** The Auth page *)

Lemma length_append_string (a b : string) :
  String.length (a +:+ b) = (String.length a + String.length b)%nat.
Proof. induction a as [| c a IH]; simpl; [done | by f_equal]. Qed.

Lemma substring_all (s : string) : String.substring 0 (String.length s) s = s.
Proof. induction s as [| c s IH]; simpl; [done | by f_equal]. Qed.

Lemma substring_append_r (pre suf : string) :
  String.substring (String.length pre) (String.length suf) (pre +:+ suf) = suf.
Proof. induction pre as [| c pre IH]; simpl; [apply substring_all | done]. Qed.

Lemma substring_split (s : string) : ∀ n,
  (n ≤ String.length s)%nat →
  s = String.substring 0 n s
      +:+ String.substring n (String.length s - n) s.
Proof.
  induction s as [| c s IH]; intros n Hn.
  - simpl in Hn. by replace n with 0%nat by lia.
  - destruct n as [| n].
    + by rewrite Nat.sub_0_r, substring_all.
    + change (String c s
              = String c (String.substring 0 n s
                          +:+ String.substring n (String.length s - n) s)).
      f_equal. apply IH. simpl in Hn. lia.
Qed.

(** [endsWith] finds a suffix and nothing else. *)
Lemma endsWith_spec s suffix :
  Auth.endsWith s suffix = true ↔ ∃ pre, s = pre +:+ suffix.
Proof.
  unfold Auth.endsWith. split.
  - destruct (Nat.leb_spec (String.length suffix) (String.length s)) as [Hle |];
      [| discriminate].
    intros Heq%String.eqb_eq.
    exists (String.substring 0 (String.length s - String.length suffix) s).
    pose proof (substring_split s (String.length s - String.length suffix)
                  ltac:(lia)) as Hsplit.
    replace (String.length s - (String.length s - String.length suffix))%nat
      with (String.length suffix) in Hsplit by lia.
    by rewrite Heq in Hsplit.
  - intros [pre ->]. rewrite length_append_string.
    destruct (Nat.leb_spec (String.length suffix)
                (String.length pre + String.length suffix)) as [_ |]; [| lia].
    replace (String.length pre + String.length suffix
             - String.length suffix)%nat with (String.length pre) by lia.
    rewrite substring_append_r. apply String.eqb_refl.
Qed.

(** X25.  The Auth page sends credentials to the auth service only for
    an email that passes the library's email check and ends in
    "@rice.edu"; the request is then a sign-in in login mode and else a
    sign-up that redirects to the onboarding page, with the email and the
    password as typed.  For any other email it sends nothing and shows
    the destructive toast "Invalid email". *)
Theorem auth_page_sends_rice_emails_only
    is_email invalid_email isLogin email password origin auth_error :
  match (Auth.handleAuth is_email invalid_email isLogin email password
           origin auth_error).1 with
  | Some request =>
      is_email email = true
      ∧ (∃ pre, email = pre +:+ "@rice.edu")
      ∧ request
        = (if isLogin then Auth.signInWithPassword email password
           else Auth.signUp_request email password (origin +:+ "/onboarding"))
  | None =>
      (is_email email = false ∨ ¬ ∃ pre, email = pre +:+ "@rice.edu")
      ∧ ∃ message,
          (Auth.handleAuth is_email invalid_email isLogin email password
             origin auth_error).2
          = Some (mk_toast "Invalid email" (Some message)
                    (Some "destructive"))
  end.
Proof.
  unfold Auth.handleAuth, Auth.emailSchema_issues.
  pose proof (endsWith_spec email "@rice.edu") as Hspec.
  destruct (is_email email), (Auth.endsWith email "@rice.edu"); cbn.
  - split; [done |]. split; [by apply Hspec | done].
  - split; [right; intros ?%Hspec; done | eauto].
  - split; [by left | eauto].
  - split; [by left | eauto].
Qed.

(** ** One round of the worker *)

Lemma process_form_about form run :
  Forall (λ a, scheduler.about a = form_submissions.id form)
    (scheduler.process_form form run).1.
Proof.
  unfold scheduler.process_form.
  destruct (scheduler.fill_google_form run),
           (scheduler.post_completed run); cbn; repeat constructor.
Qed.

Lemma process_form_raises form run e :
  (scheduler.process_form form run).2 = scheduler.raises e →
  scheduler.post_failed run = scheduler.raises e.
Proof.
  unfold scheduler.process_form.
  by destruct (scheduler.fill_google_form run),
              (scheduler.post_completed run).
Qed.

Lemma process_form_reports form run :
  scheduler.post_completed run = scheduler.returns →
  scheduler.post_failed run = scheduler.returns →
  scheduler.process_form form run
  = (match scheduler.fill_google_form run with
     | scheduler.returns =>
         [ scheduler.fills form;
           scheduler.posts (form_submissions.id form) completed None ]
     | scheduler.raises e =>
         [ scheduler.fills form;
           scheduler.posts (form_submissions.id form) failed (Some e) ]
     end,
     scheduler.returns).
Proof.
  intros Hc Hf. unfold scheduler.process_form. rewrite Hc, Hf.
  by destruct (scheduler.fill_google_form run).
Qed.

(** X26.  A round of the worker in which no report raises.  Given a
    success answer of the endpoint, the worker fills every form handed
    out, in order, once, and sends one report for each: completed when
    the filling returned, failed with the exception's text when it
    raised.  Given a failure answer it does nothing. *)
Theorem worker_reports_each_form pendingForms count hdrs st run :
  (∀ r, r ∈ pendingForms →
        scheduler.post_completed (run r) = scheduler.returns
        ∧ scheduler.post_failed (run r) = scheduler.returns) →
  scheduler.check_and_process_forms
    (mk_Response (Some (json_success pendingForms count)) hdrs st) run
  = (pendingForms ≫= (λ r,
       match scheduler.fill_google_form (run r) with
       | scheduler.returns =>
           [ scheduler.fills r;
             scheduler.posts (form_submissions.id r) completed None ]
       | scheduler.raises e =>
           [ scheduler.fills r;
             scheduler.posts (form_submissions.id r) failed (Some e) ]
       end),
     scheduler.returns)
  ∧ ∀ e, scheduler.check_and_process_forms
           (mk_Response (Some (json_failure e)) hdrs st) run
         = ([], scheduler.returns).
Proof.
  intros Hposts. split; [| done].
  unfold scheduler.check_and_process_forms. cbn [body].
  induction pendingForms as [| r pf IH]; [done |].
  cbn [scheduler.process_forms mbind list_bind].
  destruct (Hposts r (list_elem_of_here _ _)) as [Hc Hf].
  rewrite (process_form_reports r (run r) Hc Hf).
  rewrite IH; [done |]. intros x Hx. apply Hposts. by right.
Qed.

(** A round on two jobs: the first filling raises, the second returns. *)
Lemma worker_reports_each_form_witness :
  scheduler.check_and_process_forms
    (mk_Response (Some (json_success (due_rows 10 two_due) 2)) json_headers
       200)
    (λ r, scheduler.mk_form_run
            (if decide (form_submissions.id r = "j1")
             then scheduler.raises "TimeoutException"
             else scheduler.returns)
            scheduler.returns scheduler.returns)
  = (due_rows 10 two_due ≫= (λ r,
       match scheduler.fill_google_form
               (scheduler.mk_form_run
                  (if decide (form_submissions.id r = "j1")
                   then scheduler.raises "TimeoutException"
                   else scheduler.returns)
                  scheduler.returns scheduler.returns) with
       | scheduler.returns =>
           [ scheduler.fills r;
             scheduler.posts (form_submissions.id r) completed None ]
       | scheduler.raises e =>
           [ scheduler.fills r;
             scheduler.posts (form_submissions.id r) failed (Some e) ]
       end),
     scheduler.returns).
Proof.
  apply (proj1 (worker_reports_each_form (due_rows 10 two_due) 2
                  json_headers 200
                  (λ r, scheduler.mk_form_run
                          (if decide (form_submissions.id r = "j1")
                           then scheduler.raises "TimeoutException"
                           else scheduler.returns)
                          scheduler.returns scheduler.returns)
                  (λ r _, conj eq_refl eq_refl))).
Defined.

Lemma process_forms_raises forms run e :
  (scheduler.process_forms forms run).2 = scheduler.raises e →
  ∃ pre r post,
    forms = pre ++ r :: post
    ∧ scheduler.post_failed (run r) = scheduler.raises e
    ∧ Forall (λ a, scheduler.about a ∈ ids (pre ++ [r]))
        (scheduler.process_forms forms run).1.
Proof.
  induction forms as [| f forms IH]; [discriminate |].
  cbn [scheduler.process_forms].
  pose proof (process_form_about f (run f)) as Habout.
  pose proof (process_form_raises f (run f)) as Hraises.
  destruct (scheduler.process_form f (run f)) as [acts [| e']]; cbn in *.
  - destruct (scheduler.process_forms forms run) as [rest out] eqn:Hrest.
    cbn in *. intros Hout. destruct (IH Hout) as (pre & r & post & -> & Hf & Hall).
    exists (f :: pre), r, post. split; [done |]. split; [done |].
    apply Forall_app. split.
    + eapply Forall_impl; [exact Habout |]. intros a ->. apply list_elem_of_here.
    + eapply Forall_impl; [exact Hall |]. intros a Ha. by right.
  - intros [= ->]. exists [], f, forms. split; [done |].
    split; [by apply Hraises |].
    eapply Forall_impl; [exact Habout |]. intros a ->. apply list_elem_of_here.
Qed.


